(** * OCML-Photospheres: the cardinal image processor of
    [AzureCognitiveVisionRest.py], embedded and verified.

    Part I follows the Python class [AzCognVisionRest]:

    - [Num], [Text], [Float]: the arithmetic and string operations the
      code takes from Python ([round], [%], slices, [split], [int],
      [float], the float operations, [str] of a float,
      [decimal.Decimal]);
    - [Geometry]: [check_degrees] and [check_cardinality] (lines 94-147)
      on floats; [get_dir] (lines 152-169) on floats that may be NaN, with
      the [atan2] of the C library as a parameter, and its formula on the
      reals, for the angle that the floats approximate;
    - [Timestamp]: [time_convert] (lines 197-224), with the binary64
      rounding of [timestamp / 86400], the shortest [str] of that float and
      the 28-digit [Decimal] arithmetic written out;
    - [Py]: the dynamically typed values, the exceptions, and the monad of
      a computation on one mutable dictionary (the dictionary, the keys
      assigned, or the exception raised);
    - [Pipeline]: [get_object_bounds], [process_cardinal_images]
      (lines 438-595), the batch loop of [ML_Vision_Photospheres.py], and
      [create_geojson_from_cardinals] (lines 600-657);
    - [Sample]: one photosphere and its collaborators, for concrete runs.

    Part II proves the properties, module by module.

    Number model.  A finite Python float is the rational number it
    denotes, and a float operation is the exact operation followed by
    the rounding to binary64 ([Float.float_of_Q]: 53 significant bits,
    ties to even, gradual underflow).  This is how the sums of
    [check_degrees], the slice directions, the centres and directions of
    the objects and the division of [time_convert] are computed; a
    literal that is no binary64 value (0.045) is rounded.  The bins of
    [check_cardinality] and [round(value, 3)] are kept as decimals:
    a decimal of three places compares with the bins as its float does.
    NaN is modelled where [get_dir] returns it ([Geometry.pyfloat]);
    infinities and overflow are outside the model.

    Exceptions.  Only instances of [Exception] are modelled, which is what
    the two [except Exception] clauses catch. *)

From Stdlib Require Import ZArith QArith Qround Qabs Qreals Reals Psatz.
From Stdlib Require Import String Ascii List.
From stdpp Require Import gmap strings list pretty.

Local Open Scope Z_scope.

(* ===================================================================== *)
(** * Part I: definitions                                                 *)
(* ===================================================================== *)

(** ** Rational helpers *)

Module Num.

Definition Qltb (x y : Q) : bool := negb (Qle_bool y x).

(** [q mod m] for rationals, with the sign of [m] (Python's [%]). *)
Definition Qmod (q m : Q) : Q := (q - m * inject_Z (Qfloor (q / m)))%Q.

(** Round to the nearest integer, ties to the even one. *)
Definition round_half_even (q : Q) : Z :=
  let n := Qfloor q in
  match (q - inject_Z n ?= 1 # 2)%Q with
  | Lt => n
  | Gt => n + 1
  | Eq => if Z.even n then n else n + 1
  end.

(** [10 ^ n] as a rational, [n] of either sign. *)
Definition pow10 (n : Z) : Q := (inject_Z 10 ^ n)%Q.
Definition pow2 (n : Z) : Q := (inject_Z 2 ^ n)%Q.

(** Python's [round(value, ndigits)] on a float: the multiple of
    [10 ^ -ndigits] nearest to the exact value, ties to even. *)
Definition round (value : Q) (ndigits : Z) : Q :=
  (inject_Z (round_half_even (value * pow10 ndigits)) / pow10 ndigits)%Q.

End Num.

(** ** Text helpers: the string operations the code uses *)

Module Text.
Local Open Scope string_scope.

Fixpoint take (n : nat) (s : string) : string :=
  match n, s with
  | S n', String c rest => String c (take n' rest)
  | _, _ => ""
  end.

Fixpoint drop (n : nat) (s : string) : string :=
  match n, s with
  | S n', String _ rest => drop n' rest
  | _, _ => s
  end.

(** Python's slice [s[i:j]] for [0 <= i <= j]. *)
Definition slice (i j : nat) (s : string) : string := take (j - i) (drop i s).

Fixpoint starts_with (p s : string) : bool :=
  match p, s with
  | "", _ => true
  | String a p', String b s' => Ascii.eqb a b && starts_with p' s'
  | _, _ => false
  end.

(** [s.split(sep)[0]]: the text before the first occurrence of the
    non-empty separator [sep], all of [s] when there is none. *)
Fixpoint before_first (sep s : string) : string :=
  match s with
  | "" => ""
  | String c rest => if starts_with sep s then "" else String c (before_first sep rest)
  end.

(** [needle in s] for two strings. *)
Fixpoint contains (needle s : string) : bool :=
  starts_with needle s ||
  match s with
  | "" => false
  | String _ rest => contains needle rest
  end.

Definition is_digit (c : ascii) : bool :=
  let n := nat_of_ascii c in (48 <=? n)%nat && (n <=? 57)%nat.

Definition digit_value (c : ascii) : Z := Z.of_nat (nat_of_ascii c) - 48.

Definition is_space (c : ascii) : bool :=
  let n := nat_of_ascii c in
  ((9 <=? n)%nat && (n <=? 13)%nat) || (28 <=? n)%nat && (n <=? 32)%nat.

Fixpoint lstrip (s : string) : string :=
  match s with
  | String c rest => if is_space c then lstrip rest else s
  | "" => ""
  end.

Fixpoint rstrip (s : string) : string :=
  match s with
  | "" => ""
  | String c rest =>
      match rstrip rest with
      | "" => if is_space c then "" else String c ""
      | rest' => String c rest'
      end
  end.

Definition strip (s : string) : string := rstrip (lstrip s).

(** Decimal digits with single underscores between digits, as the
    literals that [int] and [float] read; [acc] is the value so far and
    the result counts the digits read. *)
Fixpoint digits (s : string) (acc : Z) (count : nat) : option (Z * nat * string) :=
  match s with
  | String c rest =>
      if is_digit c then digits rest (10 * acc + digit_value c) (S count)
      else if Ascii.eqb c "_" then
             match count, rest with
             | S _, String d _ => if is_digit d then digits rest acc count else None
             | _, _ => None
             end
           else Some (acc, count, s)
  | "" => Some (acc, count, "")
  end.

Definition sign_of (s : string) : Z * string :=
  match s with
  | String "-" rest => (-1, rest)
  | String "+" rest => (1, rest)
  | _ => (1, s)
  end.

(** [int(s)] for a string in base 10; [None] is the [ValueError]. *)
Definition int_of_string (s : string) : option Z :=
  let '(sg, body) := sign_of (strip s) in
  match digits body 0 0%nat with
  | Some (n, S _, "") => Some (sg * n)
  | _ => None
  end.

(** Python's [str.capitalize] on ASCII text: first character upper
    case, the rest lower case. *)
Definition upper (c : ascii) : ascii :=
  let n := nat_of_ascii c in
  if (97 <=? n)%nat && (n <=? 122)%nat then ascii_of_nat (n - 32) else c.
Definition lower (c : ascii) : ascii :=
  let n := nat_of_ascii c in
  if (65 <=? n)%nat && (n <=? 90)%nat then ascii_of_nat (n + 32) else c.
Fixpoint map_string (f : ascii -> ascii) (s : string) : string :=
  match s with
  | "" => ""
  | String c rest => String (f c) (map_string f rest)
  end.
Definition capitalize (s : string) : string :=
  match s with
  | "" => ""
  | String c rest => String (upper c) (map_string lower rest)
  end.

(** [sep.join(parts)]. *)
Fixpoint join (sep : string) (parts : list string) : string :=
  match parts with
  | [] => ""
  | [x] => x
  | x :: rest => x ++ sep ++ join sep rest
  end.

End Text.

(** ** Floats and decimals: the arithmetic under [time_convert] and [str] *)

Module Float.
Import Num.

(** [floor (log2 a)] for [a > 0]. *)
Definition floor_log2 (a : Q) : Z :=
  let g := Z.log2 (Qnum a) - Z.log2 (Zpos (Qden a)) in
  if Qle_bool (pow2 g) a then g else g - 1.

(** [floor (log10 a)] for [a > 0]: an estimate from [floor_log2],
    corrected by at most [fuel] steps either way. *)
Fixpoint adjust_log10 (a : Q) (k : Z) (fuel : nat) : Z :=
  match fuel with
  | O => k
  | S fuel' =>
      if Qltb a (pow10 k) then adjust_log10 a (k - 1) fuel'
      else if Qle_bool (pow10 (k + 1)) a then adjust_log10 a (k + 1) fuel'
           else k
  end.
Definition floor_log10 (a : Q) : Z :=
  adjust_log10 a (floor_log2 a * 30103 / 100000) 3.

Definition Qsign (q : Q) : Q := if Qltb q 0 then (-1)%Q else 1%Q.

(** The binary64 value nearest to [q]: 53 significant bits, ties to the
    even significand, gradual underflow below [2 ^ -1022].  Overflow to
    infinity is outside the model. *)
Definition float_of_Q (q : Q) : Q :=
  if Qeq_bool q 0 then 0%Q
  else
    let a := Qabs q in
    let e := Z.max (floor_log2 a - 52) (-1074) in
    Qred (Qsign q * (inject_Z (round_half_even (a / pow2 e)) * pow2 e)).

(** The float operations [x + y], [x - y], [x * y] and [x / y] on two
    floats: the exact result, rounded.  [- x] is exact. *)
Definition float_add (x y : Q) : Q := float_of_Q (x + y).
Definition float_sub (x y : Q) : Q := float_of_Q (x - y).
Definition float_mul (x y : Q) : Q := float_of_Q (x * y).
Definition float_div (x y : Q) : Q := float_of_Q (x / y).

(** The exponent of the last bit that [float_of_Q] keeps of [a > 0]. *)
Definition exponent (a : Q) : Z := Z.max (floor_log2 a - 52) (-1074).

(** [binary64 q]: [q] is a binary64 value, one that rounding leaves as it
    is. *)
Definition binary64 (q : Q) : Prop := (float_of_Q q == q)%Q.

(** The decimal that [repr] (and [str]) print for a positive float [a]
    when it takes [n] significant digits: of the two [n]-digit decimals
    around [a], one that reads back as [a], the nearer if both do. *)
Definition repr_candidate (a : Q) (n : Z) : option Q :=
  let scale := pow10 (floor_log10 a - n + 1) in
  let lo := (inject_Z (Qfloor (a / scale)) * scale)%Q in
  let hi := (lo + scale)%Q in
  match Qeq_bool (float_of_Q lo) a, Qeq_bool (float_of_Q hi) a with
  | true, true => Some (if Qle_bool (a - lo) (hi - a) then lo else hi)
  | true, false => Some lo
  | false, true => Some hi
  | false, false => None
  end.

Fixpoint shortest_from (a : Q) (n : Z) (fuel : nat) : Q :=
  match fuel with
  | O => a
  | S fuel' =>
      match repr_candidate a n with
      | Some d => d
      | None => shortest_from a (n + 1) fuel'
      end
  end.

(** The number written by [str(x)] for a float [x]: the shortest
    decimal that reads back as [x] (17 digits always do). *)
Definition repr_value (x : Q) : Q :=
  if Qeq_bool x 0 then 0%Q else Qred (Qsign x * shortest_from (Qabs x) 1 17).

(** *** [decimal.Decimal] under the default context: 28 significant
    digits, ROUND_HALF_EVEN *)

Definition decimal_round (q : Q) : Q :=
  if Qeq_bool q 0 then 0%Q
  else
    let a := Qabs q in
    let scale := pow10 (floor_log10 a - 27) in
    Qred (Qsign q * (inject_Z (round_half_even (a / scale)) * scale)).

Definition decimal_mul (x y : Q) : Q := decimal_round (x * y).
Definition decimal_div (x y : Q) : Q := decimal_round (x / y).

(** [int(d)]: truncation toward zero. *)
Definition truncate (q : Q) : Z := if Qltb q 0 then Qceiling q else Qfloor q.

(** [d % 1] on a [Decimal]: the remainder has the sign of [d]. *)
Definition decimal_mod1 (d : Q) : Q := decimal_round (d - inject_Z (truncate d)).

(** *** [str(x)] and [float(s)] *)

Local Open Scope string_scope.

Fixpoint strip_trailing_zeros (s : string) : string :=
  match s with
  | "" => ""
  | String c rest =>
      match strip_trailing_zeros rest with
      | "" => if Ascii.eqb c "0" then "" else String c ""
      | rest' => String c rest'
      end
  end.

Fixpoint zeros (n : nat) : string :=
  match n with
  | O => ""
  | S n' => String "0" (zeros n')
  end.

(** [str(x)] for a float: the shortest digits, in positional notation
    when the decimal point falls within [-3 .. 16] digits of the first
    one and with an exponent of at least two digits otherwise. *)
Definition float_str (x : Q) : string :=
  if Qeq_bool x 0 then "0.0"
  else
    let d := shortest_from (Qabs x) 1 17 in
    let k := floor_log10 d in
    let ds := strip_trailing_zeros (pretty (Qfloor (d * pow10 (16 - k)))) in
    let n := String.length ds in
    let decpt := (k + 1)%Z in
    (if Qltb x 0 then "-" else "") ++
    (if ((decpt <=? -4) || (16 <? decpt))%Z then
       Text.take 1 ds ++ (if (1 <? n)%nat then "." ++ Text.drop 1 ds else "")
       ++ "e" ++ (if (k <? 0)%Z then "-" else "+")
       ++ (if (Z.abs k <? 10)%Z then "0" else "") ++ pretty (Z.abs k)
     else if (decpt <=? 0)%Z then "0." ++ zeros (Z.to_nat (- decpt)) ++ ds
     else if (Z.of_nat n <=? decpt)%Z then ds ++ zeros (Z.to_nat decpt - n) ++ ".0"
     else Text.take (Z.to_nat decpt) ds ++ "." ++ Text.drop (Z.to_nat decpt) ds).

(** [float(s)] for a string holding a finite decimal literal; [None] is
    the [ValueError].  The spellings of infinity and NaN are outside the
    model. *)
Definition float_of_string (s : string) : option Q :=
  let '(sg, body) := Text.sign_of (Text.strip s) in
  match Text.digits body 0 0%nat with
  | None => None
  | Some (ip, ni, rest) =>
      let frac :=
        match rest with
        | String "." r => Text.digits r 0 0%nat
        | _ => Some (0, 0%nat, rest)
        end in
      match frac with
      | None => None
      | Some (fp, nf, rest') =>
          let expo :=
            match rest' with
            | "" => Some 0
            | String c r =>
                if Ascii.eqb c "e" || Ascii.eqb c "E" then
                  let '(se, eb) := Text.sign_of r in
                  match Text.digits eb 0 0%nat with
                  | Some (e, S _, "") => Some (se * e)
                  | _ => None
                  end
                else None
            end in
          match expo, (ni + nf)%nat with
          | Some e, S _ =>
              Some (float_of_Q (inject_Z sg
                                * (inject_Z ip + inject_Z fp / pow10 (Z.of_nat nf))
                                * pow10 e))
          | _, _ => None
          end
      end
  end.

End Float.

(** ** 4.1 Geometry and cardinality *)

Module Geometry.
Import Num Float.
Local Open Scope string_scope.

(** [check_degrees] (lines 94-110), on two floats: the sum of line 107
    and the difference of line 109 are float operations. *)
Definition check_degrees (x y : Q) : Q :=
  let sumdeg := float_add x y in
  if Qltb 360 sumdeg then float_sub sumdeg 360 else sumdeg.

(** The dictionary of [check_cardinality] (lines 127-139), in the order
    it is written, which is the order Python iterates it in. *)
Definition cardinalDictionary : list (string * (Q * Q)) :=
  [ ("N0", (0, 5.625)); ("NbE", (5.625, 16.875)); ("NNE", (16.875, 28.125));
    ("NEbN", (28.125, 39.375)); ("NE", (39.375, 50.625)); ("NEbE", (50.625, 61.875));
    ("ENE", (61.875, 73.125)); ("EbN", (73.125, 84.375)); ("E", (84.375, 95.625));
    ("EbS", (95.625, 106.875)); ("ESE", (106.875, 118.125)); ("SEbE", (118.125, 129.375));
    ("SE", (129.375, 140.625)); ("SEbS", (140.625, 151.875)); ("SSE", (151.875, 163.125));
    ("SbE", (163.125, 174.375)); ("S", (174.375, 185.625)); ("SbW", (185.625, 196.875));
    ("SSW", (196.875, 208.125)); ("SWbS", (208.125, 219.375)); ("SW", (219.375, 230.625));
    ("SWbW", (230.625, 241.875)); ("WSW", (241.875, 253.125)); ("WbS", (253.125, 264.375));
    ("W", (264.375, 275.625)); ("WbN", (275.625, 286.875)); ("WNW", (286.875, 298.125));
    ("NWbW", (298.125, 309.375)); ("NW", (309.375, 320.625)); ("NWbN", (320.625, 331.875));
    ("NNW", (331.875, 343.125)); ("NbW", (343.125, 354.375)); ("N1", (354.375, 360.000001)) ]%Q.

(** The test of line 142: [lo <= round(value, 3) < hi]. *)
Definition bin_matches (value : Q) (bin : string * (Q * Q)) : bool :=
  Qle_bool (fst (snd bin)) (round value 3) && Qltb (round value 3) (snd (snd bin)).

(** Lines 143-146: the two halves of north share the label "N". *)
Definition bin_label (direction : string) : string :=
  if String.eqb direction "N0" || String.eqb direction "N1" then "N" else direction.

(** [check_cardinality] (lines 115-147).  The loop scans every bin and a
    later match overwrites an earlier one; [None] is the unbound local
    [cardinalDir] at the [return] when no bin matched. *)
Definition check_cardinality (value : Q) : option string :=
  fold_left
    (fun cardinalDir bin =>
       if bin_matches value bin then Some (bin_label (fst bin)) else cardinalDir)
    cardinalDictionary None.

(** The 32 labels a match can produce. *)
Definition labels : list string :=
  [ "N"; "NbE"; "NNE"; "NEbN"; "NE"; "NEbE"; "ENE"; "EbN"; "E"; "EbS"; "ESE";
    "SEbE"; "SE"; "SEbS"; "SSE"; "SbE"; "S"; "SbW"; "SSW"; "SWbS"; "SW"; "SWbW";
    "WSW"; "WbS"; "W"; "WbN"; "WNW"; "NWbW"; "NW"; "NWbN"; "NNW"; "NbW" ].

(** *** [get_dir], on floats *)

(** A Python float that may be NaN.  Infinities are outside the model. *)
Inductive pyfloat : Type :=
  | Number (q : Q)
  | NaN.

Module Floating.

(** [math.pi], and the factor [180.0 / pi] of [math.degrees]. *)
Definition pi : Q := 884279719003555 # 281474976710656.
Definition radToDeg : Q := float_div 180 pi.

(** [math.degrees(x)] is the float product [x * radToDeg]. *)
Definition degrees (x : Q) : Q := float_mul x radToDeg.

(** [get_dir] (lines 152-169).  [atan2] is [math.atan2] on two finite
    floats, the function of the C library.  With a NaN argument
    [math.atan2] and [math.degrees] return NaN, the tests of lines 162
    and 164 are both false, and NaN is returned. *)
Definition get_dir (atan2 : Q -> Q -> Q) (easting northing : pyfloat) : pyfloat :=
  match easting, northing with
  | Number e, Number n =>
      let degout := degrees (atan2 e n) in
      Number (if Qle_bool 0 degout then float_add 180 degout
              else if Qltb degout 0 then (- degout)%Q
                   else degout)
  | _, _ => NaN
  end.

(** [check_degrees] on a sum that may be NaN: [NaN > 360] is false, and
    the NaN sum is returned. *)
Definition check_degrees (x y : pyfloat) : pyfloat :=
  match x, y with
  | Number a, Number b => Number (Geometry.check_degrees a b)
  | _, _ => NaN
  end.

(** [check_cardinality] on a value that may be NaN: [round(NaN, 3)] is
    NaN, which no bin matches. *)
Definition check_cardinality (value : pyfloat) : option string :=
  match value with
  | Number v => Geometry.check_cardinality v
  | NaN => None
  end.

End Floating.

(** *** [get_dir], on the reals: the angle that the floats approximate *)

Section Direction.
Local Open Scope R_scope.

(** [math.atan2(y, x)]: the angle of the point [(x, y)], in
    [(-PI, PI]]; [atan2(0, 0)] is [0]. *)
Definition atan2 (y x : R) : R :=
  if Rlt_dec 0 x then atan (y / x)
  else if Rlt_dec x 0 then
         (if Rle_dec 0 y then atan (y / x) + PI else atan (y / x) - PI)
       else if Rlt_dec 0 y then PI / 2
            else if Rlt_dec y 0 then - (PI / 2) else 0.

(** [math.degrees]. *)
Definition degrees (x : R) : R := x * (180 / PI).

(** [get_dir] (lines 152-169). *)
Definition get_dir (easting northing : R) : R :=
  let degout := degrees (atan2 easting northing) in
  if Rge_dec degout 0 then 180 + degout
  else if Rlt_dec degout 0 then - degout
       else degout.
End Direction.

(** *** Notions for reasoning on the table *)

(** The test of line 142 on an already rounded value, and the scan of
    lines 141-146 over any table. *)
Definition hits (r : Q) (bin : string * (Q * Q)) : bool :=
  Qle_bool (fst (snd bin)) r && Qltb r (snd (snd bin)).

Definition scan (r : Q) (tbl : list (string * (Q * Q))) (acc : option string) : option string :=
  fold_left (fun cardinalDir bin => if hits r bin then Some (bin_label (fst bin)) else cardinalDir)
            tbl acc.

(** [chained lo tbl hi]: the bins of [tbl] are non-empty, each starts
    where the one before ends, and together they run from [lo] to [hi]. *)
Fixpoint chained (lo : Q) (tbl : list (string * (Q * Q))) (hi : Q) : Prop :=
  match tbl with
  | [] => (lo == hi)%Q
  | bin :: rest =>
      (fst (snd bin) == lo)%Q /\ (lo < snd (snd bin))%Q /\ chained (snd (snd bin)) rest hi
  end.

End Geometry.

(** ** [time_convert] *)

Module Timestamp.
Import Num Text Float.
Local Open Scope string_scope.

Record datetime := Datetime {
  year : Z; month : Z; day : Z;
  hour : Z; minute : Z; second : Z; microsecond : Z }.

Definition is_leap (y : Z) : bool :=
  ((y mod 4 =? 0) && (negb (y mod 100 =? 0) || (y mod 400 =? 0)))%Z.

Definition days_in_month (y m : Z) : Z :=
  if (m =? 2)%Z then (if is_leap y then 29 else 28)
  else if ((m =? 4) || (m =? 6) || (m =? 9) || (m =? 11))%Z then 30 else 31.

(** The constructor [datetime(y, m, d, hh, mm, ss, us)]; [None] is its
    [ValueError] for a field out of range. *)
Definition datetime_new (y m d hh mm ss us : Z) : option datetime :=
  if ((1 <=? y) && (y <=? 9999) && (1 <=? m) && (m <=? 12)
      && (1 <=? d) && (d <=? days_in_month y m)
      && (0 <=? hh) && (hh <=? 23) && (0 <=? mm) && (mm <=? 59)
      && (0 <=? ss) && (ss <=? 59) && (0 <=? us) && (us <=? 999999))%Z
  then Some (Datetime y m d hh mm ss us)
  else None.

(** [time_convert] (lines 197-224).  [timestamp] is the float read from
    the spreadsheet.  [str] of the float [day] is its shortest decimal
    and [Decimal] reads that decimal exactly; [str] of a [Decimal] is
    read back by [Decimal] as the same number.  [None] is the
    [ValueError] of [int] or of [datetime]. *)
Definition time_convert (imgname : string) (timestamp : Q) : option datetime :=
  let namesplit := before_first "_" imgname in
  let YYYY := "20" ++ slice 0 2 namesplit in
  let MM := slice 2 4 namesplit in
  let DD := drop 4 namesplit in
  let day := float_div timestamp 86400 in
  let hours := decimal_div (decimal_mul (decimal_mod1 (repr_value day)) 86400) 3600 in
  let minutes := decimal_div (decimal_mul (decimal_mod1 hours) 3600) 60 in
  let seconds := decimal_mul (decimal_mod1 minutes) 60 in
  let msecs := decimal_mul (decimal_mod1 seconds) 10 in
  let hh := truncate hours in
  let mm := truncate minutes in
  let ss := truncate seconds in
  let s := truncate msecs in
  match int_of_string YYYY, int_of_string MM, int_of_string DD with
  | Some y, Some m, Some d => datetime_new y m d hh mm ss (100000 * s)
  | _, _, _ => None
  end.

(** The decomposition of a seconds-since-midnight value [t] that the
    specification describes for [parseCaptureTimestamp]: hour, minute,
    second and microseconds of [t] itself. *)
Definition exact_time_of_day (t : Q) : Z * Z * Z * Z :=
  (Qfloor (t / 3600), Qfloor (Qmod t 3600 / 60), Qfloor (Qmod t 60),
   100000 * Qfloor (10 * Qmod t 1)).

End Timestamp.

(** ** Python values, exceptions and the dictionary monad *)

Module Py.
Import Num Text Float.
Local Open Scope string_scope.

(** The values that travel through the pipeline: what [response.json()]
    returns and what the metadata dictionaries hold.  A [VDict] lists its
    entries in insertion order, with distinct keys. *)
#[local] Set Warnings "-register-all".
Inductive pyval :=
| VNone
| VBool (b : bool)
| VInt (z : Z)
| VFloat (q : Q)
| VStr (s : string)
| VList (items : list pyval)
| VDict (entries : list (string * pyval)).

(** An exception (an instance of a subclass of [Exception]) with its
    [args] tuple. *)
Record exn := Exn { exn_class : string; exn_args : list pyval }.

Inductive result (A : Type) :=
| Ok (a : A)
| Raise (e : exn).
Arguments Ok {A} a.
Arguments Raise {A} e.

Definition KeyError (key : string) : exn := Exn "KeyError" [VStr key].
Definition TypeError (msg : string) : exn := Exn "TypeError" [VStr msg].
Definition ValueError (msg : string) : exn := Exn "ValueError" [VStr msg].
Definition IndexError (msg : string) : exn := Exn "IndexError" [VStr msg].
Definition AttributeError (msg : string) : exn := Exn "AttributeError" [VStr msg].
Definition UnboundLocalError (name : string) : exn :=
  Exn "UnboundLocalError"
      [VStr ("local variable '" ++ name ++ "' referenced before assignment")].

Definition type_name (v : pyval) : string :=
  match v with
  | VNone => "NoneType" | VBool _ => "bool" | VInt _ => "int" | VFloat _ => "float"
  | VStr _ => "str" | VList _ => "list" | VDict _ => "dict"
  end.

(** [repr(v)] and [str(v)].  Text inside a container is written between
    single quotes; escapes are not modelled. *)
Fixpoint py_repr (v : pyval) : string :=
  match v with
  | VNone => "None"
  | VBool b => if b then "True" else "False"
  | VInt z => pretty z
  | VFloat q => float_str q
  | VStr s => "'" ++ s ++ "'"
  | VList items => "[" ++ join ", " (List.map py_repr items) ++ "]"
  | VDict entries =>
      "{" ++ join ", " (List.map (fun kv => "'" ++ fst kv ++ "': " ++ py_repr (snd kv)) entries)
          ++ "}"
  end.

Definition py_str (v : pyval) : string :=
  match v with
  | VStr s => s
  | _ => py_repr v
  end.

Fixpoint assoc (key : string) (entries : list (string * pyval)) : option pyval :=
  match entries with
  | [] => None
  | (k, v) :: rest => if String.eqb k key then Some v else assoc key rest
  end.

(** [v[key]] for a text key. *)
Definition subscript (v : pyval) (key : string) : result pyval :=
  match v with
  | VDict entries =>
      match assoc key entries with
      | Some x => Ok x
      | None => Raise (KeyError key)
      end
  | VList _ => Raise (TypeError "list indices must be integers or slices, not str")
  | VStr _ => Raise (TypeError "string indices must be integers")
  | _ => Raise (TypeError ("'" ++ type_name v ++ "' object is not subscriptable"))
  end.

(** [v[0]]. *)
Definition first_item (v : pyval) : result pyval :=
  match v with
  | VList (x :: _) => Ok x
  | VList [] => Raise (IndexError "list index out of range")
  | VStr (String c _) => Ok (VStr (String c ""))
  | VStr "" => Raise (IndexError "string index out of range")
  | VDict _ => Raise (Exn "KeyError" [VInt 0])
  | _ => Raise (TypeError ("'" ++ type_name v ++ "' object is not subscriptable"))
  end.

(** [key in v] for a text key. *)
Definition contains (key : string) (v : pyval) : result bool :=
  match v with
  | VDict entries => Ok (match assoc key entries with Some _ => true | None => false end)
  | VList items =>
      Ok (existsb (fun x => match x with VStr s => String.eqb s key | _ => false end) items)
  | VStr s => Ok (Text.contains key s)
  | _ => Raise (TypeError ("argument of type '" ++ type_name v ++ "' is not iterable"))
  end.

(** Truth value of [v] in an [if]. *)
Definition truthy (v : pyval) : bool :=
  match v with
  | VNone => false
  | VBool b => b
  | VInt z => negb (z =? 0)%Z
  | VFloat q => negb (Qeq_bool q 0)
  | VStr s => negb (String.eqb s "")
  | VList items => match items with [] => false | _ => true end
  | VDict entries => match entries with [] => false | _ => true end
  end.

Definition len (v : pyval) : result nat :=
  match v with
  | VStr s => Ok (String.length s)
  | VList items => Ok (List.length items)
  | VDict entries => Ok (List.length entries)
  | _ => Raise (TypeError ("object of type '" ++ type_name v ++ "' has no len()"))
  end.

Fixpoint chars (s : string) : list pyval :=
  match s with
  | "" => []
  | String c rest => VStr (String c "") :: chars rest
  end.

(** The items a [for] loop over [v] visits. *)
Definition iter (v : pyval) : result (list pyval) :=
  match v with
  | VList items => Ok items
  | VDict entries => Ok (List.map (fun kv => VStr (fst kv)) entries)
  | VStr s => Ok (chars s)
  | _ => Raise (TypeError ("'" ++ type_name v ++ "' object is not iterable"))
  end.

(** The number a value stands for in arithmetic ([bool] is an [int]). *)
Definition number (v : pyval) : option Q :=
  match v with
  | VBool b => Some (if b then 1 else 0)%Q
  | VInt z => Some (inject_Z z)
  | VFloat q => Some q
  | _ => None
  end.

(** The float that a number is as an operand of a float operation: an
    [int] is converted, which rounds it.  An [int] beyond the range of
    the floats (an [OverflowError]) is outside the model. *)
Definition operand (v : pyval) : option Q :=
  match v with
  | VBool b => Some (if b then 1 else 0)%Q
  | VInt z => Some (float_of_Q (inject_Z z))
  | VFloat q => Some q
  | _ => None
  end.

(** [a + (b / 2)], both operands already evaluated: the division is
    Python's true division, which rounds the exact quotient to a float,
    and the sum is a float addition. *)
Definition plus_half (a b : pyval) : result Q :=
  match number b with
  | None => Raise (TypeError ("unsupported operand type(s) for /: '"
                                ++ type_name b ++ "' and 'int'"))
  | Some qb =>
      match operand a with
      | None => Raise (TypeError ("unsupported operand type(s) for +: '"
                                    ++ type_name a ++ "' and 'float'"))
      | Some qa => Ok (float_add qa (float_div qb 2))
      end
  end.

(** [float(v)]. *)
Definition py_float (v : pyval) : result Q :=
  match v with
  | VStr s =>
      match float_of_string s with
      | Some q => Ok q
      | None => Raise (ValueError ("could not convert string to float: '" ++ s ++ "'"))
      end
  | VBool _ | VInt _ | VFloat _ =>
      match operand v with Some q => Ok q | None => Ok 0%Q end
  | _ => Raise (TypeError ("float() argument must be a string or a number, not '"
                             ++ type_name v ++ "'"))
  end.

(** [int(v)]. *)
Definition py_int (v : pyval) : result Z :=
  match v with
  | VStr s =>
      match int_of_string s with
      | Some z => Ok z
      | None => Raise (ValueError ("invalid literal for int() with base 10: '" ++ s ++ "'"))
      end
  | VBool b => Ok (if b then 1 else 0)
  | VInt z => Ok z
  | VFloat q => Ok (truncate q)
  | _ => Raise (TypeError ("int() argument must be a string, a bytes-like object or a number, not '"
                             ++ type_name v ++ "'"))
  end.

(** [sep.join(v)]: every item must be text. *)
Fixpoint texts (items : list pyval) (index : nat) : result (list string) :=
  match items with
  | [] => Ok []
  | VStr s :: rest =>
      match texts rest (S index) with
      | Ok l => Ok (s :: l)
      | Raise e => Raise e
      end
  | x :: _ => Raise (TypeError ("sequence item " ++ pretty index ++ ": expected str instance, "
                                  ++ type_name x ++ " found"))
  end.

Definition py_join (sep : string) (v : pyval) : result string :=
  match iter v with
  | Raise _ => Raise (TypeError "can only join an iterable")
  | Ok items =>
      match texts items 0 with
      | Ok l => Ok (join sep l)
      | Raise e => Raise e
      end
  end.

(** *** The dictionary monad

    A computation of [W A] runs on one mutable dictionary (the object
    that [metaString] and [cmeta] both name): it raises, or returns a
    value, the dictionary as it left it, and the keys it assigned, in
    order. *)
Definition W (A : Type) : Type :=
  gmap string pyval -> result (A * gmap string pyval * list string).

Definition ret {A} (a : A) : W A := fun d => Ok (a, d, []).

Definition bind {A B} (c : W A) (f : A -> W B) : W B :=
  fun d =>
    match c d with
    | Raise e => Raise e
    | Ok (a, d', ws) =>
        match f a d' with
        | Raise e => Raise e
        | Ok (b, d'', ws') => Ok (b, d'', (ws ++ ws')%list)
        end
    end.

Definition raise {A} (e : exn) : W A := fun _ => Raise e.

Definition lift {A} (r : result A) : W A :=
  fun d => match r with Ok a => Ok (a, d, []) | Raise e => Raise e end.

(** [d[key] = v]. *)
Definition assign (key : string) (v : pyval) : W unit :=
  fun d => Ok (tt, <[key := v]> d, [key]).

(** [d[key]]. *)
Definition lookup (key : string) : W pyval :=
  fun d => match d !! key with
           | Some v => Ok (v, d, [])
           | None => Raise (KeyError key)
           end.

(** [key in d]. *)
Definition has_key (key : string) : W bool :=
  fun d => Ok (match d !! key with Some _ => true | None => false end, d, []).

(** The dictionary as it is now. *)
Definition snapshot : W (gmap string pyval) := fun d => Ok (d, d, []).

Definition when (b : bool) (c : W unit) : W unit := if b then c else ret tt.

Fixpoint for_each {A} (items : list A) (body : A -> W unit) : W unit :=
  match items with
  | [] => ret tt
  | x :: rest => bind (body x) (fun _ => for_each rest body)
  end.

(** [enumerate(items)]. *)
Definition enumerate {A} (items : list A) : list (nat * A) :=
  combine (seq 0 (List.length items)) items.

(** [range(start, stop, step)] for a positive [step]. *)
Definition range (start stop step : Z) : list Z :=
  List.map (fun n => start + Z.of_nat n * step)
           (seq 0 (Z.to_nat ((stop - start + step - 1) / step))).

(** ['...{}'.format(n)] for a count. *)
Definition fmt (prefix : string) (n : nat) (suffix : string) : string :=
  prefix ++ pretty n ++ suffix.

(** [sound P c]: when [c] returns, every key it reports as assigned
    satisfies [P] and is in the dictionary, the other keys are as they
    were, and no key was removed. *)
Definition sound (P : string -> Prop) {A} (c : W A) : Prop :=
  forall d a d' ws,
    c d = Ok (a, d', ws) ->
    Forall P ws
    /\ (forall k, k ∉ ws -> d' !! k = d !! k)
    /\ (forall k, k ∈ ws -> is_Some (d' !! k))
    /\ (forall k, is_Some (d !! k) -> is_Some (d' !! k)).

End Py.

Declare Scope py_scope.
Delimit Scope py_scope with py.
Notation "'let!' x ':=' c 'in' k" := (Py.bind c (fun x => k))
(at level 10, x name, c at level 100, k at level 200) : py_scope.
Notation "c ';;;' k" := (Py.bind c (fun _ => k))
(at level 100, k at level 200, right associativity) : py_scope.

(** ** 4.2 and 4.3: the two pipeline stages *)

Module Pipeline.
Import Num Text Float Geometry Py.
Local Open Scope string_scope.
Local Open Scope py_scope.

(** Images and encoded images are opaque to the pipeline. *)
Definition image := string.
Definition bytes := string.
Definition crop_box : Type := Z * Z * Z * Z.

(** One entry of [get_object_bounds]: the label and the four vertices. *)
Record bound := Bound {
  bound_object : pyval;
  bound_x : pyval; bound_y : pyval; bound_w : pyval; bound_h : pyval }.

(** The collaborators (section 6 of the specification): the blob store,
    the imaging library and the vision service, each call either
    returning or raising.  [analyze] is [requests.post] on the
    [analyze] endpoint followed by [raise_for_status] and [json]. *)
Record services := Services {
  exists_container : string -> result bool;
  set_container_acl : string -> string -> result unit;
  list_blobs : string -> result (list string);
  get_blob_metadata : string -> string -> result (gmap string string);
  get_blob_to_bytes : string -> string -> result bytes;
  create_blob_from_bytes :
    string -> string -> bytes -> gmap string string -> result unit;
  image_open : bytes -> result image;
  crop : image -> crop_box -> result image;
  save_jpeg : image -> result bytes;
  draw_boxes : image -> list bound -> result image;
  analyze : bytes -> result pyval }.

Record blob := Blob { blob_name : string }.

(** The attributes of [self] that the stages read. *)
Record config := Config { blobBaseUrl : string }.

(** [get_object_bounds] (lines 288-311), reading the dictionary it is
    given. *)
Definition object_bound (i : nat) : W bound :=
  let! o := lookup (fmt "Object_" (i + 1) "") in
  let! x := lookup (fmt "x" (i + 1) "") in
  let! y := lookup (fmt "y" (i + 1) "") in
  let! w := lookup (fmt "w" (i + 1) "") in
  let! h := lookup (fmt "h" (i + 1) "") in
  ret (Bound o x y w h).

Fixpoint object_bounds (indices : list nat) : W (list bound) :=
  match indices with
  | [] => ret []
  | i :: rest =>
      let! b := object_bound i in
      let! bs := object_bounds rest in
      ret (b :: bs)
  end.

Definition get_object_bounds : W (list bound) :=
  let! nobj := lookup "Number_of_Objects" in
  match nobj with
  | VInt n => object_bounds (seq 0 (Z.to_nat n))
  | VBool b => object_bounds (seq 0 (if b then 1 else 0))
  | _ => raise (TypeError ("'" ++ type_name nobj
                             ++ "' object cannot be interpreted as an integer"))
  end.

(** *** Enrichment: lines 500-574, one block per [if] of the source *)

Definition merge_caption (responsejson : pyval) : W unit :=
  let! description := lift (subscript responsejson "description") in
  let! present := lift (contains "captions" description) in
  when present (
    let! captions := lift (subscript description "captions") in
    when (truthy captions) (
      let! first := lift (first_item captions) in
      let! text := lift (subscript first "text") in
      assign "Caption" text ;;;
      let! first := lift (first_item captions) in
      let! confidence := lift (subscript first "confidence") in
      assign "Caption_Confidence" confidence)).

Definition merge_metadata (responsejson : pyval) : W unit :=
  let! present := lift (contains "metadata" responsejson) in
  when present (
    let! metadata := lift (subscript responsejson "metadata") in
    let! width := lift (subscript metadata "width") in
    assign "Image_Width" width ;;;
    let! height := lift (subscript metadata "height") in
    assign "Image_Height" height ;;;
    let! format := lift (subscript metadata "format") in
    assign "Image Format" format).

Definition merge_image_type (responsejson : pyval) : W unit :=
  let! present := lift (contains "imageType" responsejson) in
  when present (
    let! imageType := lift (subscript responsejson "imageType") in
    let! clip := lift (subscript imageType "clipArtType") in
    assign "Clip_Art_Type" clip ;;;
    let! line := lift (subscript imageType "lineDrawingType") in
    assign "Line_Drawing_Type" line).

Definition merge_color (responsejson : pyval) : W unit :=
  let! present := lift (contains "color" responsejson) in
  when present (
    let! color := lift (subscript responsejson "color") in
    let! fg := lift (subscript color "dominantColorForeground") in
    assign "Dominant_Color_Foreground" fg ;;;
    let! bg := lift (subscript color "dominantColorBackground") in
    assign "Dominant_Color_Background" bg ;;;
    let! dominantColors := lift (subscript color "dominantColors") in
    let! n := lift (len dominantColors) in
    if (1 <? n)%nat then
      let! joined := lift (py_join "," dominantColors) in
      assign "Dominant_Colors" (VStr joined)
    else if (n =? 1)%nat then
      let! only := lift (first_item dominantColors) in
      assign "Dominant_Colors" only
    else
      match dominantColors with
      | VNone => assign "Dominant_Colors" (VStr "")
      | _ => ret tt
      end).

(** The inner loops of lines 523-526 and 530-533: every key [cat] of the
    entry [obj] becomes the field [prefix_Cat_n]. *)
Definition merge_entry (prefix : string) (n : nat) (obj : pyval) : W unit :=
  let! keys := lift (iter obj) in
  for_each keys (fun cat =>
    match cat with
    | VStr c =>
        let name := prefix ++ "_" ++ capitalize c ++ "_" ++ pretty (n + 1)%nat in
        let! v := lift (subscript obj c) in
        assign name v
    | _ => raise (AttributeError ("'" ++ type_name cat
                                    ++ "' object has no attribute 'capitalize'"))
    end).

Definition merge_indexed (field count prefix : string) (responsejson : pyval) : W unit :=
  let! present := lift (contains field responsejson) in
  when present (
    let! entries := lift (subscript responsejson field) in
    let! n := lift (len entries) in
    assign count (VInt (Z.of_nat n)) ;;;
    let! items := lift (iter entries) in
    for_each (enumerate items) (fun '(i, obj) => merge_entry prefix i obj)).

Definition merge_description_tags (responsejson : pyval) : W unit :=
  let! description := lift (subscript responsejson "description") in
  let! present := lift (contains "tags" description) in
  when present (
    let! tags := lift (subscript description "tags") in
    let! joined := lift (py_join "," tags) in
    assign "Description_Tags" (VStr joined)).

(** Lines 561-562 and their three repetitions: level [k] of the parent
    chain of object [n]. *)
Definition merge_parent (n k : nat) (p : pyval) : W unit :=
  let! o := lift (subscript p "object") in
  assign ("Object_" ++ pretty n ++ "_Parent_" ++ pretty k) o ;;;
  let! c := lift (subscript p "confidence") in
  assign ("Object_" ++ pretty n ++ "_Parent_" ++ pretty k ++ "_Confidence") c.

(** Lines 554-574. *)
Definition merge_parents (n : nat) (obj : pyval) : W unit :=
  let! present := lift (contains "parent" obj) in
  when present (
    let! p1 := lift (subscript obj "parent") in
    let! lpar := lift (len p1) in
    if (lpar =? 0)%nat then ret tt
    else
      merge_parent n 1 p1 ;;;
      let! deeper := lift (contains "parent" p1) in
      when deeper (
        let! p2 := lift (subscript p1 "parent") in
        merge_parent n 2 p2 ;;;
        let! deeper := lift (contains "parent" p2) in
        when deeper (
          let! p3 := lift (subscript p2 "parent") in
          merge_parent n 3 p3 ;;;
          let! deeper := lift (contains "parent" p3) in
          when deeper (
            let! p4 := lift (subscript p3 "parent") in
            merge_parent n 4 p4)))).

(** Lines 540-574: one detected object, [nobj] counted from 0. *)
Definition merge_object (nobj : nat) (obj : pyval) : W unit :=
  let n := (nobj + 1)%nat in
  let! rectangle := lift (subscript obj "rectangle") in
  let! x := lift (subscript rectangle "x") in
  let! w := lift (subscript rectangle "w") in
  let! centerX := lift (plus_half x w) in
  let! y := lift (subscript rectangle "y") in
  let! h := lift (subscript rectangle "h") in
  let! centerY := lift (plus_half y h) in
  let centerDir := float_add 22.5 (float_mul centerX (float_of_Q 0.045)) in
  let! label := lift (subscript obj "object") in
  assign (fmt "Object_" n "") label ;;;
  let! confidence := lift (subscript obj "confidence") in
  assign (fmt "Object_" n "_Confidence") confidence ;;;
  assign (fmt "Object_" n "_Direction") (VFloat centerDir) ;;;
  assign (fmt "Object_" n "_Longitude") (VFloat 0.00) ;;;
  assign (fmt "Object_" n "_Latitude") (VFloat 0.00) ;;;
  assign (fmt "x" n "") x ;;;
  assign (fmt "y" n "") y ;;;
  assign (fmt "w" n "") w ;;;
  assign (fmt "h" n "") h ;;;
  assign (fmt "Center_x" n "") (VFloat centerX) ;;;
  assign (fmt "Center_y" n "") (VFloat centerY) ;;;
  merge_parents n obj.

Definition merge_objects (responsejson : pyval) : W unit :=
  let! present := lift (contains "objects" responsejson) in
  when present (
    let! objects := lift (subscript responsejson "objects") in
    let! lobj := lift (len objects) in
    assign "Number_of_Objects" (VInt (Z.of_nat lobj)) ;;;
    let! items := lift (iter objects) in
    for_each (enumerate items) (fun '(nobj, obj) => merge_object nobj obj)).

Definition enrich (responsejson : pyval) : W unit :=
  merge_caption responsejson ;;;
  merge_metadata responsejson ;;;
  merge_image_type responsejson ;;;
  merge_color responsejson ;;;
  merge_indexed "categories" "Number_of_Categories" "Category" responsejson ;;;
  merge_indexed "tags" "Number_of_Tags" "Tag" responsejson ;;;
  merge_description_tags responsejson ;;;
  merge_objects responsejson.

(** *** [process_cardinal_images] (lines 438-595) *)

(** What one iteration of the slice loop hands to the store, with the
    crop box it used and the keys it assigned in the dictionary. *)
Record slice := Slice {
  slice_area : crop_box;
  slice_container : string;
  slice_name : string;
  slice_blob : bytes;
  slice_metadata : gmap string string;
  slice_assigned : list string }.

Definition fields : list string :=
  [ "Direction"; "Longitude"; "Latitude"; "Altitude"; "Origin_Easting"; "Origin_Northing";
    "Origin_Height"; "Direction_Easting"; "Direction_Northing"; "Direction_Height";
    "Up_Easting"; "Up_Northing"; "Up_Height"; "Roll"; "Pitch"; "Yaw"; "Omega"; "Phi"; "Kappa" ].

(** Lines 469-473. *)
Definition step : Z := 1000.
Definition areas : list crop_box :=
  List.map (fun i => (i, 1550, i + step, 2550)) (range 0 8000 step).

(** Lines 460-466: the 19 fields become floats, then the photosphere is
    fetched and opened. *)
Definition prepare (svc : services) (containerIn imageName : string) : W image :=
  for_each fields (fun field =>
    let! v := lookup field in
    let! q := lift (py_float v) in
    assign field (VFloat q)) ;;;
  let! content := lift (get_blob_to_bytes svc containerIn imageName) in
  lift (image_open svc content).

(** Lines 477-591: the body of the slice loop.  [cmeta = metaString]
    makes [cmeta] one more name of the dictionary the computation runs
    on; nothing is copied. *)
Definition cardinal_slice (svc : services) (cfg : config)
    (imageName containerOut : string) (img : image) (ncard : nat) (area : crop_box)
  : W (crop_box * string * string * bytes * gmap string string) :=
  let! cardinalImg := lift (crop svc img area) in
  let! cardinalArray := lift (save_jpeg svc cardinalImg) in
  let! direction := lookup "Direction" in
  let! base :=
    match operand direction with
    | Some q => ret q
    | None => raise (TypeError ("unsupported operand type(s) for +: '"
                                  ++ type_name direction ++ "' and 'float'"))
    end in
  let cardinalDir := check_degrees base 22.5 in
  let cardinalDir := check_degrees cardinalDir (float_mul (inject_Z (Z.of_nat ncard)) 45.0) in
  let! cardinalLabel :=
    match check_cardinality cardinalDir with
    | Some l => ret l
    | None => raise (UnboundLocalError "cardinalDir")
    end in
  let cardinalImgName :=
    before_first ".jpg" imageName ++ "_" ++ pretty (ncard + 1)%nat ++ "_"
                 ++ cardinalLabel ++ ".jpg" in
  assign "Cardinal_Image_Name" (VStr cardinalImgName) ;;;
  assign "Cardinal_Image_URL"
         (VStr (blobBaseUrl cfg ++ "/" ++ containerOut ++ "/" ++ cardinalImgName)) ;;;
  assign "Cardinal_Number" (VInt (Z.of_nat (ncard + 1))) ;;;
  assign "Cardinal_Direction" (VFloat cardinalDir) ;;;
  assign "Cardinal_Direction_Label" (VStr cardinalLabel) ;;;
  let! responsejson := lift (analyze svc cardinalArray) in
  enrich responsejson ;;;
  let! bounds := get_object_bounds in
  let! taggedImg := lift (draw_boxes svc cardinalImg bounds) in
  let! taggedArray := lift (save_jpeg svc taggedImg) in
  let! cmeta := snapshot in
  let cardinalMetaBlob := py_str <$> cmeta in
  lift (create_blob_from_bytes svc containerOut cardinalImgName taggedArray cardinalMetaBlob) ;;;
  ret (area, containerOut, cardinalImgName, taggedArray, cardinalMetaBlob).

(** The [for ncard, area in enumerate(areas)] loop: each iteration runs
    on the dictionary the previous one left, and the slices stored before
    an exception stay stored. *)
Fixpoint cardinal_loop
    (body : nat -> crop_box -> W (crop_box * string * string * bytes * gmap string string))
    (todo : list (nat * crop_box)) (metaString : gmap string pyval) (stored : list slice)
  : list slice * result unit :=
  match todo with
  | [] => (stored, Ok tt)
  | (ncard, area) :: rest =>
      match body ncard area metaString with
      | Raise e => (stored, Raise e)
      | Ok ((a, c, n, b, m), metaString', assigned) =>
          cardinal_loop body rest metaString' (stored ++ [Slice a c n b m assigned])
      end
  end.

(** A finished call: the slices it stored, what it printed, and whether
    it returned or let an exception out. *)
Record run (A : Type) := Run {
  stored : list slice;
  printed : list pyval;
  outcome : result A }.
Arguments Run {A}.
Arguments stored {A}.
Arguments printed {A}.
Arguments outcome {A}.

(** Lines 593-595 and 655-657: [except Exception as ex:
    print(ex.args[0])], after which the function returns [None]. *)
Definition handler {A} (slices : list slice) (out : list pyval) (ex : exn)
  : run (option A) :=
  match exn_args ex with
  | message :: _ => Run slices (out ++ [message]) (Ok None)
  | [] => Run slices out (Raise (IndexError "tuple index out of range"))
  end.

(** Lines 453-595.  The test [get_blob_metadata(...) is not {}] compares
    the identity of two objects and always holds; what it costs is a first
    call to the store, which may raise. *)
Definition process_cardinal_images (svc : services) (cfg : config)
    (b : blob) (containerIn containerOut : string) : run (option unit) :=
  let imageName := blob_name b in
  let body : list slice * result unit :=
    match get_blob_metadata svc containerIn imageName with
    | Raise e => ([], Raise e)
    | Ok _ =>
        match get_blob_metadata svc containerIn imageName with
        | Raise e => ([], Raise e)
        | Ok stored_metadata =>
            match prepare svc containerIn imageName (VStr <$> stored_metadata) with
            | Raise e => ([], Raise e)
            | Ok (img, metaString, _) =>
                cardinal_loop (cardinal_slice svc cfg imageName containerOut img)
                              (enumerate areas) metaString []
            end
        end
    end in
  match body with
  | (slices, Ok _) => Run slices [] (Ok None)
  | (slices, Raise ex) => handler slices [] ex
  end.

(** The batch of [ML_Vision_Photospheres.py]: [for blob in
    tqdm(blobList): az.process_cardinal_images(blob, ...)].  An
    exception that leaves a call ends the loop. *)
Fixpoint process_batch (svc : services) (cfg : config) (blobList : list blob)
    (containerIn containerOut : string) : list (run (option unit)) :=
  match blobList with
  | [] => []
  | b :: rest =>
      let r := process_cardinal_images svc cfg b containerIn containerOut in
      match outcome r with
      | Ok _ => r :: process_batch svc cfg rest containerIn containerOut
      | Raise _ => [r]
      end
  end.

(** *** [create_geojson_from_cardinals] (lines 600-657) *)

Definition fieldsFloat : list string :=
  fields ++ [ "Cardinal_Direction"; "Caption_Confidence" ].

Definition fieldsInt : list string :=
  [ "Cardinal_Number"; "Image_Width"; "Image_Height"; "Number_of_Categories";
    "Number_of_Tags"; "Number_of_Objects" ].

Definition cast_float (key : string) : W unit :=
  let! v := lookup key in
  let! q := lift (py_float v) in
  assign key (VFloat q).

Definition cast_int (key : string) : W unit :=
  let! v := lookup key in
  let! z := lift (py_int v) in
  assign key (VInt z).

(** [metaString[count] >= 1] and [range(1, metaString[count] + 1)]: the
    indices of the loop, none when the count is below 1. *)
Definition counted (count : string) : W (list nat) :=
  let! v := lookup count in
  match v with
  | VInt n => ret (List.map S (seq 0 (Z.to_nat n)))
  | VBool b => ret (if b then [1%nat] else [])
  | VFloat q =>
      if Qle_bool 1 q
      then raise (TypeError "'float' object cannot be interpreted as an integer")
      else ret []
  | _ => raise (TypeError ("'>=' not supported between instances of '"
                             ++ type_name v ++ "' and 'int'"))
  end.

(** Lines 621-648: the type restoration of one record. *)
Definition restore : W unit :=
  for_each fieldsFloat (fun fieldFloat =>
    let! present := has_key fieldFloat in
    when present (cast_float fieldFloat)) ;;;
  for_each fieldsInt (fun fieldInt =>
    let! present := has_key fieldInt in
    when present (cast_int fieldInt)) ;;;
  let! categories := counted "Number_of_Categories" in
  for_each categories (fun i => cast_float (fmt "Category_Score_" i "")) ;;;
  let! tags := counted "Number_of_Tags" in
  for_each tags (fun j => cast_float (fmt "Tag_Confidence_" j "")) ;;;
  let! objects := counted "Number_of_Objects" in
  for_each objects (fun k =>
    cast_float (fmt "Object_" k "_Confidence") ;;;
    cast_float (fmt "Object_" k "_Direction") ;;;
    assign (fmt "Object_" k "_Longitude") (VFloat 0.0) ;;;
    assign (fmt "Object_" k "_Latitude") (VFloat 0.0) ;;;
    cast_int (fmt "x" k "") ;;;
    cast_int (fmt "y" k "") ;;;
    cast_int (fmt "w" k "") ;;;
    cast_int (fmt "h" k "") ;;;
    cast_float (fmt "Center_x" k "") ;;;
    cast_float (fmt "Center_y" k "")).

(** [geojson.Point] on a pair, [geojson.Feature], and
    [geojson.FeatureCollection]. *)
Record feature := Feature {
  geometry : pyval * pyval;
  properties : gmap string pyval }.

Definition FeatureCollection : Type := list feature.

(** Lines 618-652: the feature of one blob.  As in the enrichment stage
    the test [... is not {}] always holds, after a first call to the
    store. *)
Definition feature_of (svc : services) (container name : string) : result feature :=
  match get_blob_metadata svc container name with
  | Raise e => Raise e
  | Ok _ =>
      match get_blob_metadata svc container name with
      | Raise e => Raise e
      | Ok stored_metadata =>
          match (restore ;;;
                 let! lon := lookup "Longitude" in
                 let! lat := lookup "Latitude" in
                 ret (lon, lat)) (VStr <$> stored_metadata) with
          | Raise e => Raise e
          | Ok (gpoint, metaString, _) => Ok (Feature gpoint metaString)
          end
      end
  end.

Fixpoint features_of (svc : services) (container : string) (names : list string)
    (featList : list feature) : result (list feature) :=
  match names with
  | [] => Ok featList
  | name :: rest =>
      match feature_of svc container name with
      | Raise e => Raise e
      | Ok gfeature => features_of svc container rest (featList ++ [gfeature])
      end
  end.

(** [check_blob_container(container)] (lines 227-251) with the default
    [create=False] and [publicAccess='blob']: what it prints, or the
    exception of a store call. *)
Definition check_blob_container (svc : services) (containerName : string)
  : result (list pyval) :=
  match exists_container svc containerName with
  | Raise e => Raise e
  | Ok true =>
      match set_container_acl svc containerName "blob" with
      | Raise e => Raise e
      | Ok _ => Ok [VStr ("Container " ++ containerName
                            ++ " exists. Public Access is set to blob")]
      end
  | Ok false =>
      Ok [VStr "Container did not exist. No changes are requested. Program exits."]
  end.

Definition create_geojson_from_cardinals (svc : services) (container : string)
  : run (option FeatureCollection) :=
  match check_blob_container svc container with
  | Raise ex => handler [] [] ex
  | Ok out =>
      match list_blobs svc container with
      | Raise ex => handler [] out ex
      | Ok blobList =>
          match features_of svc container blobList [] with
          | Raise ex => handler [] out ex
          | Ok featList => Run [] out (Ok (Some featList))
          end
      end
  end.

(** *** Notions for reasoning on the stages *)

(** The keys the enrichment never assigns. *)
Definition spared (k : string) : Prop :=
  negb (String.eqb k "Direction") && negb (String.eqb k "Cardinal_Direction") = true.

Definition not_Direction (k : string) : Prop := String.eqb k "Direction" = false.

(** [steps body d todo slices]: [slices] are the slices of consecutive
    returning iterations of the loop over [todo], the first run on the
    dictionary [d] and each next one on the dictionary the one before it
    left. *)
Inductive steps (body : nat -> crop_box -> W (crop_box * string * string * bytes * gmap string string))
  : gmap string pyval -> list (nat * crop_box) -> list slice -> Prop :=
| steps_done d todo : steps body d todo []
| steps_next d ncard area todo a c n b m d' ws rest :
    body ncard area d = Ok ((a, c, n, b, m), d', ws) ->
    steps body d' todo rest ->
    steps body d ((ncard, area) :: todo) (Slice a c n b m ws :: rest).

End Pipeline.

(** ** A worked batch, for the concrete runs of Part II *)

Module Sample.
Import Py Pipeline.
Local Open Scope string_scope.

(** The metadata [update_blob_metadata] stored for a photosphere looking
    along direction 0: every numeric field is the text "0.0". *)
Definition photosphere_metadata : gmap string string :=
  list_to_map (("Photosphere_Image_Name", "181204_182503563.jpg")
                 :: List.map (fun field => (field, "0.0")) fields).

(** A detected object with one level of parent. *)
Definition car : pyval :=
  VDict [ ("rectangle", VDict [ ("x", VInt 10); ("y", VInt 20); ("w", VInt 30); ("h", VInt 40) ]);
          ("object", VStr "car"); ("confidence", VFloat 0.5);
          ("parent", VDict [ ("object", VStr "vehicle"); ("confidence", VFloat 0.75) ]) ].

(** A response of the vision service with [n] objects, two tags and one
    category. *)
Definition response (n : nat) : pyval :=
  VDict [ ("description",
           VDict [ ("tags", VList [ VStr "road"; VStr "sky" ]);
                   ("captions", VList [ VDict [ ("text", VStr "a road");
                                                ("confidence", VFloat 0.25) ] ]) ]);
          ("metadata", VDict [ ("width", VInt 1000); ("height", VInt 1000);
                               ("format", VStr "Jpeg") ]);
          ("categories", VList [ VDict [ ("name", VStr "outdoor_road"); ("score", VFloat 0.5) ] ]);
          ("tags", VList [ VDict [ ("name", VStr "road"); ("confidence", VFloat 0.5) ];
                           VDict [ ("name", VStr "sky"); ("confidence", VFloat 0.25) ] ]);
          ("objects", VList (repeat car n)) ].

(** Collaborators that never fail.  A cropped image is named after the
    left edge of its box, and the vision service sees two objects in the
    first slice and one in every other. *)
Definition healthy : services :=
  {| exists_container := fun _ => Ok true;
     set_container_acl := fun _ _ => Ok tt;
     list_blobs := fun _ => Ok [ "181204_182503563_1_NNE.jpg" ];
     get_blob_metadata := fun _ _ => Ok photosphere_metadata;
     get_blob_to_bytes := fun _ _ => Ok "photosphere";
     create_blob_from_bytes := fun _ _ _ _ => Ok tt;
     image_open := fun content => Ok content;
     crop := fun img box => Ok (img ++ "@" ++ pretty (fst (fst (fst box))));
     save_jpeg := fun img => Ok img;
     draw_boxes := fun img _ => Ok img;
     analyze := fun data => Ok (response (if String.eqb data "photosphere@0" then 2 else 1)) |}.

(** The same collaborators, except that decoding the photosphere runs
    out of memory: [MemoryError()], whose [args] is the empty tuple. *)
Definition out_of_memory : services :=
  {| exists_container := exists_container healthy;
     set_container_acl := set_container_acl healthy;
     list_blobs := list_blobs healthy;
     get_blob_metadata := get_blob_metadata healthy;
     get_blob_to_bytes := get_blob_to_bytes healthy;
     create_blob_from_bytes := create_blob_from_bytes healthy;
     image_open := fun _ => Raise (Exn "MemoryError" []);
     crop := crop healthy;
     save_jpeg := save_jpeg healthy;
     draw_boxes := draw_boxes healthy;
     analyze := analyze healthy |}.

(** The same collaborators, except that the vision service answers
    with an HTTP error. *)
Definition service_down : services :=
  {| exists_container := exists_container healthy;
     set_container_acl := set_container_acl healthy;
     list_blobs := list_blobs healthy;
     get_blob_metadata := get_blob_metadata healthy;
     get_blob_to_bytes := get_blob_to_bytes healthy;
     create_blob_from_bytes := create_blob_from_bytes healthy;
     image_open := image_open healthy;
     crop := crop healthy;
     save_jpeg := save_jpeg healthy;
     draw_boxes := draw_boxes healthy;
     analyze := fun _ => Raise (Exn "HTTPError" [ VStr "503 Server Error" ]) |}.

Definition cfg : config := Config "https://azmlstorageblob.blob.core.windows.net".
Definition photosphere : blob := Blob "181204_182503563.jpg".

(** The enrichment stage on the healthy collaborators, and the slice it
    stored at position [n]. *)
Definition healthy_run : run (option unit) :=
  process_cardinal_images healthy cfg photosphere "photospheres" "cardinal".

Definition no_slice : slice := Slice (0, 0, 0, 0) "" "" "" ∅ [].

Definition stored_slice (n : nat) : slice := nth n (stored healthy_run) no_slice.

(** The record of the first slice, as persisted. *)
Definition first_record : gmap string string := slice_metadata (stored_slice 0).

(** The dictionary the first slice was persisted from. *)
Definition first_cmeta : gmap string pyval :=
  match prepare healthy "photospheres" "181204_182503563.jpg" (VStr <$> photosphere_metadata) with
  | Ok (img, metaString, _) =>
      match cardinal_slice healthy cfg "181204_182503563.jpg" "cardinal" img 0
                           (0, 1550, 1000, 2550) metaString with
      | Ok (_, cmeta, _) => cmeta
      | Raise _ => ∅
      end
  | Raise _ => ∅
  end.


(** The field [key] of [first_record] after the type restoration of the
    aggregation stage. *)
Definition restored_field (key : string) : result (option pyval) :=
  match restore (VStr <$> first_record) with
  | Ok (_, metaString, _) => Ok (metaString !! key)
  | Raise e => Raise e
  end.

End Sample.

(** ** Notions for the further properties of Part II *)

Module Notions.
Import Text Py Pipeline.
Local Open Scope string_scope.
Local Open Scope py_scope.

(** Text made of decimal digits only, as [str] writes a count. *)
Fixpoint all_digits (s : string) : bool :=
  match s with
  | EmptyString => true
  | String c rest => is_digit c && all_digits rest
  end.

(** [among keys k]: [k in keys]. *)
Definition among (keys : list string) (k : string) : bool := existsb (String.eqb k) keys.

(** The fields a slice inherits from its photosphere: keys that no
    iteration of the slice loop assigns. *)
Definition inherited (k : string) : Prop :=
  negb (existsb (String.eqb k) ("Photosphere_Image_Name" :: fields)) = true.

(** The keys the enrichment of lines 493-574 may assign: not an inherited
    field and not one of the five [Cardinal_] fields of lines 487-491. *)
Definition detected (k : string) : Prop :=
  negb (existsb (String.eqb k)
          ("Cardinal_Image_Name" :: "Cardinal_Image_URL" :: "Cardinal_Number"
             :: "Cardinal_Direction" :: "Cardinal_Direction_Label"
             :: "Photosphere_Image_Name" :: fields)) = true.

(** The keys of the counted families of lines 631-648. *)
Definition indexed (k : string) : Prop :=
  exists i : nat,
    In k [ fmt "Category_Score_" i ""; fmt "Tag_Confidence_" i "";
           fmt "Object_" i "_Confidence"; fmt "Object_" i "_Direction";
           fmt "Object_" i "_Longitude"; fmt "Object_" i "_Latitude";
           fmt "x" i ""; fmt "y" i ""; fmt "w" i ""; fmt "h" i "";
           fmt "Center_x" i ""; fmt "Center_y" i "" ].

(** The keys that the type restoration of lines 621-648 assigns. *)
Definition restored (k : string) : Prop :=
  In k fieldsFloat \/ In k fieldsInt \/ indexed k.

(** Lines 622-624 and 627-629: a cast under [if field in metaString]. *)
Definition guarded (cast : string -> W unit) (key : string) : W unit :=
  let! present := has_key key in when present (cast key).

(** Lines 631-648: the casts of the counted fields. *)
Definition restore_counted : W unit :=
  let! categories := counted "Number_of_Categories" in
  for_each categories (fun i => cast_float (fmt "Category_Score_" i "")) ;;;
  let! tags := counted "Number_of_Tags" in
  for_each tags (fun j => cast_float (fmt "Tag_Confidence_" j "")) ;;;
  let! objects := counted "Number_of_Objects" in
  for_each objects (fun k =>
    cast_float (fmt "Object_" k "_Confidence") ;;;
    cast_float (fmt "Object_" k "_Direction") ;;;
    assign (fmt "Object_" k "_Longitude") (VFloat 0.0) ;;;
    assign (fmt "Object_" k "_Latitude") (VFloat 0.0) ;;;
    cast_int (fmt "x" k "") ;;;
    cast_int (fmt "y" k "") ;;;
    cast_int (fmt "w" k "") ;;;
    cast_int (fmt "h" k "") ;;;
    cast_float (fmt "Center_x" k "") ;;;
    cast_float (fmt "Center_y" k "")).

(** Text that does not go on with a digit. *)
Definition no_digit_head (s : string) : bool :=
  match s with
  | EmptyString => true
  | String c _ => negb (is_digit c)
  end.

(** The keys that [merge_object] assigns for object number [n]. *)
Definition object_key (n : nat) (k : string) : Prop :=
  In k [ fmt "Object_" n ""; fmt "Object_" n "_Confidence"; fmt "Object_" n "_Direction";
         fmt "Object_" n "_Longitude"; fmt "Object_" n "_Latitude";
         fmt "x" n ""; fmt "y" n ""; fmt "w" n ""; fmt "h" n "";
         fmt "Center_x" n ""; fmt "Center_y" n "" ]
  \/ exists rest, k = fmt "Object_" n ("_Parent_" ++ rest).

(** The keys that [get_object_bounds] reads for object number [n]. *)
Definition bound_key (n : nat) (k : string) : Prop :=
  In k [ fmt "Object_" n ""; fmt "x" n ""; fmt "y" n ""; fmt "w" n ""; fmt "h" n "" ].

(** [holds k T d]: the dictionary has the key [k], with a value in [T]. *)
Definition holds (k : string) (T : pyval -> Prop) (d : gmap string pyval) : Prop :=
  exists v, d !! k = Some v /\ T v.

Definition a_float (v : pyval) : Prop := exists q, v = VFloat q.
Definition an_int (v : pyval) : Prop := exists z, v = VInt z.

(** Sets of values that [float(v)], or [int(v)], maps into themselves. *)
Definition closed_float (T : pyval -> Prop) : Prop :=
  forall v q, T v -> py_float v = Ok q -> T (VFloat q).
Definition closed_int (T : pyval -> Prop) : Prop :=
  forall v z, T v -> py_int v = Ok z -> T (VInt z).

(** [triple Pre c Post]: when [c] returns on a dictionary in [Pre], it
    leaves a dictionary in [Post]. *)
Definition triple (Pre : gmap string pyval -> Prop) {A} (c : W A)
    (Post : gmap string pyval -> Prop) : Prop :=
  forall d a d' ws, c d = Ok (a, d', ws) -> Pre d -> Post d'.

(** Whether a computation returned. *)
Definition returned {A} (r : result A) : bool :=
  match r with Ok _ => true | Raise _ => false end.

End Notions.

(** ** More records and stores, for the concrete runs of Part II *)

Module Records.
Import Num Float Geometry Py Pipeline.
Local Open Scope string_scope.

(** An [atan2] for the concrete runs: the values of the C library on the
    axes, and the diagonal of the quadrant elsewhere. *)
Definition atan2 (y x : Q) : Q :=
  let quarter := float_div Floating.pi 4 in
  if Qeq_bool y 0 then (if Qltb x 0 then Floating.pi else 0%Q)
  else
    let angle :=
      if Qeq_bool x 0 then float_mul 2 quarter
      else if Qltb x 0 then float_mul 3 quarter
           else quarter in
    if Qltb y 0 then (- angle)%Q else angle.

(** A dictionary with one detected object. *)
Definition one_object : gmap string pyval :=
  list_to_map [ ("Number_of_Objects", VInt 1); ("Object_1", VStr "car");
                ("x1", VInt 10); ("y1", VInt 20); ("w1", VInt 30); ("h1", VInt 40) ].

(** A record with one object, as the enrichment stage persists it. *)
Definition small_record : gmap string string :=
  list_to_map
    [ ("Longitude", "-117.5"); ("Latitude", "33.5"); ("Cardinal_Number", "1");
      ("Number_of_Categories", "0"); ("Number_of_Tags", "0"); ("Number_of_Objects", "1");
      ("Object_1", "car"); ("Object_1_Confidence", "0.5"); ("Object_1_Direction", "45.0");
      ("Object_1_Longitude", "0.0"); ("Object_1_Latitude", "0.0");
      ("x1", "10"); ("y1", "20"); ("w1", "30"); ("h1", "40");
      ("Center_x1", "25.0"); ("Center_y1", "40.0");
      ("Object_1_Parent_1", "vehicle"); ("Object_1_Parent_1_Confidence", "0.75") ].

(** A store of two records, the second of which lacks [Number_of_Tags]. *)
Definition small_store : services :=
  {| exists_container := exists_container Sample.healthy;
     set_container_acl := set_container_acl Sample.healthy;
     list_blobs := fun _ => Ok [ "a_1_N.jpg"; "a_2_NE.jpg" ];
     get_blob_metadata := fun _ name =>
       Ok (if String.eqb name "a_1_N.jpg" then small_record
           else delete "Number_of_Tags" small_record);
     get_blob_to_bytes := get_blob_to_bytes Sample.healthy;
     create_blob_from_bytes := create_blob_from_bytes Sample.healthy;
     image_open := image_open Sample.healthy;
     crop := crop Sample.healthy;
     save_jpeg := save_jpeg Sample.healthy;
     draw_boxes := draw_boxes Sample.healthy;
     analyze := analyze Sample.healthy |}.

(** The same store without the incomplete record. *)
Definition complete_store : services :=
  {| exists_container := exists_container Sample.healthy;
     set_container_acl := set_container_acl Sample.healthy;
     list_blobs := fun _ => Ok [ "a_1_N.jpg" ];
     get_blob_metadata := fun _ _ => Ok small_record;
     get_blob_to_bytes := get_blob_to_bytes Sample.healthy;
     create_blob_from_bytes := create_blob_from_bytes Sample.healthy;
     image_open := image_open Sample.healthy;
     crop := crop Sample.healthy;
     save_jpeg := save_jpeg Sample.healthy;
     draw_boxes := draw_boxes Sample.healthy;
     analyze := analyze Sample.healthy |}.

(** The store [complete_store], seen by a client for which the container
    does not exist. *)
Definition no_container : services :=
  {| exists_container := fun _ => Ok false;
     set_container_acl := set_container_acl complete_store;
     list_blobs := list_blobs complete_store;
     get_blob_metadata := get_blob_metadata complete_store;
     get_blob_to_bytes := get_blob_to_bytes complete_store;
     create_blob_from_bytes := create_blob_from_bytes complete_store;
     image_open := image_open complete_store;
     crop := crop complete_store;
     save_jpeg := save_jpeg complete_store;
     draw_boxes := draw_boxes complete_store;
     analyze := analyze complete_store |}.

(** The healthy collaborators, with a photosphere whose metadata lacks
    the field [Kappa]. *)
Definition incomplete : services :=
  {| exists_container := exists_container Sample.healthy;
     set_container_acl := set_container_acl Sample.healthy;
     list_blobs := list_blobs Sample.healthy;
     get_blob_metadata := fun _ _ => Ok (delete "Kappa" Sample.photosphere_metadata);
     get_blob_to_bytes := get_blob_to_bytes Sample.healthy;
     create_blob_from_bytes := create_blob_from_bytes Sample.healthy;
     image_open := image_open Sample.healthy;
     crop := crop Sample.healthy;
     save_jpeg := save_jpeg Sample.healthy;
     draw_boxes := draw_boxes Sample.healthy;
     analyze := analyze Sample.healthy |}.

End Records.

(* ===================================================================== *)
(** * Part II: theorems                                                   *)
(* ===================================================================== *)

(** ** Facts on the rational helpers *)

Module NumFacts.
Import Num.

Lemma Qltb_lt (x y : Q) : Qltb x y = true <-> (x < y)%Q.
Proof.
  unfold Qltb. rewrite negb_true_iff. split.
  - intros H. apply Qnot_le_lt. intros Hle.
    apply Qle_bool_iff in Hle. congruence.
  - intros H. destruct (Qle_bool y x) eqn:E; [|reflexivity].
    apply Qle_bool_iff in E. exfalso. apply (Qlt_not_le _ _ H E).
Qed.

Lemma Qltb_ge (x y : Q) : Qltb x y = false <-> (y <= x)%Q.
Proof.
  unfold Qltb. rewrite negb_false_iff. apply Qle_bool_iff.
Qed.

Lemma Qle_bool_gt (x y : Q) : Qle_bool x y = false <-> (y < x)%Q.
Proof.
  split.
  - intros H. apply Qnot_le_lt. intros Hle. apply Qle_bool_iff in Hle. congruence.
  - intros H. destruct (Qle_bool x y) eqn:E; [|reflexivity].
    apply Qle_bool_iff in E. exfalso. apply (Qlt_not_le _ _ H E).
Qed.

(** An integer below [q] is below its floor, and the floor is the only
    integer within one unit below [q]. *)
Lemma Qfloor_lower (n : Z) (q : Q) : (inject_Z n <= q)%Q -> n <= Qfloor q.
Proof.
  intros H. pose proof (Qlt_floor q) as Hq.
  assert (Hlt : (inject_Z n < inject_Z (Qfloor q + 1))%Q) by (eapply Qle_lt_trans; eauto).
  rewrite <- Zlt_Qlt in Hlt. lia.
Qed.

Lemma Qfloor_upper (n : Z) (q : Q) : (q < inject_Z n)%Q -> Qfloor q < n.
Proof.
  intros H. pose proof (Qfloor_le q) as Hq.
  assert (Hlt : (inject_Z (Qfloor q) < inject_Z n)%Q) by (eapply Qle_lt_trans; eauto).
  rewrite <- Zlt_Qlt in Hlt. exact Hlt.
Qed.

Lemma Qfloor_unique (n : Z) (q : Q) :
  (inject_Z n <= q)%Q -> (q < inject_Z (n + 1))%Q -> Qfloor q = n.
Proof.
  intros Hlo Hhi. apply Qfloor_lower in Hlo. apply Qfloor_upper in Hhi. lia.
Qed.

Lemma round_half_even_floor (q : Q) :
  Qfloor q <= round_half_even q <= Qfloor q + 1.
Proof.
  unfold round_half_even.
  destruct (q - inject_Z (Qfloor q) ?= 1 # 2)%Q; [destruct (Z.even _)| |]; lia.
Qed.

Lemma round_half_even_lower (n : Z) (q : Q) :
  (inject_Z n <= q)%Q -> n <= round_half_even q.
Proof.
  intros H. apply Qfloor_lower in H. pose proof (round_half_even_floor q). lia.
Qed.

Lemma round_half_even_upper (n : Z) (q : Q) :
  (q <= inject_Z n)%Q -> round_half_even q <= n.
Proof.
  intros H. pose proof (round_half_even_floor q) as Hr.
  destruct (Z_lt_le_dec (Qfloor q) n) as [Hlt|Hge]; [lia|].
  assert (Hfl : Qfloor q = n).
  { pose proof (Qfloor_le q) as Hq.
    assert (Hle : (inject_Z (Qfloor q) <= inject_Z n)%Q) by (eapply Qle_trans; eauto).
    rewrite <- Zle_Qle in Hle. lia. }
  unfold round_half_even. rewrite Hfl.
  assert (Hq : (q - inject_Z n < 1 # 2)%Q) by lra.
  rewrite Qlt_alt in Hq. rewrite Hq. lia.
Qed.

Lemma pow10_3 : pow10 3 = 1000%Q.
Proof. reflexivity. Qed.

(** [round(value, 3)] stays between two whole numbers of degrees that
    bracket [value]. *)
Lemma round3_bounds (lo hi : Z) (value : Q) :
  (inject_Z lo <= value)%Q -> (value <= inject_Z hi)%Q ->
  (inject_Z lo <= round value 3 <= inject_Z hi)%Q.
Proof.
  intros Hlo Hhi. unfold round. rewrite pow10_3.
  assert (H1 : lo * 1000 <= round_half_even (value * 1000)).
  { apply round_half_even_lower. rewrite inject_Z_mult. change (inject_Z 1000) with 1000%Q. lra. }
  assert (H2 : round_half_even (value * 1000) <= hi * 1000).
  { apply round_half_even_upper. rewrite inject_Z_mult. change (inject_Z 1000) with 1000%Q. lra. }
  rewrite Zle_Qle, inject_Z_mult in H1, H2. change (inject_Z 1000) with 1000%Q in *.
  set (n := inject_Z (round_half_even (value * 1000))) in *.
  split.
  - apply Qle_shift_div_l; [reflexivity | exact H1].
  - apply Qle_shift_div_r; [reflexivity | exact H2].
Qed.

End NumFacts.

(** ** Facts on the rounding to binary64 *)

Module FloatFacts.
Import Num NumFacts Float.
Local Open Scope Q_scope.

(** *** Powers of two *)

Lemma pow2_pos (n : Z) : 0 < pow2 n.
Proof. apply Qpower.Qpower_0_lt. reflexivity. Qed.

Lemma pow2_plus (n m : Z) : pow2 (n + m) == pow2 n * pow2 m.
Proof. apply Qpower.Qpower_plus. discriminate. Qed.

Lemma pow2_succ (n : Z) : pow2 (n + 1) == 2 * pow2 n.
Proof. rewrite pow2_plus. change (pow2 1) with 2. ring. Qed.

Lemma pow2_le (n m : Z) : (n <= m)%Z -> pow2 n <= pow2 m.
Proof. intros H. apply Qpower.Qpower_le_compat_l; [exact H|discriminate]. Qed.

Lemma pow2_lt (n m : Z) : (n < m)%Z -> pow2 n < pow2 m.
Proof. intros H. apply Qpower.Qpower_lt_compat_l; [exact H|reflexivity]. Qed.

Lemma pow2_lt_inv (n m : Z) : pow2 n < pow2 m -> (n < m)%Z.
Proof. intros H. apply (Qpower.Qpower_lt_compat_l_inv 2); [exact H|reflexivity]. Qed.

Lemma pow2_Z (n : Z) : (0 <= n)%Z -> pow2 n == inject_Z (2 ^ n).
Proof. intros H. symmetry. apply Qpower.Zpower_Qpower. exact H. Qed.

(** A multiple of [2 ^ e'] is a multiple of every smaller power. *)
Lemma pow2_grid (k e e' : Z) :
  (e <= e')%Z -> inject_Z k * pow2 e' == inject_Z (k * 2 ^ (e' - e)) * pow2 e.
Proof.
  intros H. rewrite inject_Z_mult, <- pow2_Z by lia.
  rewrite <- Qmult_assoc, <- pow2_plus. replace (e' - e + e)%Z with e' by lia. reflexivity.
Qed.

(** *** [floor_log2] *)

Lemma Z_log2_bounds (n : Z) :
  (0 < n)%Z -> pow2 (Z.log2 n) <= inject_Z n /\ inject_Z n < 2 * pow2 (Z.log2 n).
Proof.
  intros H. destruct (Z.log2_spec n H) as [Hlo Hhi].
  pose proof (Z.log2_nonneg n) as H0.
  rewrite <- pow2_succ, !pow2_Z by lia. rewrite <- Zle_Qle, <- Zlt_Qlt.
  replace (Z.log2 n + 1)%Z with (Z.succ (Z.log2 n)) by lia. split; assumption.
Qed.

Lemma floor_log2_spec (a : Q) :
  0 < a -> pow2 (floor_log2 a) <= a /\ a < pow2 (floor_log2 a + 1).
Proof.
  intros Ha. unfold floor_log2.
  destruct a as [n d]. cbn [Qnum Qden].
  assert (Hn : (0 < n)%Z).
  { unfold Qlt in Ha. cbn in Ha. lia. }
  destruct (Z_log2_bounds n Hn) as [Hn1 Hn2].
  destruct (Z_log2_bounds (Zpos d) eq_refl) as [Hd1 Hd2].
  set (ln := Z.log2 n) in *. set (ld := Z.log2 (Zpos d)) in *.
  assert (Ea : n # d == inject_Z n / inject_Z (Zpos d)) by apply Qmake_Qdiv.
  assert (Eg : pow2 (ln - ld) == pow2 ln / pow2 ld).
  { apply Qpower.Qpower_minus. discriminate. }
  pose proof (pow2_pos ln) as Pn. pose proof (pow2_pos ld) as Pd.
  assert (PD : 0 < inject_Z (Zpos d)) by reflexivity.
  set (N := inject_Z n) in *. set (D := inject_Z (Zpos d)) in *.
  set (A := pow2 ln) in *. set (B := pow2 ld) in *.
  assert (Hup : N / D < 2 * (A / B)).
  { apply Qlt_shift_div_r; [exact PD|].
    assert (E : 2 * (A / B) * D == (2 * A * D) / B) by (field; lra).
    rewrite E. apply Qlt_shift_div_l; [exact Pd|]. nra. }
  assert (Hlow : A / B <= 2 * (N / D)).
  { apply Qle_shift_div_r; [exact Pd|].
    assert (E : 2 * (N / D) * B == (2 * N * B) / D) by (field; lra).
    rewrite E. apply Qle_shift_div_l; [exact PD|]. nra. }
  destruct (Qle_bool (pow2 (ln - ld)) (n # d)) eqn:E.
  - apply Qle_bool_iff in E. split; [exact E|].
    rewrite pow2_succ, Eg, Ea. exact Hup.
  - apply Qle_bool_gt in E. split.
    + assert (E2 : 2 * pow2 (ln - ld - 1) == pow2 (ln - ld)).
      { rewrite <- pow2_succ. replace (ln - ld - 1 + 1)%Z with (ln - ld)%Z by lia. reflexivity. }
      rewrite Eg in E2. rewrite Ea. lra.
    + replace (ln - ld - 1 + 1)%Z with (ln - ld)%Z by lia. exact E.
Qed.

Lemma floor_log2_unique (a : Q) (g : Z) :
  0 < a -> pow2 g <= a -> a < pow2 (g + 1) -> floor_log2 a = g.
Proof.
  intros Ha Hlo Hhi. destruct (floor_log2_spec a Ha) as [Slo Shi].
  assert (H1 : (g < floor_log2 a + 1)%Z) by (apply pow2_lt_inv; lra).
  assert (H2 : (floor_log2 a < g + 1)%Z) by (apply pow2_lt_inv; lra).
  lia.
Qed.

Lemma floor_log2_mono (a b : Q) : 0 < a -> a <= b -> (floor_log2 a <= floor_log2 b)%Z.
Proof.
  intros Ha Hab. destruct (floor_log2_spec a Ha) as [Alo _].
  destruct (floor_log2_spec b) as [_ Bhi]; [lra|].
  assert (H : (floor_log2 a < floor_log2 b + 1)%Z) by (apply pow2_lt_inv; lra).
  lia.
Qed.

Lemma floor_log2_below (a : Q) (g : Z) : 0 < a -> a < pow2 g -> (floor_log2 a < g)%Z.
Proof.
  intros Ha H. destruct (floor_log2_spec a Ha) as [Alo _]. apply pow2_lt_inv. lra.
Qed.

Lemma floor_log2_above (a : Q) (g : Z) : pow2 g <= a -> (g <= floor_log2 a)%Z.
Proof.
  intros H. pose proof (pow2_pos g) as P.
  destruct (floor_log2_spec a) as [_ Ahi]; [lra|].
  assert (H1 : (g < floor_log2 a + 1)%Z) by (apply pow2_lt_inv; lra). lia.
Qed.

Lemma exponent_mono (a b : Q) : 0 < a -> a <= b -> (exponent a <= exponent b)%Z.
Proof. intros Ha Hab. unfold exponent. pose proof (floor_log2_mono a b Ha Hab). lia. Qed.

(** *** Rounding to an integer *)

Lemma round_half_even_Z (n : Z) : round_half_even (inject_Z n) = n.
Proof.
  pose proof (round_half_even_lower n (inject_Z n)) as H1.
  pose proof (round_half_even_upper n (inject_Z n)) as H2.
  specialize (H1 (Qle_refl _)). specialize (H2 (Qle_refl _)). lia.
Qed.

Lemma round_half_even_mono (x y : Q) : x <= y -> (round_half_even x <= round_half_even y)%Z.
Proof.
  intros Hxy.
  pose proof (round_half_even_floor x) as Hx. pose proof (round_half_even_floor y) as Hy.
  assert (Hf : (Qfloor x <= Qfloor y)%Z) by (apply Qfloor_resp_le; exact Hxy).
  destruct (Z_lt_le_dec (Qfloor x) (Qfloor y)) as [Hlt|Hge]; [lia|].
  assert (E : Qfloor y = Qfloor x) by lia.
  unfold round_half_even. rewrite E.
  set (n := Qfloor x) in *.
  destruct (x - inject_Z n ?= 1 # 2) eqn:Cx; destruct (y - inject_Z n ?= 1 # 2) eqn:Cy;
    try rewrite <- Qeq_alt in *; try rewrite <- Qlt_alt in *; try rewrite <- Qgt_alt in *;
    try destruct (Z.even n); try lia; exfalso; lra.
Qed.

Lemma round_half_even_comp (x y : Q) : x == y -> round_half_even x = round_half_even y.
Proof.
  intros E. apply Z.le_antisymm; apply round_half_even_mono; rewrite E; apply Qle_refl.
Qed.

(** *** The rounding to binary64 *)

Lemma Qabs_pos_eq (q : Q) : 0 < q -> Qabs q = q.
Proof.
  destruct q as [n d]. unfold Qlt. cbn. intros H. unfold Qabs. f_equal. lia.
Qed.

Lemma Qeq_bool_pos (q : Q) : 0 < q -> Qeq_bool q 0 = false.
Proof.
  intros H. destruct (Qeq_bool q 0) eqn:E; [|reflexivity].
  apply Qeq_bool_eq in E. lra.
Qed.

Lemma Qsign_pos (q : Q) : 0 < q -> Qsign q = 1.
Proof. intros H. unfold Qsign. replace (Qltb q 0) with false; [reflexivity|]. symmetry. apply Qltb_ge. lra. Qed.

Lemma float_of_Q_pos (q : Q) :
  0 < q ->
  float_of_Q q == inject_Z (round_half_even (q / pow2 (exponent q))) * pow2 (exponent q).
Proof.
  intros Hq. unfold float_of_Q. rewrite (Qeq_bool_pos q Hq). cbv zeta.
  rewrite (Qabs_pos_eq q Hq), (Qsign_pos q Hq), Qred_correct. unfold exponent. ring.
Qed.

Lemma float_of_Q_0 (q : Q) : q == 0 -> float_of_Q q = 0.
Proof. intros E. unfold float_of_Q. rewrite (Qeq_eq_bool _ _ E). reflexivity. Qed.

Lemma floor_log2_comp (a b : Q) : 0 < a -> a == b -> floor_log2 a = floor_log2 b.
Proof.
  intros Ha E. destruct (floor_log2_spec a Ha) as [Lo Hi].
  symmetry. apply floor_log2_unique; rewrite <- ?E; assumption.
Qed.

Lemma exponent_comp (a b : Q) : 0 < a -> a == b -> exponent a = exponent b.
Proof. intros Ha E. unfold exponent. rewrite (floor_log2_comp a b Ha E). reflexivity. Qed.

Lemma float_of_Q_opp (q : Q) : float_of_Q (- q) == - float_of_Q q.
Proof.
  destruct (Qlt_le_dec 0 q) as [Hp|Hn].
  - unfold float_of_Q at 1.
    assert (E0 : Qeq_bool (- q) 0 = false).
    { destruct (Qeq_bool (- q) 0) eqn:E; [|reflexivity]. apply Qeq_bool_eq in E. lra. }
    rewrite E0. cbv zeta.
    assert (Ea : Qabs (- q) = q).
    { destruct q as [n d]. unfold Qlt in Hp. cbn in Hp. unfold Qabs, Qopp. cbn. f_equal. lia. }
    assert (Es : Qsign (- q) = (-1)).
    { unfold Qsign. replace (Qltb (- q) 0) with true; [reflexivity|]. symmetry. apply Qltb_lt. lra. }
    rewrite Ea, Es, Qred_correct, (float_of_Q_pos q Hp). unfold exponent. ring.
  - destruct (Qeq_dec q 0) as [Ez|Hnz].
    + rewrite (float_of_Q_0 q Ez), (float_of_Q_0 (- q)); [reflexivity|]. rewrite Ez. reflexivity.
    + assert (Hq : q < 0).
      { apply Qnot_le_lt. intros H. apply Hnz. lra. }
      assert (Hp : 0 < - q) by lra.
      unfold float_of_Q at 2.
      assert (E0 : Qeq_bool q 0 = false).
      { destruct (Qeq_bool q 0) eqn:E; [|reflexivity]. apply Qeq_bool_eq in E. contradiction. }
      rewrite E0. cbv zeta.
      assert (Ea : Qabs q = - q).
      { destruct q as [n d]. unfold Qlt in Hq. cbn in Hq. unfold Qabs, Qopp. cbn. f_equal. lia. }
      assert (Es : Qsign q = (-1)).
      { unfold Qsign. replace (Qltb q 0) with true; [reflexivity|]. symmetry. apply Qltb_lt. exact Hq. }
      rewrite Ea, Es, Qred_correct, (float_of_Q_pos (- q) Hp). unfold exponent. ring.
Qed.

Lemma float_of_Q_red (q : Q) : Qred (float_of_Q q) = float_of_Q q.
Proof.
  unfold float_of_Q. destruct (Qeq_bool q 0); [reflexivity|]. cbv zeta. apply Qred_complete, Qred_correct.
Qed.

Lemma float_of_Q_pos_comp (p q : Q) : 0 < p -> p == q -> float_of_Q p == float_of_Q q.
Proof.
  intros Hp E. assert (Hq : 0 < q) by (rewrite <- E; exact Hp).
  rewrite (float_of_Q_pos p Hp), (float_of_Q_pos q Hq), (exponent_comp p q Hp E).
  rewrite (round_half_even_comp (p / pow2 (exponent q)) (q / pow2 (exponent q))); [reflexivity|].
  rewrite E. reflexivity.
Qed.

Lemma float_of_Q_comp (p q : Q) : p == q -> float_of_Q p = float_of_Q q.
Proof.
  intros E. rewrite <- (float_of_Q_red p), <- (float_of_Q_red q). apply Qred_complete.
  destruct (Qlt_le_dec 0 p) as [Hp|Hn].
  - apply float_of_Q_pos_comp; assumption.
  - destruct (Qeq_dec p 0) as [Ez|Hnz].
    + rewrite (float_of_Q_0 p Ez), (float_of_Q_0 q); [reflexivity|]. rewrite <- E. exact Ez.
    + assert (Hp : 0 < - p).
      { assert (p < 0); [|lra]. apply Qnot_le_lt. intros H. apply Hnz. lra. }
      assert (E' : - p == - q) by (rewrite E; reflexivity).
      pose proof (float_of_Q_pos_comp (- p) (- q) Hp E') as H.
      rewrite !float_of_Q_opp in H. lra.
Qed.

#[global] Instance float_of_Q_proper : Proper (Qeq ==> Qeq) float_of_Q.
Proof. intros p q E. rewrite (float_of_Q_comp p q E). reflexivity. Qed.

(** Rounding keeps the bounds that lie on the grid of the rounded
    number. *)
Lemma float_of_Q_grid_le (q : Q) (n : Z) :
  0 < q -> q <= inject_Z n * pow2 (exponent q) -> float_of_Q q <= inject_Z n * pow2 (exponent q).
Proof.
  intros Hq H. rewrite (float_of_Q_pos q Hq).
  pose proof (pow2_pos (exponent q)) as P.
  apply Qmult_le_compat_r; [|lra]. rewrite <- Zle_Qle.
  apply round_half_even_upper. apply Qle_shift_div_r; assumption.
Qed.

Lemma float_of_Q_grid_ge (q : Q) (n : Z) :
  0 < q -> inject_Z n * pow2 (exponent q) <= q -> inject_Z n * pow2 (exponent q) <= float_of_Q q.
Proof.
  intros Hq H. rewrite (float_of_Q_pos q Hq).
  pose proof (pow2_pos (exponent q)) as P.
  apply Qmult_le_compat_r; [|lra]. rewrite <- Zle_Qle.
  apply round_half_even_lower. apply Qle_shift_div_l; assumption.
Qed.

Lemma float_of_Q_nonneg (q : Q) : 0 <= q -> 0 <= float_of_Q q.
Proof.
  intros H. destruct (Qeq_dec q 0) as [Ez|Hnz].
  - rewrite (float_of_Q_0 q Ez). apply Qle_refl.
  - assert (Hq : 0 < q).
    { apply Qnot_le_lt. intros H'. apply Hnz. lra. }
    pose proof (float_of_Q_grid_ge q 0 Hq) as G.
    assert (E : inject_Z 0 * pow2 (exponent q) == 0) by ring.
    rewrite E in G. apply G. lra.
Qed.

(** A multiple of [2 ^ e] that takes at most 53 bits is a binary64
    value. *)
Lemma binary64_multiple (k e : Z) :
  (-1074 <= e)%Z -> (0 < k < 2 ^ 53)%Z -> binary64 (inject_Z k * pow2 e).
Proof.
  intros He Hk. unfold binary64. set (q := inject_Z k * pow2 e).
  pose proof (pow2_pos e) as P.
  assert (Hk0 : 0 < inject_Z k) by (rewrite <- (Zlt_Qlt 0); lia).
  assert (Hk1 : inject_Z k < pow2 53).
  { rewrite pow2_Z by lia. rewrite <- Zlt_Qlt. lia. }
  assert (Hq : 0 < q) by (unfold q; nra).
  assert (Hlt : q < pow2 (53 + e)).
  { rewrite pow2_plus. unfold q. apply Qmult_lt_compat_r; assumption. }
  assert (Hexp : (exponent q <= e)%Z).
  { unfold exponent. pose proof (floor_log2_below q (53 + e) Hq Hlt). lia. }
  pose proof (pow2_grid k (exponent q) e Hexp) as G. fold q in G.
  apply Qle_antisym.
  - rewrite G at 2. apply float_of_Q_grid_le; [exact Hq|]. rewrite <- G. apply Qle_refl.
  - rewrite G at 1. apply float_of_Q_grid_ge; [exact Hq|]. rewrite <- G. apply Qle_refl.
Qed.

Lemma binary64_0 : binary64 0.
Proof. reflexivity. Qed.

(** What rounding returns is a binary64 value. *)
Lemma binary64_float_of_Q (q : Q) : binary64 (float_of_Q q).
Proof.
  assert (Hpos : forall p, 0 < p -> binary64 (float_of_Q p)).
  { intros p Hp. unfold binary64.
    set (e := exponent p). set (K := round_half_even (p / pow2 e)).
    assert (E : float_of_Q p == inject_Z K * pow2 e) by apply (float_of_Q_pos p Hp).
    rewrite (float_of_Q_comp _ _ E), E.
    pose proof (pow2_pos e) as P.
    destruct (floor_log2_spec p Hp) as [Lo Hi].
    assert (He : (-1074 <= e)%Z) by (unfold e, exponent; lia).
    assert (HK0 : (0 <= K)%Z).
    { apply round_half_even_lower. apply Qle_shift_div_l; [exact P|]. change (inject_Z 0) with 0. lra. }
    assert (HK1 : (K <= 2 ^ 53)%Z).
    { apply round_half_even_upper. apply Qle_shift_div_r; [exact P|].
      rewrite <- pow2_Z, <- pow2_plus by lia.
      assert (Hle : pow2 (floor_log2 p + 1) <= pow2 (53 + e)).
      { apply pow2_le. unfold e, exponent. lia. }
      lra. }
    destruct (Z.eq_dec K 0%Z) as [->|HK].
    - assert (Ez : inject_Z 0 * pow2 e == 0) by ring.
      rewrite (float_of_Q_comp _ _ Ez), Ez. reflexivity.
    - destruct (Z.eq_dec K (2 ^ 53)%Z) as [->|HK'].
      + assert (E2 : inject_Z (2 ^ 53) * pow2 e == inject_Z (2 ^ 52) * pow2 (e + 1)).
        { rewrite pow2_succ. change (inject_Z (2 ^ 53)) with (2 * inject_Z (2 ^ 52)). ring. }
        rewrite (float_of_Q_comp _ _ E2), E2. apply binary64_multiple; lia.
      + apply binary64_multiple; lia. }
  destruct (Qlt_le_dec 0 q) as [Hp|Hn]; [exact (Hpos q Hp)|].
  destruct (Qeq_dec q 0) as [Ez|Hnz].
  - rewrite (float_of_Q_0 q Ez). reflexivity.
  - assert (Hp : 0 < - q).
    { assert (q < 0); [|lra]. apply Qnot_le_lt. intros H. apply Hnz. lra. }
    specialize (Hpos (- q) Hp). unfold binary64 in *.
    assert (E : float_of_Q q == - float_of_Q (- q)) by (rewrite float_of_Q_opp; ring).
    rewrite (float_of_Q_comp _ _ E), float_of_Q_opp, Hpos. symmetry. exact E.
Qed.

(** Rounding is monotone. *)
Lemma float_of_Q_mono_pos (a b : Q) : 0 < a -> a <= b -> float_of_Q a <= float_of_Q b.
Proof.
  intros Ha Hab. assert (Hb : 0 < b) by lra.
  pose proof (exponent_mono a b Ha Hab) as He.
  destruct (Z.eq_dec (exponent a) (exponent b)) as [E|Hne].
  - rewrite (float_of_Q_pos a Ha), (float_of_Q_pos b Hb), E.
    pose proof (pow2_pos (exponent b)) as P.
    apply Qmult_le_compat_r; [|lra]. rewrite <- Zle_Qle.
    apply round_half_even_mono. apply Qmult_le_compat_r; [exact Hab|].
    apply Qlt_le_weak, Qinv_lt_0_compat, P.
  - destruct (floor_log2_spec a Ha) as [_ Ahi]. destruct (floor_log2_spec b Hb) as [Blo _].
    set (ga := floor_log2 a) in *. set (gb := floor_log2 b) in *.
    assert (Hg : (ga < gb)%Z) by (unfold exponent in *; fold ga gb in He, Hne; lia).
    assert (Eb : exponent b = (gb - 52)%Z) by (unfold exponent in *; fold ga gb in He, Hne |- *; lia).
    assert (Ea : (exponent a <= gb)%Z) by lia.
    assert (Hstep : pow2 (ga + 1) <= pow2 gb) by (apply pow2_le; lia).
    apply Qle_trans with (pow2 gb).
    + assert (G : pow2 gb == inject_Z (1 * 2 ^ (gb - exponent a)) * pow2 (exponent a)).
      { rewrite <- (pow2_grid 1 (exponent a) gb Ea). change (inject_Z 1) with 1. ring. }
      rewrite G. apply float_of_Q_grid_le; [exact Ha|]. rewrite <- G. lra.
    + assert (G : pow2 gb == inject_Z (1 * 2 ^ (gb - exponent b)) * pow2 (exponent b)).
      { rewrite <- (pow2_grid 1 (exponent b) gb) by lia. change (inject_Z 1) with 1. ring. }
      rewrite G. apply float_of_Q_grid_ge; [exact Hb|]. rewrite <- G. exact Blo.
Qed.

Lemma float_of_Q_mono (a b : Q) : a <= b -> float_of_Q a <= float_of_Q b.
Proof.
  intros Hab. destruct (Qlt_le_dec 0 a) as [Ha|Ha].
  - apply float_of_Q_mono_pos; assumption.
  - destruct (Qlt_le_dec b 0) as [Hb|Hb].
    + assert (H : float_of_Q (- b) <= float_of_Q (- a)) by (apply float_of_Q_mono_pos; lra).
      rewrite !float_of_Q_opp in H. lra.
    + assert (H1 : 0 <= float_of_Q b) by (apply float_of_Q_nonneg; exact Hb).
      assert (H2 : 0 <= float_of_Q (- a)) by (apply float_of_Q_nonneg; lra).
      rewrite float_of_Q_opp in H2. lra.
Qed.

(** A number between two binary64 values rounds between them. *)
Lemma float_of_Q_le (q b : Q) : binary64 b -> q <= b -> float_of_Q q <= b.
Proof. intros Hb H. unfold binary64 in Hb. rewrite <- Hb. apply float_of_Q_mono, H. Qed.

Lemma float_of_Q_ge (q b : Q) : binary64 b -> b <= q -> b <= float_of_Q q.
Proof. intros Hb H. unfold binary64 in Hb. rewrite <- Hb. apply float_of_Q_mono, H. Qed.

(** A binary64 value of at least [2 ^ g] is a multiple of
    [2 ^ (g - 52)]. *)
Lemma binary64_multiple_of (s : Q) (g : Z) :
  binary64 s -> pow2 g <= s -> (-1074 <= g - 52)%Z ->
  exists k : Z, s == inject_Z k * pow2 (g - 52).
Proof.
  intros Hs Hg Hmin. pose proof (pow2_pos g) as P. assert (H0 : 0 < s) by lra.
  pose proof (floor_log2_above s g Hg) as Hfl.
  assert (He : (g - 52 <= exponent s)%Z) by (unfold exponent; lia).
  exists (round_half_even (s / pow2 (exponent s)) * 2 ^ (exponent s - (g - 52)))%Z.
  rewrite <- (pow2_grid _ (g - 52) (exponent s) He), <- (float_of_Q_pos s H0). symmetry. exact Hs.
Qed.

(** The subtraction of line 109 is exact: a binary64 sum in
    [(360, 720]] less 360 is a binary64 value. *)
Lemma binary64_minus_360 (s : Q) : binary64 s -> 360 < s -> s <= 720 -> binary64 (s - 360).
Proof.
  intros Hs Hlo Hhi.
  destruct (binary64_multiple_of s 8 Hs) as (k & Ek); [change (pow2 8) with 256; lra|lia|].
  change (8 - 52)%Z with (-44)%Z in Ek.
  assert (E360 : 360 == inject_Z (360 * 2 ^ 44) * pow2 (-44)) by reflexivity.
  assert (E : s - 360 == inject_Z (k - 360 * 2 ^ 44) * pow2 (-44)).
  { unfold Zminus. rewrite inject_Z_plus, inject_Z_opp, Qmult_plus_distr_l, <- Ek.
    rewrite E360 at 1. ring. }
  unfold binary64. rewrite (float_of_Q_comp _ _ E), E.
  pose proof (pow2_pos (-44)) as P.
  assert (H1 : 0 < inject_Z (k - 360 * 2 ^ 44) * pow2 (-44)) by (rewrite <- E; lra).
  assert (H2 : inject_Z (k - 360 * 2 ^ 44) * pow2 (-44) <= inject_Z (360 * 2 ^ 44) * pow2 (-44)).
  { rewrite <- E, <- E360. lra. }
  apply binary64_multiple; [lia|].
  split.
  - rewrite Zlt_Qlt. change (inject_Z 0) with 0. nra.
  - assert (H3 : (k - 360 * 2 ^ 44 <= 360 * 2 ^ 44)%Z).
    { rewrite Zle_Qle. apply Qmult_le_r with (pow2 (-44)); assumption. }
    lia.
Qed.

End FloatFacts.

(** ** Facts on the geometry functions *)

Module GeometryFacts.
Import Num NumFacts Float FloatFacts Geometry.

Example check_cardinality_0 : check_cardinality 0 = Some "N"%string.
Proof. vm_compute. reflexivity. Qed.

Example check_cardinality_45 : check_cardinality 45 = Some "NE"%string.
Proof. vm_compute. reflexivity. Qed.

Example check_cardinality_359_9999 : check_cardinality 359.9999 = Some "N"%string.
Proof. vm_compute. reflexivity. Qed.

Example check_cardinality_360 : check_cardinality 360 = Some "N"%string.
Proof. vm_compute. reflexivity. Qed.

Example check_cardinality_361 : check_cardinality 361 = None.
Proof. vm_compute. reflexivity. Qed.

(** *** [check_degrees] *)

Lemma binary64_360 : binary64 360.
Proof. reflexivity. Qed.

Lemma binary64_720 : binary64 720.
Proof. reflexivity. Qed.

Lemma check_degrees_le (x y : Q) :
  (float_add x y <= 360)%Q -> check_degrees x y = float_add x y.
Proof.
  intros H. unfold check_degrees. cbv zeta.
  destruct (Qltb 360 (float_add x y)) eqn:E; [|reflexivity].
  apply Qltb_lt in E. lra.
Qed.

Lemma check_degrees_gt (x y : Q) :
  (360 < float_add x y)%Q -> check_degrees x y = float_sub (float_add x y) 360.
Proof.
  intros H. unfold check_degrees. cbv zeta.
  destruct (Qltb 360 (float_add x y)) eqn:E; [reflexivity|].
  apply Qltb_ge in E. lra.
Qed.

(** The difference of line 109 is exact: only the sum of line 107 is
    rounded. *)
Lemma check_degrees_exact (x y : Q) :
  (360 < float_add x y)%Q -> (float_add x y <= 720)%Q ->
  (check_degrees x y == float_add x y - 360)%Q.
Proof.
  intros Hlo Hhi. rewrite (check_degrees_gt x y Hlo). unfold float_sub.
  apply binary64_minus_360; [apply binary64_float_of_Q| |]; assumption.
Qed.

Lemma check_degrees_binary64 (x y : Q) : binary64 (check_degrees x y).
Proof.
  unfold check_degrees. cbv zeta.
  destruct (Qltb 360 (float_add x y)); apply binary64_float_of_Q.
Qed.

(** A direction of [(0, 360]] plus at most 360 degrees is a direction
    of [(0, 360]]. *)
Lemma check_degrees_range (x y : Q) :
  binary64 x -> (0 < x <= 360)%Q -> (0 <= y <= 360)%Q -> (0 < check_degrees x y <= 360)%Q.
Proof.
  intros Bx Hx Hy.
  assert (Hlo : (x <= float_add x y)%Q) by (apply float_of_Q_ge; [exact Bx|lra]).
  assert (Hhi : (float_add x y <= 720)%Q) by (apply float_of_Q_le; [exact binary64_720|lra]).
  destruct (Qlt_le_dec 360 (float_add x y)) as [H|H].
  - rewrite (check_degrees_exact x y H Hhi). lra.
  - rewrite (check_degrees_le x y H). lra.
Qed.

Lemma Qmod_small (s m : Q) : (0 <= s < m)%Q -> (Qmod s m == s)%Q.
Proof.
  intros [H0 Hm]. unfold Qmod.
  assert (Hfl : Qfloor (s / m) = 0).
  { apply Qfloor_unique.
    - change (inject_Z 0) with 0%Q. apply Qle_shift_div_l; lra.
    - change (inject_Z (0 + 1)) with 1%Q. apply Qlt_shift_div_r; lra. }
  rewrite Hfl. change (inject_Z 0) with 0%Q. lra.
Qed.

Lemma Qmod_second_turn (s m : Q) : (m <= s)%Q -> (s < 2 * m)%Q -> (0 < m)%Q -> (Qmod s m == s - m)%Q.
Proof.
  intros Hlo Hhi Hm. unfold Qmod.
  assert (Hfl : Qfloor (s / m) = 1).
  { apply Qfloor_unique.
    - change (inject_Z 1) with 1%Q. apply Qle_shift_div_l; lra.
    - change (inject_Z (1 + 1)) with 2%Q. apply Qlt_shift_div_r; lra. }
  rewrite Hfl. change (inject_Z 1) with 1%Q. lra.
Qed.

(** C1, as the code has it, in binary64.  For [x] in [[0, 360)] and
    [y >= 0] with [x + y < 720], let [sumdeg] be the float sum of line
    107, the exact [x + y] rounded.  It lies in [[0, 720]], and
    [check_degrees x y] is [sumdeg] when [sumdeg <= 360] and exactly
    [sumdeg - 360] above: the subtraction does not round.  The result
    lies in [[0, 360]].  Where the sum is not rounded and is not 360, the
    result is [(x + y) mod 360], in [[0, 360)]; a sum that is 360, or
    rounds to 360, is returned as 360. *)
Theorem check_degrees_spec (x y : Q) :
  (0 <= x < 360)%Q -> (0 <= y)%Q -> (x + y < 720)%Q ->
  let sumdeg := float_add x y in
  (0 <= sumdeg <= 720)%Q
  /\ (sumdeg <= 360 -> check_degrees x y == sumdeg)%Q
  /\ (360 < sumdeg -> check_degrees x y == sumdeg - 360)%Q
  /\ (0 <= check_degrees x y <= 360)%Q
  /\ (sumdeg == x + y -> ~ x + y == 360 ->
        check_degrees x y == Qmod (x + y) 360 /\ 0 <= check_degrees x y < 360)%Q
  /\ (sumdeg == 360 -> check_degrees x y == 360)%Q.
Proof.
  intros Hx Hy Hs sumdeg.
  assert (H0 : (0 <= sumdeg)%Q) by (apply float_of_Q_nonneg; lra).
  assert (H1 : (sumdeg <= 720)%Q) by (apply float_of_Q_le; [exact binary64_720|lra]).
  assert (Hle : (sumdeg <= 360 -> check_degrees x y == sumdeg)%Q).
  { intros H. rewrite (check_degrees_le x y H). reflexivity. }
  assert (Hgt : (360 < sumdeg -> check_degrees x y == sumdeg - 360)%Q).
  { intros H. exact (check_degrees_exact x y H H1). }
  split; [split; assumption|]. split; [exact Hle|]. split; [exact Hgt|].
  destruct (Qlt_le_dec 360 sumdeg) as [H|H].
  - specialize (Hgt H). rewrite Hgt. split; [lra|]. split; [|intros E; lra].
    intros E _. split; [|lra]. rewrite Qmod_second_turn; lra.
  - specialize (Hle H). rewrite Hle. split; [lra|]. split; [|intros E; exact E].
    intros E Hne. assert (sumdeg < 360)%Q.
    { apply Qnot_le_lt. intros Hge. apply Hne. rewrite <- E. apply Qle_antisym; assumption. }
    split; [|lra]. rewrite Qmod_small; lra.
Qed.

Lemma check_degrees_spec_witness :
  (check_degrees 355.25 22.5 == Qmod (355.25 + 22.5) 360)%Q.
Proof.
  refine (proj1 (proj1 (proj2 (proj2 (proj2 (proj2 (check_degrees_spec 355.25 22.5 _ _ _))))) _ _)).
  - split; reflexivity || (intros H; discriminate H).
  - intros H; discriminate H.
  - reflexivity.
  - reflexivity.
  - intros H; discriminate H.
Defined.

(** C1 as the specification states it fails at [x = 0], [y = 360]: the
    sum 360 does not exceed 360 and is returned unchanged. *)
Lemma check_degrees_360_kept :
  ~ (forall x y : Q, (0 <= x < 360)%Q -> (0 <= y)%Q ->
       (check_degrees x y == Qmod (x + y) 360 /\ 0 <= check_degrees x y < 360)%Q).
Proof.
  intros H.
  destruct (H 0%Q 360%Q) as [_ [_ Hlt]].
  - split; [intros E; discriminate E | reflexivity].
  - intros E; discriminate E.
  - vm_compute in Hlt. discriminate Hlt.
Qed.

(** A sum that only rounds to 360 is returned as 360 too:
    [45.00000000000001 + 315.0] is [360.0]. *)
Example check_degrees_rounds_to_360 :
  Float.float_of_string "45.00000000000001"%string = Some (6333186975989761 # 140737488355328)
  /\ ~ ((6333186975989761 # 140737488355328) + 315 == 360)%Q
  /\ check_degrees (6333186975989761 # 140737488355328) 315 = 360%Q.
Proof.
  split; [vm_compute; reflexivity|]. split; [intros E; discriminate E|vm_compute; reflexivity].
Qed.

(** *** [check_cardinality]: scanning a table of adjoining bins *)


Lemma check_cardinality_scan (value : Q) :
  check_cardinality value = scan (round value 3) cardinalDictionary None.
Proof. reflexivity. Qed.

Lemma chained_le lo tbl hi : chained lo tbl hi -> (lo <= hi)%Q.
Proof.
  revert lo. induction tbl as [|bin rest IH]; simpl; intros lo H.
  - lra.
  - destruct H as (_ & Hlt & Hrest). apply IH in Hrest. lra.
Qed.

Lemma chained_below lo tbl hi r :
  chained lo tbl hi -> (r < lo)%Q -> Forall (fun bin => hits r bin = false) tbl.
Proof.
  revert lo. induction tbl as [|bin rest IH]; simpl; intros lo H Hr; constructor.
  - destruct H as (Hlo & _ & _). unfold hits.
    apply andb_false_iff. left. apply Qle_bool_gt. lra.
  - destruct H as (_ & Hlt & Hrest). apply (IH _ Hrest). lra.
Qed.

Lemma chained_above lo tbl hi r :
  chained lo tbl hi -> (hi <= r)%Q -> Forall (fun bin => hits r bin = false) tbl.
Proof.
  revert lo. induction tbl as [|bin rest IH]; simpl; intros lo H Hr; constructor.
  - destruct H as (_ & _ & Hrest). apply chained_le in Hrest. unfold hits.
    apply andb_false_iff. right. apply Qltb_ge. lra.
  - destruct H as (_ & _ & Hrest). apply (IH _ Hrest Hr).
Qed.

(** Inside the range exactly one bin is hit. *)
Lemma chained_inside lo tbl hi r :
  chained lo tbl hi -> (lo <= r < hi)%Q ->
  exists pre bin post,
    tbl = pre ++ bin :: post /\ hits r bin = true
    /\ Forall (fun b => hits r b = false) pre
    /\ Forall (fun b => hits r b = false) post.
Proof.
  revert lo. induction tbl as [|bin rest IH]; simpl; intros lo H Hr.
  - lra.
  - destruct H as (Hlo & Hlt & Hrest).
    destruct (Qlt_le_dec r (snd (snd bin))) as [Hin|Hout].
    + exists [], bin, rest. repeat split; [| constructor | eapply chained_below; eauto].
      unfold hits. apply andb_true_iff. split.
      * apply Qle_bool_iff. lra.
      * apply Qltb_lt. exact Hin.
    + destruct (IH _ Hrest) as (pre & b & post & -> & Hb & Hpre & Hpost); [lra|].
      exists (bin :: pre), b, post. repeat split; try assumption.
      constructor; [|exact Hpre].
      unfold hits. apply andb_false_iff. right. apply Qltb_ge. exact Hout.
Qed.

Lemma scan_misses r tbl acc :
  Forall (fun b => hits r b = false) tbl -> scan r tbl acc = acc.
Proof.
  unfold scan. intros H. revert acc.
  induction H as [|b l Hb _ IH]; simpl; intros acc; [reflexivity|].
  rewrite Hb. apply IH.
Qed.

Lemma filter_misses r tbl :
  Forall (fun b => hits r b = false) tbl -> List.filter (hits r) tbl = [].
Proof.
  induction 1 as [|b l Hb _ IH]; simpl; [reflexivity|]. rewrite Hb. exact IH.
Qed.

Lemma cardinalDictionary_chained : chained 0 cardinalDictionary 360.000001.
Proof.
  unfold cardinalDictionary. simpl.
  repeat (split; [reflexivity | split; [reflexivity |]]). reflexivity.
Qed.

Ltac in_list := repeat (first [ left; reflexivity | right ]).

Lemma cardinalDictionary_labels :
  Forall (fun bin => In (bin_label (fst bin)) labels) cardinalDictionary.
Proof.
  unfold cardinalDictionary. repeat (constructor; [vm_compute; in_list |]). constructor.
Qed.

(** What [check_cardinality] does with a rounded value inside the table's
    range [[0, 360.000001)], and outside it. *)
Lemma check_cardinality_inside (value : Q) :
  (0 <= round value 3 < 360.000001)%Q ->
  exists bin,
    List.filter (bin_matches value) cardinalDictionary = [bin]
    /\ check_cardinality value = Some (bin_label (fst bin))
    /\ In (bin_label (fst bin)) labels.
Proof.
  intros Hr.
  destruct (chained_inside _ _ _ _ cardinalDictionary_chained Hr)
    as (pre & bin & post & Htbl & Hbin & Hpre & Hpost).
  exists bin. split; [|split].
  - change (bin_matches value) with (hits (round value 3)).
    rewrite Htbl, List.filter_app. simpl. rewrite Hbin.
    rewrite (filter_misses _ _ Hpre), (filter_misses _ _ Hpost). reflexivity.
  - rewrite check_cardinality_scan, Htbl. unfold scan. rewrite fold_left_app. simpl.
    fold (scan (round value 3) pre None). rewrite (scan_misses _ _ _ Hpre), Hbin.
    apply (scan_misses _ _ _ Hpost).
  - pose proof cardinalDictionary_labels as Hall.
    rewrite Forall_forall in Hall. apply Hall. rewrite Htbl.
    apply elem_of_app. right. apply list_elem_of_here.
Qed.

Lemma check_cardinality_outside (value : Q) :
  (round value 3 < 0 \/ 360.000001 <= round value 3)%Q ->
  check_cardinality value = None.
Proof.
  intros Hr. rewrite check_cardinality_scan. apply scan_misses.
  destruct Hr as [Hr|Hr].
  - eapply chained_below; [apply cardinalDictionary_chained | exact Hr].
  - eapply chained_above; [apply cardinalDictionary_chained | exact Hr].
Qed.

Lemma round3_degrees (value : Q) :
  (0 <= value <= 360)%Q -> (0 <= round value 3 < 360.000001)%Q.
Proof.
  intros [H0 H1].
  destruct (round3_bounds 0 360 value) as [Hlo Hhi]; [exact H0 | exact H1 |].
  change (inject_Z 0) with 0%Q in Hlo. change (inject_Z 360) with 360%Q in Hhi.
  split; [exact Hlo|]. eapply Qle_lt_trans; [exact Hhi | reflexivity].
Qed.

(** C3.  The table has 33 bins and 32 distinct labels; every value of
    [[0, 360)] matches exactly one bin (the list of matching bins has one
    element) and [check_cardinality] returns that bin's label, one of the
    32; and the three boundary values of the specification. *)
Theorem check_cardinality_total :
  (length cardinalDictionary = 33%nat /\ length labels = 32%nat /\ NoDup labels)
  /\ (forall value : Q, (0 <= value < 360)%Q ->
       exists bin,
         List.filter (bin_matches value) cardinalDictionary = [bin]
         /\ check_cardinality value = Some (bin_label (fst bin))
         /\ In (bin_label (fst bin)) labels)
  /\ check_cardinality 0 = Some "N"%string
  /\ check_cardinality 359.9999 = Some "N"%string
  /\ check_cardinality 45 = Some "NE"%string.
Proof.
  split; [|split; [|split; [|split]]].
  - split; [reflexivity | split; [reflexivity |]].
    apply (bool_decide_unpack _). vm_compute. exact I.
  - intros value [H0 H1]. apply check_cardinality_inside. apply round3_degrees. lra.
  - apply check_cardinality_0.
  - apply check_cardinality_359_9999.
  - apply check_cardinality_45.
Qed.

Lemma check_cardinality_total_witness :
  exists bin,
    List.filter (bin_matches 123.456) cardinalDictionary = [bin]
    /\ check_cardinality 123.456 = Some (bin_label (fst bin))
    /\ In (bin_label (fst bin)) labels.
Proof.
  apply (proj1 (proj2 check_cardinality_total) 123.456%Q).
  split; [intros E; discriminate E | reflexivity].
Defined.

(** *** [get_dir]: the two branches, on the angle over the reals *)

Section DirectionFacts.
Local Open Scope R_scope.

Lemma degrees_PI : degrees PI = 180.
Proof. unfold degrees. pose proof PI_RGT_0. field. lra. Qed.

Lemma get_dir_nonneg (easting northing : R) :
  0 <= degrees (atan2 easting northing) ->
  get_dir easting northing = 180 + degrees (atan2 easting northing).
Proof.
  intros H. unfold get_dir. destruct (Rge_dec _ 0); [reflexivity | lra].
Qed.

Lemma get_dir_neg (easting northing : R) :
  degrees (atan2 easting northing) < 0 ->
  get_dir easting northing = - degrees (atan2 easting northing).
Proof.
  intros H. unfold get_dir. destruct (Rge_dec _ 0); [lra|].
  destruct (Rlt_dec _ 0); [reflexivity | lra].
Qed.

Lemma atan2_north : atan2 0 1 = 0.
Proof.
  unfold atan2. destruct (Rlt_dec 0 1); [|lra].
  replace (0 / 1) with 0 by field. apply atan_0.
Qed.

Lemma atan2_south : atan2 0 (-1) = PI.
Proof.
  unfold atan2. destruct (Rlt_dec 0 (-1)); [lra|].
  destruct (Rlt_dec (-1) 0); [|lra]. destruct (Rle_dec 0 0); [|lra].
  replace (0 / -1) with 0 by field. rewrite atan_0. lra.
Qed.

Lemma get_dir_north : get_dir 0 1 = 180.
Proof.
  rewrite get_dir_nonneg; rewrite atan2_north; unfold degrees; lra.
Qed.

Lemma get_dir_south : get_dir 0 (-1) = 360.
Proof.
  rewrite get_dir_nonneg; rewrite atan2_south, degrees_PI; lra.
Qed.

(** C4, as the code has it: the two branches of [get_dir], the value
    180 at [(0, 1)], and the value 360 at [(0, -1)], where the raw
    angle is [+180] and so takes the first branch. *)
Theorem get_dir_spec :
  (forall easting northing : R,
      (0 <= degrees (atan2 easting northing) ->
       get_dir easting northing = 180 + degrees (atan2 easting northing))
      /\ (degrees (atan2 easting northing) < 0 ->
          get_dir easting northing = - degrees (atan2 easting northing)))
  /\ get_dir 0 1 = 180
  /\ get_dir 0 (-1) = 360.
Proof.
  split; [|split].
  - intros easting northing. split; [apply get_dir_nonneg | apply get_dir_neg].
  - exact get_dir_north.
  - exact get_dir_south.
Qed.

Lemma get_dir_spec_witness :
  get_dir 0 1 = 180 + degrees (atan2 0 1).
Proof.
  apply (proj1 (proj1 get_dir_spec 0 1)).
  rewrite atan2_north. unfold degrees. lra.
Defined.

(** C4 as the specification states it fails at [(0, -1)]: the code
    returns 360 there, not 180. *)
Lemma get_dir_south_not_180 :
  ~ (get_dir 0 1 = 180 /\ get_dir 0 (-1) = 180).
Proof.
  intros [_ H]. rewrite get_dir_south in H. lra.
Qed.

End DirectionFacts.

(** *** From [get_dir] to [check_cardinality], on floats *)

Lemma degrees_range (a : Q) :
  (Qabs a <= Floating.pi)%Q -> (-180 <= Floating.degrees a <= 180)%Q.
Proof.
  intros Ha. apply Qabs_Qle_condition in Ha. destruct Ha as [Hlo Hhi].
  assert (Hr : (0 < Floating.radToDeg)%Q) by reflexivity.
  unfold Floating.degrees, float_mul. split.
  - assert (E : float_of_Q (- Floating.pi * Floating.radToDeg) = (-180)%Q)
      by (vm_compute; reflexivity).
    rewrite <- E. apply float_of_Q_mono, Qmult_le_compat_r; [exact Hlo|lra].
  - assert (E : float_of_Q (Floating.pi * Floating.radToDeg) = 180%Q)
      by (vm_compute; reflexivity).
    rewrite <- E. apply float_of_Q_mono, Qmult_le_compat_r; [exact Hhi|lra].
Qed.

Lemma binary64_opp (q : Q) : binary64 q -> binary64 (- q).
Proof. unfold binary64. intros H. rewrite float_of_Q_opp, H. reflexivity. Qed.

(** [get_dir] on two finite floats: a float of [(0, 360]]. *)
Lemma get_dir_range_float (atan2 : Q -> Q -> Q) (easting northing : Q) :
  (Qabs (atan2 easting northing) <= Floating.pi)%Q ->
  exists base : Q,
    Floating.get_dir atan2 (Number easting) (Number northing) = Number base
    /\ binary64 base /\ (0 < base <= 360)%Q.
Proof.
  intros Ha. destruct (degrees_range _ Ha) as [Hlo Hhi].
  unfold Floating.get_dir. cbv zeta.
  set (degout := Floating.degrees (atan2 easting northing)) in *.
  assert (Bd : binary64 degout) by apply binary64_float_of_Q.
  destruct (Qle_bool 0 degout) eqn:E.
  - apply Qle_bool_iff in E. eexists. split; [reflexivity|].
    split; [apply binary64_float_of_Q|].
    assert (H1 : (180 <= float_add 180 degout)%Q).
    { apply float_of_Q_ge; [reflexivity|lra]. }
    assert (H2 : (float_add 180 degout <= 360)%Q).
    { apply float_of_Q_le; [exact binary64_360|lra]. }
    lra.
  - apply Qle_bool_gt in E.
    assert (E' : Qltb degout 0 = true) by (apply Qltb_lt; exact E).
    rewrite E'. eexists. split; [reflexivity|].
    split; [apply binary64_opp, Bd|lra].
Qed.

(** The float [ncard * 45.0] of line 484, for the eight slices. *)
Lemma slice_offset_range (ncard : nat) :
  (ncard <= 7)%nat -> (0 <= float_mul (inject_Z (Z.of_nat ncard)) 45.0 <= 360)%Q.
Proof.
  intros Hn.
  assert (H0 : (inject_Z 0 <= inject_Z (Z.of_nat ncard))%Q) by (rewrite <- Zle_Qle; lia).
  assert (H7 : (inject_Z (Z.of_nat ncard) <= inject_Z 7)%Q) by (rewrite <- Zle_Qle; lia).
  change (inject_Z 0) with 0%Q in H0. change (inject_Z 7) with 7%Q in H7.
  unfold float_mul. split.
  - apply float_of_Q_nonneg. lra.
  - apply float_of_Q_le; [exact binary64_360|lra].
Qed.

(** The direction of slice [ncard] (lines 483-484). *)
Lemma slice_direction_range (base : Q) (ncard : nat) :
  binary64 base -> (0 < base <= 360)%Q -> (ncard <= 7)%nat ->
  (0 < check_degrees (check_degrees base 22.5) (float_mul (inject_Z (Z.of_nat ncard)) 45.0)
   <= 360)%Q.
Proof.
  intros Bb Hb Hn. apply check_degrees_range.
  - apply check_degrees_binary64.
  - apply check_degrees_range; [exact Bb|exact Hb|].
    split; [intros E; discriminate E | intros E; discriminate E].
  - apply slice_offset_range, Hn.
Qed.

(** C10, in binary64.  For two finite floats, on which the [atan2] of
    the C library returns an angle of magnitude at most [math.pi],
    [get_dir] returns a float [base] of [(0, 360]]; for each of the eight
    slices the degree value that reaches [check_cardinality] after the
    two [check_degrees] additions is in [(0, 360]] and
    [check_cardinality] returns a label for it; and [check_cardinality]
    has no result ([None], the unbound local) exactly for the values
    whose rounding to 3 decimals is outside [[0, 360.000001)]. *)
Theorem get_dir_slices_have_labels
    (atan2 : Q -> Q -> Q) (easting northing : Q) (ncard : nat) :
  (Qabs (atan2 easting northing) <= Floating.pi)%Q ->
  (ncard <= 7)%nat ->
  exists base : Q,
    Floating.get_dir atan2 (Number easting) (Number northing) = Number base
    /\ (0 < base <= 360)%Q
    /\ (0 < check_degrees (check_degrees base 22.5)
                          (float_mul (inject_Z (Z.of_nat ncard)) 45.0) <= 360)%Q
    /\ (exists label,
          Floating.check_cardinality
            (Floating.check_degrees
               (Floating.check_degrees
                  (Floating.get_dir atan2 (Number easting) (Number northing)) (Number 22.5))
               (Number (float_mul (inject_Z (Z.of_nat ncard)) 45.0)))
          = Some label /\ In label labels)
    /\ (forall value : Q,
          check_cardinality value = None
          <-> (round value 3 < 0 \/ 360.000001 <= round value 3)%Q).
Proof.
  intros Ha Hn.
  destruct (get_dir_range_float atan2 easting northing Ha) as (base & Hbase & Bb & Hb).
  pose proof (slice_direction_range base ncard Bb Hb Hn) as Hv.
  exists base. split; [exact Hbase|]. split; [exact Hb|]. split; [exact Hv|]. split.
  - rewrite Hbase. cbn [Floating.check_degrees Floating.check_cardinality].
    destruct (check_cardinality_inside
                (check_degrees (check_degrees base 22.5)
                               (float_mul (inject_Z (Z.of_nat ncard)) 45.0)))
      as (bin & _ & Hres & Hin).
    + apply round3_degrees. lra.
    + exists (bin_label (fst bin)). split; assumption.
  - intros value. split; [|apply check_cardinality_outside].
    intros Hnone.
    destruct (Qlt_le_dec (round value 3) 0) as [Hlt|Hge]; [left; exact Hlt|].
    destruct (Qlt_le_dec (round value 3) 360.000001) as [Hin|Hout]; [|right; exact Hout].
    destruct (check_cardinality_inside value) as (bin & _ & Hres & _); [lra|].
    congruence.
Qed.

Lemma get_dir_slices_have_labels_witness :
  exists base : Q,
    Floating.get_dir Records.atan2 (Number 0) (Number 1) = Number base
    /\ (0 < base <= 360)%Q
    /\ exists label,
         Floating.check_cardinality
           (Floating.check_degrees
              (Floating.check_degrees
                 (Floating.get_dir Records.atan2 (Number 0) (Number 1)) (Number 22.5))
              (Number (float_mul (inject_Z (Z.of_nat 3)) 45.0)))
         = Some label /\ In label labels.
Proof.
  destruct (get_dir_slices_have_labels Records.atan2 0 1 3%nat) as (base & H1 & H2 & _ & H3 & _).
  - vm_compute. intros E; discriminate E.
  - lia.
  - exists base. split; [exact H1|]. split; [exact H2|exact H3].
Defined.

(** C10 as the specification states it fails for a pair that holds a
    NaN, which is what a blank cell of the spreadsheet is read as:
    [get_dir] returns NaN, no value of [(0, 360]], the two additions
    return NaN, and [check_cardinality] has no result. *)
Lemma get_dir_nan_has_no_label :
  Floating.get_dir Records.atan2 NaN (Number 1) = NaN
  /\ Floating.check_cardinality
       (Floating.check_degrees
          (Floating.check_degrees (Floating.get_dir Records.atan2 NaN (Number 1)) (Number 22.5))
          (Number (float_mul (inject_Z (Z.of_nat 0)) 45.0)))
     = None.
Proof. split; reflexivity. Qed.

(** On floats too [get_dir] is 180 at the north and 360 at the south,
    where the C library returns the angles 0 and [math.pi]. *)
Example get_dir_float_axes :
  Floating.get_dir Records.atan2 (Number 0) (Number 1) = Number 180
  /\ Floating.get_dir Records.atan2 (Number 0) (Number (-1)) = Number 360.
Proof. split; vm_compute; reflexivity. Qed.

End GeometryFacts.

(** ** Facts on [time_convert] *)

Module TimestampFacts.
Import Num Text Float Timestamp.

Example repr_one_24th : (repr_value (float_div 3600 86400) == 0.041666666666666664)%Q.
Proof. vm_compute. reflexivity. Qed.

(** C9 fails on the code: at one o'clock sharp, 3600 seconds after
    midnight, [3600 / 86400] is the float 0.041666666666666664, a little
    under 1/24, and [time_convert] returns 00:59:59.9 where the exact
    decomposition of 3600 is 01:00:00.0. *)
Theorem time_convert_drifts :
  time_convert "181204_182503563.jpg" 3600 = Some (Datetime 2018 12 4 0 59 59 900000)
  /\ exact_time_of_day 3600 = (1, 0, 0, 0).
Proof. split; vm_compute; reflexivity. Qed.

(** Where the day fraction is a binary fraction the two agree. *)
Example time_convert_noon :
  time_convert "181204_182503563.jpg" 43200 = Some (Datetime 2018 12 4 12 0 0 0)
  /\ exact_time_of_day 43200 = (12, 0, 0, 0).
Proof. split; vm_compute; reflexivity. Qed.

End TimestampFacts.

(** ** Facts on the dictionary monad *)

Module PyFacts.
Import Py.
Local Open Scope py_scope.

Lemma bind_Ok {A B} (c : W A) (f : A -> W B) d b d2 ws :
  bind c f d = Ok (b, d2, ws) ->
  exists a d1 w1 w2,
    c d = Ok (a, d1, w1) /\ f a d1 = Ok (b, d2, w2) /\ ws = w1 ++ w2.
Proof.
  unfold bind. destruct (c d) as [[[a d1] w1]|e]; [|discriminate].
  destruct (f a d1) as [[[b' d2'] w2]|e] eqn:E; [|discriminate].
  intros H. injection H as -> -> <-. exists a, d1, w1, w2. auto.
Qed.

Lemma bind_Raise {A B} (c : W A) (f : A -> W B) d e :
  bind c f d = Raise e ->
  c d = Raise e \/ exists a d1 w1, c d = Ok (a, d1, w1) /\ f a d1 = Raise e.
Proof.
  unfold bind. destruct (c d) as [[[a d1] w1]|e'].
  - destruct (f a d1) as [[[b' d2'] w2]|e''] eqn:E; [discriminate|].
    intros H. injection H as ->. right. exists a, d1, w1. auto.
  - intros H. injection H as ->. left. reflexivity.
Qed.


Section Sound.
Context (P : string -> Prop).

Lemma sound_pure {A} (c : W A) :
  (forall d a d' ws, c d = Ok (a, d', ws) -> d' = d /\ ws = []) -> sound P c.
Proof.
  intros Hc d a d' ws H. destruct (Hc _ _ _ _ H) as [-> ->].
  repeat split; auto. intros k Hk. inversion Hk.
Qed.

Lemma sound_ret {A} (a : A) : sound P (ret a).
Proof. apply sound_pure. unfold ret. intros; simplify_eq; auto. Qed.

Lemma sound_raise {A} (e : exn) : sound P (@raise A e).
Proof. apply sound_pure. unfold raise. intros; simplify_eq. Qed.

Lemma sound_lift {A} (r : result A) : sound P (lift r).
Proof. apply sound_pure. unfold lift. intros; destruct r; simplify_eq; auto. Qed.

Lemma sound_lookup key : sound P (lookup key).
Proof.
  apply sound_pure. unfold lookup. intros d a d' ws H.
  destruct (d !! key); simplify_eq; auto.
Qed.

Lemma sound_has_key key : sound P (has_key key).
Proof. apply sound_pure. unfold has_key. intros; simplify_eq; auto. Qed.

Lemma sound_snapshot : sound P snapshot.
Proof. apply sound_pure. unfold snapshot. intros; simplify_eq; auto. Qed.

Lemma sound_assign key v : P key -> sound P (assign key v).
Proof.
  intros HP d a d' ws H. unfold assign in H. simplify_eq.
  split; [|split; [|split]].
  - constructor; [exact HP | constructor].
  - intros k Hk. apply lookup_insert_ne. intros ->. apply Hk. left.
  - intros k Hk. apply list_elem_of_singleton in Hk. subst k.
    rewrite lookup_insert_eq. eauto.
  - intros k Hk. destruct (decide (key = k)) as [->|Hne].
    + rewrite lookup_insert_eq. eauto.
    + rewrite lookup_insert_ne; assumption.
Qed.

Lemma sound_bind {A B} (c : W A) (f : A -> W B) :
  sound P c -> (forall a, sound P (f a)) -> sound P (bind c f).
Proof.
  intros Hc Hf d b d2 ws H.
  apply bind_Ok in H as (a & d1 & w1 & w2 & H1 & H2 & ->).
  destruct (Hc _ _ _ _ H1) as (P1 & F1 & S1 & M1).
  destruct (Hf a _ _ _ _ H2) as (P2 & F2 & S2 & M2).
  split; [|split; [|split]].
  - apply Forall_app. split; assumption.
  - intros k Hk. rewrite F2, F1; [reflexivity | |]; set_solver.
  - intros k Hk. apply elem_of_app in Hk.
    destruct (decide (k ∈ w2)) as [Hin|Hout]; [apply S2; exact Hin|].
    destruct Hk as [Hk|Hk]; [|contradiction]. apply M2, S1, Hk.
  - intros k Hk. apply M2, M1, Hk.
Qed.

Lemma sound_when (b : bool) (c : W unit) : sound P c -> sound P (when b c).
Proof. intros Hc. destruct b; simpl; [exact Hc | apply sound_ret]. Qed.

Lemma sound_for_each {A} (items : list A) (body : A -> W unit) :
  (forall x, sound P (body x)) -> sound P (for_each items body).
Proof.
  intros Hb. induction items as [|x rest IH]; simpl.
  - apply sound_ret.
  - apply sound_bind; [apply Hb | intros _; exact IH].
Qed.

Lemma sound_for_each_Forall {A} (items : list A) (body : A -> W unit) :
  Forall (fun x => sound P (body x)) items -> sound P (for_each items body).
Proof.
  induction 1 as [|x rest Hx _ IH]; simpl.
  - apply sound_ret.
  - apply sound_bind; [exact Hx | intros _; exact IH].
Qed.

End Sound.

Lemma sound_weaken (P Q : string -> Prop) {A} (c : W A) :
  (forall k, P k -> Q k) -> sound P c -> sound Q c.
Proof.
  intros HPQ Hc d a d' ws H. destruct (Hc _ _ _ _ H) as (HP & HF & HS & HM).
  repeat split; try assumption. eapply Forall_impl; eauto.
Qed.

Create HintDb sound.
#[export] Hint Resolve sound_ret sound_raise sound_lift sound_lookup sound_has_key
  sound_snapshot : sound.

(** One step through a computation: a [bind], a loop, a conditional, a
    primitive, or a lemma of the hint base. *)
Ltac sound_step :=
  first
    [ apply sound_bind; [|intros ?]
    | apply sound_when
    | apply sound_for_each; intros ?
    | apply sound_assign; reflexivity
    | solve [eauto 2 with sound]
    | match goal with
      | |- sound _ (let '(_, _) := ?x in _) => destruct x
      | |- sound _ (if ?b then _ else _) => destruct b
      | |- sound _ (match ?x with _ => _ end) => destruct x
      end ].

Ltac sound_steps := repeat sound_step.

End PyFacts.


(** ** Facts on the pipeline *)

Module PipelineFacts.
Import Num Text Float Geometry Py Pipeline PyFacts.
Local Open Scope string_scope.
Local Open Scope py_scope.


Lemma spared_not_Direction k : spared k -> not_Direction k.
Proof.
  unfold spared, not_Direction. intros H.
  apply andb_true_iff in H as [H _]. apply negb_true_iff in H. exact H.
Qed.

Lemma sound_object_bounds indices : sound spared (object_bounds indices).
Proof.
  induction indices as [|i rest IH]; simpl; [apply sound_ret|].
  unfold object_bound. sound_steps.
Qed.

Lemma sound_get_object_bounds : sound spared get_object_bounds.
Proof.
  unfold get_object_bounds. sound_steps; apply sound_object_bounds.
Qed.

Lemma sound_merge_caption r : sound spared (merge_caption r).
Proof. unfold merge_caption. sound_steps. Qed.

Lemma sound_merge_metadata r : sound spared (merge_metadata r).
Proof. unfold merge_metadata. sound_steps. Qed.

Lemma sound_merge_image_type r : sound spared (merge_image_type r).
Proof. unfold merge_image_type. sound_steps. Qed.

Lemma sound_merge_color r : sound spared (merge_color r).
Proof. unfold merge_color. sound_steps. Qed.

Lemma sound_merge_entry prefix n obj :
  (forall rest, spared (prefix ++ rest)) -> sound spared (merge_entry prefix n obj).
Proof.
  intros Hp. unfold merge_entry. sound_steps. apply sound_assign, Hp.
Qed.

Lemma sound_merge_indexed field count prefix r :
  spared count -> (forall rest, spared (prefix ++ rest)) ->
  sound spared (merge_indexed field count prefix r).
Proof.
  intros Hc Hp. unfold merge_indexed.
  sound_steps; apply sound_assign; first [exact Hc | apply Hp].
Qed.

Lemma sound_merge_description_tags r : sound spared (merge_description_tags r).
Proof. unfold merge_description_tags. sound_steps. Qed.

Lemma sound_merge_parent n k p : sound spared (merge_parent n k p).
Proof. unfold merge_parent. sound_steps. Qed.

#[export] Hint Resolve sound_merge_parent : sound.

Lemma sound_merge_parents n obj : sound spared (merge_parents n obj).
Proof. unfold merge_parents. sound_steps. Qed.

#[export] Hint Resolve sound_merge_parents : sound.

Lemma sound_merge_object nobj obj : sound spared (merge_object nobj obj).
Proof. unfold merge_object. sound_steps. Qed.

#[export] Hint Resolve sound_merge_object : sound.

Lemma sound_merge_objects r : sound spared (merge_objects r).
Proof. unfold merge_objects. sound_steps. Qed.

Lemma sound_enrich r : sound spared (enrich r).
Proof.
  unfold enrich.
  repeat (apply sound_bind; [|intros _]).
  - apply sound_merge_caption.
  - apply sound_merge_metadata.
  - apply sound_merge_image_type.
  - apply sound_merge_color.
  - apply sound_merge_indexed; [reflexivity | intros rest; reflexivity].
  - apply sound_merge_indexed; [reflexivity | intros rest; reflexivity].
  - apply sound_merge_description_tags.
  - apply sound_merge_objects.
Qed.

(** *** What a returning primitive did *)

Lemma lift_Ok {A} (r : result A) d a d' ws :
  lift r d = Ok (a, d', ws) -> r = Ok a /\ d' = d /\ ws = [].
Proof. unfold lift. destruct r; intros H; simplify_eq; auto. Qed.

Lemma lookup_Ok key d v d' ws :
  lookup key d = Ok (v, d', ws) -> d !! key = Some v /\ d' = d /\ ws = [].
Proof. unfold lookup. destruct (d !! key); intros H; simplify_eq; auto. Qed.

Lemma assign_Ok key v d a d' ws :
  assign key v d = Ok (a, d', ws) -> d' = <[key := v]> d /\ ws = [key].
Proof. unfold assign. intros H; simplify_eq; auto. Qed.

Lemma snapshot_Ok d a d' ws :
  snapshot d = Ok (a, d', ws) -> a = d /\ d' = d /\ ws = [].
Proof. unfold snapshot. intros H; simplify_eq; auto. Qed.

Lemma ret_Ok {A} (x : A) d a d' ws :
  ret x d = Ok (a, d', ws) -> a = x /\ d' = d /\ ws = [].
Proof. unfold ret. intros H; simplify_eq; auto. Qed.

Ltac peel H H1 :=
  let a := fresh "a" in
  let d := fresh "d" in
  let w1 := fresh "w" in
  let w2 := fresh "w" in
  apply bind_Ok in H as (a & d & w1 & w2 & H1 & H & ->).

(** *** One iteration of the slice loop *)

Lemma sound_cardinal_slice svc cfg imageName containerOut img ncard area :
  sound not_Direction (cardinal_slice svc cfg imageName containerOut img ncard area).
Proof.
  unfold cardinal_slice.
  repeat first
    [ apply (sound_weaken spared not_Direction _ spared_not_Direction (sound_enrich _))
    | apply (sound_weaken spared not_Direction _ spared_not_Direction sound_get_object_bounds)
    | sound_step ].
Qed.

(** A returning iteration ran on a dictionary holding a numeric
    [Direction]; it hands to the store the box it was given and the
    stringified dictionary as it left it, in which [Direction] is
    unchanged and [Cardinal_Direction] is the direction computed at
    lines 483-484. *)
Lemma cardinal_slice_Ok svc cfg imageName containerOut img ncard area d r d' ws :
  cardinal_slice svc cfg imageName containerOut img ncard area d = Ok (r, d', ws) ->
  exists direction base name data,
    d !! "Direction" = Some direction /\ operand direction = Some base
    /\ r = (area, containerOut, name, data, py_str <$> d')
    /\ create_blob_from_bytes svc containerOut name data (py_str <$> d') = Ok tt
    /\ d' !! "Direction" = Some direction
    /\ d' !! "Cardinal_Direction"
       = Some (VFloat (check_degrees (check_degrees base 22.5)
                                     (float_mul (inject_Z (Z.of_nat ncard)) 45.0))).
Proof.
  intros H. pose proof (sound_cardinal_slice _ _ _ _ _ _ _ _ _ _ _ H) as Hsound.
  unfold cardinal_slice in H.
  peel H Hcrop. apply lift_Ok in Hcrop as (Hcrop & -> & ->).
  peel H Hsave. apply lift_Ok in Hsave as (Hsave & -> & ->).
  peel H Hdir. apply lookup_Ok in Hdir as (Hdir & -> & ->).
  peel H Hbase.
  destruct (operand a1) as [base|] eqn:Hnum; [|discriminate Hbase].
  apply ret_Ok in Hbase as (-> & -> & ->).
  peel H Hlabel.
  destruct (check_cardinality _) as [label|] eqn:Hcard; [|discriminate Hlabel].
  apply ret_Ok in Hlabel as (-> & -> & ->).
  peel H H1. apply assign_Ok in H1 as (-> & ->).
  peel H H2. apply assign_Ok in H2 as (-> & ->).
  peel H H3. apply assign_Ok in H3 as (-> & ->).
  peel H H4. apply assign_Ok in H4 as (-> & ->).
  peel H H5. apply assign_Ok in H5 as (-> & ->).
  peel H Hresp. apply lift_Ok in Hresp as (Hresp & -> & ->).
  peel H Henrich. destruct (sound_enrich _ _ _ _ _ Henrich) as (Pe & Fe & _).
  peel H Hbounds. destruct (sound_get_object_bounds _ _ _ _ Hbounds) as (Pb & Fb & _).
  peel H Hdraw. apply lift_Ok in Hdraw as (Hdraw & -> & ->).
  peel H Htagged. apply lift_Ok in Htagged as (Htagged & -> & ->).
  peel H Hsnap. apply snapshot_Ok in Hsnap as (-> & -> & ->).
  peel H Hput. apply lift_Ok in Hput as (Hput & -> & ->).
  apply ret_Ok in H as (Hr & -> & ->). subst r.
  assert (Hspared : forall k w, Forall spared w -> ~ spared k -> k ∉ w).
  { intros k l Hall Hk Hin. rewrite Forall_forall in Hall. apply Hk, Hall, Hin. }
  exists a1, base. eexists. eexists.
  repeat match goal with u : unit |- _ => destruct u end.
  split; [exact Hdir|]. split; [exact Hnum|]. split; [reflexivity|].
  split; [exact Hput|]. split.
  - rewrite Fb, Fe by (eapply Hspared; [eassumption | intros E; discriminate E]).
    rewrite !lookup_insert_ne by discriminate. exact Hdir.
  - rewrite Fb, Fe by (eapply Hspared; [eassumption | intros E; discriminate E]).
    rewrite lookup_insert_ne by discriminate. apply lookup_insert_eq.
Qed.

(** *** The slice loop *)


Lemma cardinal_loop_steps body todo d kept slices out :
  cardinal_loop body todo d kept = (slices, out) ->
  exists news,
    slices = (kept ++ news)%list /\ steps body d todo news
    /\ (length news <= length todo)%nat
    /\ (out = Ok tt -> length news = length todo).
Proof.
  revert d kept. induction todo as [|[ncard area] rest IH]; simpl; intros d kept H.
  - injection H as <- <-. exists []. rewrite app_nil_r.
    repeat split; auto. constructor.
  - destruct (body ncard area d) as [[[[[[[a c] n] b] m] d'] ws]|e] eqn:Hbody.
    + apply IH in H as (news & -> & Hsteps & Hlen & Hall).
      exists (Slice a c n b m ws :: news). rewrite <- app_assoc. simpl.
      repeat split.
      * econstructor; eauto.
      * lia.
      * intros Hout. rewrite (Hall Hout). reflexivity.
    + injection H as <- <-. exists []. rewrite app_nil_r.
      repeat split; [constructor | simpl; lia | discriminate].
Qed.

Section Slices.
Context (svc : services) (cfg : config) (imageName containerOut : string) (img : image).

Local Abbreviation body := (cardinal_slice svc cfg imageName containerOut img).

(** The record stored for slice [j] holds, for a key that slices [0..j]
    did not assign, the value the dictionary had before the loop. *)
Lemma steps_untouched d todo slices j sj k :
  steps body d todo slices ->
  slices !! j = Some sj ->
  (forall m sm, (m <= j)%nat -> slices !! m = Some sm -> k ∉ slice_assigned sm) ->
  slice_metadata sj !! k = py_str <$> d !! k.
Proof.
  intros Hsteps. revert j.
  induction Hsteps as [|d ncard area todo a c n b m d' ws rest Hbody Hrest IH];
    intros j Hj Hk; [discriminate Hj|].
  pose proof (sound_cardinal_slice _ _ _ _ _ _ _ _ _ _ _ Hbody) as (_ & Hframe & _).
  assert (Hws : k ∉ ws) by (apply (Hk 0%nat (Slice a c n b m ws)); [lia | reflexivity]).
  destruct j as [|j]; simpl in Hj.
  - injection Hj as <-. simpl.
    apply cardinal_slice_Ok in Hbody as (? & ? & ? & ? & _ & _ & Hr & _).
    injection Hr as _ _ _ _ ->. rewrite lookup_fmap, (Hframe _ Hws). reflexivity.
  - rewrite (IH j Hj), (Hframe _ Hws); [reflexivity|].
    intros m' sm Hm Hsm. apply (Hk (S m') sm); [lia | exact Hsm].
Qed.

(** The dictionary is shared: what slice [i] stored under a key that the
    slices after it, up to [j], did not assign is what slice [j] stores
    under that key. *)
Lemma steps_shared d todo slices i j si sj k :
  steps body d todo slices ->
  slices !! i = Some si -> slices !! j = Some sj -> (i < j)%nat ->
  (forall m sm, (i < m <= j)%nat -> slices !! m = Some sm -> k ∉ slice_assigned sm) ->
  slice_metadata sj !! k = slice_metadata si !! k.
Proof.
  intros Hsteps. revert i j.
  induction Hsteps as [|d ncard area todo a c n b m d' ws rest Hbody Hrest IH];
    intros i j Hi Hj Hij Hk; [discriminate Hi|].
  destruct j as [|j]; [lia|]. simpl in Hj.
  destruct i as [|i]; simpl in Hi.
  - injection Hi as <-. simpl.
    apply cardinal_slice_Ok in Hbody as (? & ? & ? & ? & _ & _ & Hr & _).
    injection Hr as _ _ _ _ ->. rewrite lookup_fmap.
    apply (steps_untouched _ _ _ _ _ _ Hrest Hj).
    intros m' sm Hm Hsm. apply (Hk (S m') sm); [lia | exact Hsm].
  - apply (IH i j Hi Hj); [lia|].
    intros m' sm Hm Hsm. apply (Hk (S m') sm); [lia | exact Hsm].
Qed.

(** A key that a slice assigned is in the record it stored. *)
Lemma steps_assigned d todo slices i si k :
  steps body d todo slices ->
  slices !! i = Some si -> k ∈ slice_assigned si -> is_Some (slice_metadata si !! k).
Proof.
  intros Hsteps. revert i.
  induction Hsteps as [|d ncard area todo a c n b m d' ws rest Hbody Hrest IH];
    intros i Hi Hk; [discriminate Hi|].
  destruct i as [|i]; simpl in Hi; [|eapply IH; eauto].
  injection Hi as <-. simpl in *.
  pose proof (sound_cardinal_slice _ _ _ _ _ _ _ _ _ _ _ Hbody) as (_ & _ & Hin & _).
  apply cardinal_slice_Ok in Hbody as (? & ? & ? & ? & _ & _ & Hr & _).
  injection Hr as _ _ _ _ ->. rewrite lookup_fmap.
  destruct (Hin k Hk) as [v ->]. simpl. eauto.
Qed.


End Slices.

(** *** [process_cardinal_images] *)


Lemma areas_boxes :
  areas = [ (0, 1550, 1000, 2550); (1000, 1550, 2000, 2550); (2000, 1550, 3000, 2550);
            (3000, 1550, 4000, 2550); (4000, 1550, 5000, 2550); (5000, 1550, 6000, 2550);
            (6000, 1550, 7000, 2550); (7000, 1550, 8000, 2550) ]%Z.
Proof. reflexivity. Qed.

Lemma enumerate_areas (i ncard : nat) (area : crop_box) :
  enumerate areas !! i = Some (ncard, area) ->
  ncard = i /\ area = (Z.of_nat i * 1000, 1550, Z.of_nat i * 1000 + 1000, 2550)%Z.
Proof.
  rewrite areas_boxes. unfold enumerate. simpl.
  do 8 (destruct i as [|i]; [intros H; injection H as <- <-; split; reflexivity|]).
  intros H. discriminate H.
Qed.

(** What a call stored came out of the slice loop, run on the prepared
    dictionary; all eight slices are there unless an exception ended the
    call. *)
Lemma process_cardinal_images_stored svc cfg b containerIn containerOut :
  let r := process_cardinal_images svc cfg b containerIn containerOut in
  (stored r = [] /\ ~ (outcome r = Ok None /\ printed r = []))
  \/ exists stored_metadata img d ws,
       get_blob_metadata svc containerIn (blob_name b) = Ok stored_metadata
       /\ prepare svc containerIn (blob_name b) (VStr <$> stored_metadata) = Ok (img, d, ws)
       /\ steps (cardinal_slice svc cfg (blob_name b) containerOut img)
                d (enumerate areas) (stored r)
       /\ (length (stored r) <= 8)%nat
       /\ (outcome r = Ok None -> printed r = [] -> length (stored r) = 8%nat).
Proof.
  unfold process_cardinal_images.
  assert (Hearly : forall e : exn,
             let r := handler (A := unit) [] [] e in
             stored r = [] /\ ~ (outcome r = Ok None /\ printed r = [])).
  { intros e. unfold handler. destruct (exn_args e); simpl; split; try reflexivity.
    - intros [H _]. discriminate H.
    - intros [_ H]. discriminate H. }
  destruct (get_blob_metadata svc containerIn (blob_name b)) as [m|e] eqn:Hm;
    [|left; apply Hearly].
  destruct (prepare svc containerIn (blob_name b) (VStr <$> m)) as [[[img d] ws]|e] eqn:Hprep;
    [|left; apply Hearly].
  destruct (cardinal_loop _ _ d []) as [slices out] eqn:Hloop.
  apply cardinal_loop_steps in Hloop as (news & -> & Hsteps & Hlen & Hall).
  simpl in *. right. exists m, img, d, ws.
  destruct out as [[]|ex]; [|unfold handler; destruct (exn_args ex)]; simpl;
    (split; [reflexivity | split; [exact Hprep | split; [exact Hsteps | split; [exact Hlen|]]]]).
  - intros _ _. apply Hall. reflexivity.
  - intros H. discriminate H.
  - intros _ H. discriminate H.
Qed.



(** The direction stored is the float that the code computes: for the
    stored direction 118.1245 the sixth slice persists
    5.624500000000012. *)
Example slice_direction_rounded :
  float_of_string "118.1245" = Some (8312272721614471 # 70368744177664)
  /\ py_str (VFloat (check_degrees (check_degrees (8312272721614471 # 70368744177664) 22.5)
                                   (float_mul (inject_Z (Z.of_nat 5)) 45.0)))
     = "5.624500000000012".
Proof. split; vm_compute; reflexivity. Qed.

(** C2.  The eight records of a photosphere are built in one dictionary:
    a key that slice [i] assigned is in the record stored for slice [i],
    and when no slice after [i] up to [j] assigned it again, the record
    stored for slice [j] holds it with the same value. *)
Theorem slices_share_dictionary svc cfg b containerIn containerOut
    (i j : nat) (si sj : slice) (k : string) :
  let r := process_cardinal_images svc cfg b containerIn containerOut in
  stored r !! i = Some si -> stored r !! j = Some sj -> (i < j)%nat ->
  k ∈ slice_assigned si ->
  (forall m sm, (i < m <= j)%nat -> stored r !! m = Some sm -> k ∉ slice_assigned sm) ->
  is_Some (slice_metadata si !! k)
  /\ slice_metadata sj !! k = slice_metadata si !! k.
Proof.
  intros r Hi Hj Hij Hk Hlater.
  pose proof (process_cardinal_images_stored svc cfg b containerIn containerOut) as Hst.
  cbv zeta in Hst. fold r in Hst.
  destruct Hst as [[Hnone _] | (m & img & d & ws & Hm & Hprep & Hsteps & _)].
  - rewrite Hnone in Hi. discriminate Hi.
  - split.
    + eapply steps_assigned; eauto.
    + eapply steps_shared; eauto.
Qed.

Lemma lookup_nth {A} (l : list A) (i : nat) (dflt : A) :
  (i <? length l)%nat = true -> l !! i = Some (nth i l dflt).
Proof.
  intros H. apply Nat.ltb_lt in H. revert i H.
  induction l as [|x l IH]; simpl; intros i H; [lia|].
  destruct i as [|i]; [reflexivity|]. apply IH. lia.
Qed.

(** A key is assigned by none of the slices at positions [i+1 .. j] when
    the check over that segment says so. *)
Lemma not_assigned_between (slices : list slice) (i j : nat) (k : string) :
  forallb (fun s => negb (bool_decide (k ∈ slice_assigned s)))
          (firstn (j - i) (skipn (S i) slices)) = true ->
  forall m sm, (i < m <= j)%nat -> slices !! m = Some sm -> k ∉ slice_assigned sm.
Proof.
  intros Hall m sm Hm Hsm Hin.
  rewrite forallb_forall in Hall.
  assert (Hseg : In sm (firstn (j - i) (skipn (S i) slices))).
  { apply list_elem_of_In, list_elem_of_lookup. exists (m - S i)%nat.
    rewrite lookup_take_lt by lia. rewrite lookup_drop.
    replace (S i + (m - S i))%nat with m by lia. exact Hsm. }
  specialize (Hall _ Hseg). apply negb_true_iff in Hall.
  apply bool_decide_eq_false in Hall. contradiction.
Qed.

Lemma slices_share_dictionary_witness :
  slice_metadata (Sample.stored_slice 2) !! "Object_2"
  = slice_metadata (Sample.stored_slice 0) !! "Object_2".
Proof.
  refine (proj2 (slices_share_dictionary Sample.healthy Sample.cfg Sample.photosphere
                   "photospheres" "cardinal" 0 2
                   (Sample.stored_slice 0) (Sample.stored_slice 2) "Object_2" _ _ _ _ _)).
  - refine (lookup_nth (stored Sample.healthy_run) 0 Sample.no_slice _).
    vm_compute; reflexivity.
  - refine (lookup_nth (stored Sample.healthy_run) 2 Sample.no_slice _).
    vm_compute; reflexivity.
  - lia.
  - apply (bool_decide_unpack _). vm_compute. exact I.
  - refine (not_assigned_between (stored Sample.healthy_run) 0 2 "Object_2" _).
    vm_compute; reflexivity.
Defined.

(** The sample shows what sharing means: the second object of slice 1
    stays in the records of the later slices, whose own count is 1. *)
Example stale_object_in_later_slice :
  slice_metadata (Sample.stored_slice 0) !! "Number_of_Objects" = Some "2"
  /\ slice_metadata (Sample.stored_slice 2) !! "Number_of_Objects" = Some "1"
  /\ slice_metadata (Sample.stored_slice 2) !! "Object_2" = Some "car".
Proof. repeat split; vm_compute; reflexivity. Qed.

(** *** The recovery boundary *)

(** Every call ends in one of three ways: nothing was raised and nothing
    printed; an exception with a first argument was raised, and that
    argument was printed, once; or an exception with no argument was
    raised, and [ex.args[0]] let an [IndexError] out of the call. *)
Lemma process_cardinal_images_outcome svc cfg b containerIn containerOut :
  let r := process_cardinal_images svc cfg b containerIn containerOut in
  (outcome r = Ok None /\ (printed r = [] \/ exists message, printed r = [message]))
  \/ (outcome r = Raise (IndexError "tuple index out of range") /\ printed r = []).
Proof.
  unfold process_cardinal_images.
  assert (Hh : forall slices (e : exn),
             let r := handler (A := unit) slices [] e in
             (outcome r = Ok None /\ (printed r = [] \/ exists message, printed r = [message]))
             \/ (outcome r = Raise (IndexError "tuple index out of range") /\ printed r = [])).
  { intros slices e. unfold handler. destruct (exn_args e) as [|message rest]; simpl.
    - right. split; reflexivity.
    - left. split; [reflexivity | right; exists message; reflexivity]. }
  destruct (get_blob_metadata svc containerIn (blob_name b)); [|apply Hh].
  destruct (prepare _ _ _ _) as [[[img d] ws]|e]; [|apply Hh].
  destruct (cardinal_loop _ _ d []) as [slices [[]|ex]]; [|apply Hh].
  left. simpl. split; [reflexivity | left; reflexivity].
Qed.

(** The batch goes through every photosphere when no call lets an
    exception out. *)
Lemma process_batch_all svc cfg blobList containerIn containerOut :
  (forall b, b ∈ blobList ->
     outcome (process_cardinal_images svc cfg b containerIn containerOut) = Ok None) ->
  length (process_batch svc cfg blobList containerIn containerOut) = length blobList.
Proof.
  induction blobList as [|b rest IH]; simpl; intros H; [reflexivity|].
  rewrite (H b) by apply list_elem_of_here. simpl. f_equal.
  apply IH. intros b' Hb'. apply H. apply list_elem_of_further, Hb'.
Qed.

Example service_down_is_logged_once :
  let r := process_cardinal_images Sample.service_down Sample.cfg Sample.photosphere
                                   "photospheres" "cardinal" in
  outcome r = Ok None /\ printed r = [ VStr "503 Server Error" ] /\ stored r = [].
Proof. vm_compute. repeat split; reflexivity. Qed.

(** C7 fails on the code: when decoding the photosphere raises
    [MemoryError()], whose [args] is empty, the handler's [ex.args[0]]
    raises [IndexError]; nothing is printed, the exception leaves
    [process_cardinal_images], and the batch loop stops before the next
    photosphere. *)
Theorem exception_without_args_escapes :
  let r := process_cardinal_images Sample.out_of_memory Sample.cfg Sample.photosphere
                                   "photospheres" "cardinal" in
  outcome r = Raise (IndexError "tuple index out of range")
  /\ printed r = []
  /\ length (process_batch Sample.out_of_memory Sample.cfg
                           [ Sample.photosphere; Blob "181204_182504563.jpg" ]
                           "photospheres" "cardinal") = 1%nat.
Proof. vm_compute. repeat split; reflexivity. Qed.

(** *** Aggregation *)

Lemma features_of_Ok svc container names featList result :
  features_of svc container names featList = Ok result ->
  exists news,
    result = (featList ++ news)%list
    /\ Forall2 (fun name gfeature => feature_of svc container name = Ok gfeature) names news.
Proof.
  revert featList. induction names as [|name rest IH]; simpl; intros featList H.
  - injection H as <-. exists []. rewrite app_nil_r. split; [reflexivity | constructor].
  - destruct (feature_of svc container name) as [gfeature|e] eqn:Hf; [|discriminate H].
    apply IH in H as (news & -> & Hall).
    exists (gfeature :: news). rewrite <- app_assoc. split; [reflexivity|].
    constructor; assumption.
Qed.

Lemma features_of_Raise svc container names featList name e :
  name ∈ names -> feature_of svc container name = Raise e ->
  exists e', features_of svc container names featList = Raise e'.
Proof.
  revert featList. induction names as [|name' rest IH]; intros featList Hin Hf.
  - inversion Hin.
  - simpl. destruct (feature_of svc container name') as [gfeature|e'] eqn:Hf'; [|eauto].
    apply IH; [|exact Hf].
    apply elem_of_cons in Hin as [->|Hin]; [congruence | exact Hin].
Qed.

Lemma feature_of_Ok svc container name gfeature :
  feature_of svc container name = Ok gfeature ->
  exists stored_metadata ws lon lat,
    get_blob_metadata svc container name = Ok stored_metadata
    /\ restore (VStr <$> stored_metadata) = Ok (tt, properties gfeature, ws)
    /\ properties gfeature !! "Longitude" = Some lon
    /\ properties gfeature !! "Latitude" = Some lat
    /\ geometry gfeature = (lon, lat).
Proof.
  unfold feature_of.
  destruct (get_blob_metadata svc container name) as [m|e]; [|discriminate].
  destruct (bind _ _ _) as [[[gpoint metaString] ws]|e] eqn:H; [|discriminate].
  intros Hf. injection Hf as <-. simpl.
  peel H Hrestore. destruct a.
  peel H Hlon. apply lookup_Ok in Hlon as (Hlon & -> & ->).
  peel H Hlat. apply lookup_Ok in Hlat as (Hlat & -> & ->).
  apply ret_Ok in H as (-> & -> & ->).
  exists m. do 3 eexists.
  split; [reflexivity|]. split; [exact Hrestore|].
  split; [exact Hlon|]. split; [exact Hlat | reflexivity].
Qed.

Lemma handler_no_collection (out : list pyval) (ex : exn) (fc : FeatureCollection) :
  outcome (handler [] out ex) <> Ok (Some fc).
Proof. unfold handler. destruct (exn_args ex); simpl; discriminate. Qed.



(** C6 fails on the code: the record of the first slice of the sample
    is persisted as the stringified dictionary; after the restoration of
    the aggregation stage it holds the confidence of the parent of object
    1 as the text "0.75", where the dictionary held the float 0.75.  The
    confidence of the object itself comes back as a float. *)
Theorem parent_confidence_stays_text :
  Sample.first_record = py_str <$> Sample.first_cmeta
  /\ Sample.first_cmeta !! "Object_1_Parent_1_Confidence" = Some (VFloat 0.75)
  /\ Sample.first_record !! "Object_1_Parent_1_Confidence" = Some "0.75"
  /\ Sample.restored_field "Object_1_Parent_1_Confidence" = Ok (Some (VStr "0.75"))
  /\ Sample.first_cmeta !! "Object_1_Confidence" = Some (VFloat 0.5)
  /\ Sample.restored_field "Object_1_Confidence" = Ok (Some (VFloat (1 # 2))).
Proof.
  split; [apply (bool_decide_unpack _); vm_compute; exact I|].
  repeat split; vm_compute; reflexivity.
Qed.

End PipelineFacts.

(** ** Further facts on the geometry helpers *)

Module GeometryMore.
Import Num NumFacts Geometry GeometryFacts.
Local Open Scope Z_scope.

(** *** The order of the scan does not matter *)

Lemma find_misses r tbl :
  Forall (fun b => hits r b = false) tbl -> List.find (hits r) tbl = None.
Proof.
  induction 1 as [|b l Hb _ IH]; simpl; [reflexivity|]. rewrite Hb. exact IH.
Qed.

Lemma chained_first_is_last lo tbl hi r :
  chained lo tbl hi ->
  scan r tbl None = option_map (fun bin => bin_label (fst bin)) (List.find (hits r) tbl).
Proof.
  intros Hc.
  destruct (Qlt_le_dec r lo) as [Hlow|Hlo].
  { pose proof (chained_below _ _ _ _ Hc Hlow) as Hm.
    rewrite (scan_misses _ _ _ Hm), (find_misses _ _ Hm). reflexivity. }
  destruct (Qlt_le_dec r hi) as [Hin|Hhigh].
  - destruct (chained_inside _ _ _ _ Hc (conj Hlo Hin))
      as (pre & bin & post & -> & Hbin & Hpre & Hpost).
    unfold scan. rewrite fold_left_app. simpl.
    fold (scan r pre None). rewrite (scan_misses _ _ _ Hpre), Hbin.
    fold (scan r post (Some (bin_label (fst bin)))). rewrite (scan_misses _ _ _ Hpost).
    clear Hc Hpost. induction Hpre as [|b l Hb _ IH]; simpl.
    + rewrite Hbin. reflexivity.
    + rewrite Hb. exact IH.
  - pose proof (chained_above _ _ _ _ Hc Hhigh) as Hm.
    rewrite (scan_misses _ _ _ Hm), (find_misses _ _ Hm). reflexivity.
Qed.

(** X1.  The loop of [check_cardinality] keeps the last bin that matches;
    because no two bins of the table overlap, that is also the first one:
    for every value the result is the label of the first matching bin, and
    there is no result exactly when no bin matches. *)
Theorem check_cardinality_first_match (value : Q) :
  check_cardinality value
  = option_map (fun bin => bin_label (fst bin))
               (List.find (bin_matches value) cardinalDictionary).
Proof.
  rewrite check_cardinality_scan.
  apply (chained_first_is_last 0 cardinalDictionary 360.000001).
  exact cardinalDictionary_chained.
Qed.

End GeometryMore.

(** ** Further facts on text, integers and timestamps *)

Module TimestampMore.
Import Num Text Float Timestamp Py Notions.
Local Open Scope Z_scope.

Lemma pretty_N_char_digit (m : N) :
  (m < 10)%N ->
  is_digit (pretty_N_char m) = true /\ digit_value (pretty_N_char m) = Z.of_N m.
Proof.
  intros Hm.
  assert (Hcases : (m = 0 \/ m = 1 \/ m = 2 \/ m = 3 \/ m = 4 \/ m = 5 \/ m = 6
                    \/ m = 7 \/ m = 8 \/ m = 9)%N) by lia.
  destruct Hcases as [->|[->|[->|[->|[->|[->|[->|[->|[->| ->]]]]]]]]];
    split; reflexivity.
Qed.

Lemma is_digit_not_space (c : ascii) : is_digit c = true -> is_space c = false.
Proof.
  unfold is_digit, is_space. intros H.
  apply andb_true_iff in H as [H1 H2].
  apply Nat.leb_le in H1. apply Nat.leb_le in H2.
  apply orb_false_iff. split; apply andb_false_iff.
  - right. apply Nat.leb_gt. lia.
  - right. apply Nat.leb_gt. lia.
Qed.

Lemma is_digit_not_underscore (c : ascii) : is_digit c = true -> Ascii.eqb c "_" = false.
Proof.
  intros H. destruct (Ascii.eqb c "_") eqn:E; [|reflexivity].
  apply Ascii.eqb_eq in E. subst c. discriminate H.
Qed.

Lemma all_digits_pretty_N_go (x : N) (s : string) :
  all_digits s = true -> all_digits (pretty_N_go x s) = true.
Proof.
  revert s. induction (N.lt_wf_0 x) as [x _ IH]. intros s Hs.
  destruct (N.eq_dec x 0%N) as [->|Hx]; [rewrite pretty_N_go_0; exact Hs|].
  rewrite pretty_N_go_step by lia. apply IH.
  - apply N.div_lt; lia.
  - simpl. rewrite Hs, andb_true_r.
    apply pretty_N_char_digit. apply N.mod_lt. lia.
Qed.

Lemma pretty_N_go_nonempty (x : N) (s : string) :
  s <> EmptyString -> pretty_N_go x s <> EmptyString.
Proof.
  revert s. induction (N.lt_wf_0 x) as [x _ IH]. intros s Hs.
  destruct (N.eq_dec x 0%N) as [->|Hx]; [rewrite pretty_N_go_0; exact Hs|].
  rewrite pretty_N_go_step by lia. apply IH; [apply N.div_lt; lia | discriminate].
Qed.

(** Reading the digits that [pretty] wrote in front of [s] adds the
    number to the value read so far. *)
Lemma digits_pretty_N_go (x : N) (s : string) (acc : Z) (count : nat) :
  exists k : nat,
    digits (pretty_N_go x s) acc count
    = digits s (acc * 10 ^ Z.of_nat k + Z.of_N x) (count + k)
    /\ ((0 < x)%N -> (0 < k)%nat).
Proof.
  revert s acc count. induction (N.lt_wf_0 x) as [x _ IH]. intros s acc count.
  destruct (N.eq_dec x 0%N) as [->|Hx].
  - exists 0%nat. rewrite pretty_N_go_0. split; [|lia].
    f_equal; [simpl; lia | lia].
  - rewrite pretty_N_go_step by lia.
    destruct (IH (x `div` 10)%N) with (s := String (pretty_N_char (x `mod` 10)) s)
                                      (acc := acc) (count := count)
      as (k & Hk & _); [apply N.div_lt; lia|].
    exists (S k). split; [|lia]. rewrite Hk. simpl.
    destruct (pretty_N_char_digit (x `mod` 10)%N) as [Hd Hv]; [apply N.mod_lt; lia|].
    rewrite Hd, Hv. f_equal; [|lia].
    rewrite Nat2Z.inj_succ, Z.pow_succ_r by lia.
    pose proof (N.div_mod x 10 ltac:(lia)) as Hdm.
    rewrite N2Z.inj_div, N2Z.inj_mod in *. 
    assert (Hx' : Z.of_N x = 10 * (Z.of_N x / 10) + Z.of_N x mod 10).
    { apply Z.div_mod. lia. }
    change (Z.of_N 10) with 10. lia.
Qed.

Lemma lstrip_digits (s : string) : all_digits s = true -> lstrip s = s.
Proof.
  destruct s as [|c rest]; [reflexivity|]. simpl. intros H.
  apply andb_true_iff in H as [H _]. rewrite (is_digit_not_space _ H). reflexivity.
Qed.

Lemma rstrip_digits (s : string) : all_digits s = true -> rstrip s = s.
Proof.
  induction s as [|c rest IH]; [reflexivity|]. simpl. intros H.
  apply andb_true_iff in H as [Hc Hrest]. rewrite (IH Hrest).
  destruct rest; [rewrite (is_digit_not_space _ Hc)|]; reflexivity.
Qed.

Lemma sign_of_digits (s : string) : all_digits s = true -> sign_of s = (1, s).
Proof.
  destruct s as [|c rest]; [reflexivity|]. simpl. intros H.
  apply andb_true_iff in H as [H _].
  destruct c as [[] [] [] [] [] [] [] []]; try reflexivity; discriminate H.
Qed.

Lemma int_of_string_natural (x : N) :
  (0 < x)%N -> int_of_string (pretty_N_go x EmptyString) = Some (Z.of_N x).
Proof.
  intros Hx.
  pose proof (all_digits_pretty_N_go x EmptyString eq_refl) as Hall.
  unfold int_of_string, strip.
  rewrite (lstrip_digits _ Hall), (rstrip_digits _ Hall), (sign_of_digits _ Hall).
  destruct (digits_pretty_N_go x EmptyString 0 0) as (k & -> & Hk).
  simpl. specialize (Hk Hx). destruct k as [|k]; [lia|].
  f_equal. lia.
Qed.

(** X5.  An integer that the enrichment stage writes with [str] (line
    584) is read back by [int] (lines 629 and 643-646) as the same
    integer. *)
Theorem int_str_round_trip (z : Z) : py_int (VStr (py_str (VInt z))) = Ok z.
Proof.
  change (py_int (VStr (py_str (VInt z)))) with
    (match int_of_string (pretty z) with
     | Some n => Ok n
     | None => Raise (ValueError ("invalid literal for int() with base 10: '" ++ pretty z ++ "'"))
     end).
  assert (Hread : int_of_string (pretty z) = Some z); [|rewrite Hread; reflexivity].
  destruct z as [|p|p].
  - reflexivity.
  - change (pretty (Z.pos p)) with (pretty (N.pos p)).
    unfold pretty, pretty_N. destruct (decide (N.pos p = 0%N)); [discriminate|].
    rewrite int_of_string_natural by lia. reflexivity.
  - change (pretty (Z.neg p)) with (String "-" (pretty (N.pos p))).
    unfold pretty, pretty_N. destruct (decide (N.pos p = 0%N)); [discriminate|].
    pose proof (all_digits_pretty_N_go (N.pos p) EmptyString eq_refl) as Hall.
    pose proof (int_of_string_natural (N.pos p) ltac:(lia)) as Hnat.
    unfold int_of_string, strip in *.
    rewrite (lstrip_digits _ Hall), (rstrip_digits _ Hall), (sign_of_digits _ Hall) in Hnat.
    assert (Hl : lstrip (String "-" (pretty_N_go (N.pos p) EmptyString))
                 = String "-" (pretty_N_go (N.pos p) EmptyString)) by reflexivity.
    rewrite Hl.
    assert (Hr : rstrip (String "-" (pretty_N_go (N.pos p) EmptyString))
                 = String "-" (pretty_N_go (N.pos p) EmptyString)).
    { simpl. rewrite (rstrip_digits _ Hall).
      destruct (pretty_N_go (N.pos p) EmptyString) eqn:E; [|reflexivity].
      exfalso. revert E. 
      rewrite pretty_N_go_step by lia. apply pretty_N_go_nonempty. discriminate. }
    rewrite Hr. simpl.
    destruct (digits (pretty_N_go (N.pos p) EmptyString) 0 0) as [[[v count] rest]|];
      [|discriminate Hnat].
    destruct count; [discriminate Hnat|]. destruct rest; [|discriminate Hnat].
    injection Hnat as Hv. f_equal. lia.
Qed.

Lemma drop_short (n : nat) (s : string) :
  (String.length s <= n)%nat -> Text.drop n s = EmptyString.
Proof.
  revert s. induction n as [|n IH]; intros s H.
  - destruct s; [reflexivity | simpl in H; lia].
  - destruct s as [|c rest]; [reflexivity|]. simpl in *. apply IH. lia.
Qed.

(** X6.  A file name whose part before the first underscore has fewer
    than five characters has no day digits: [int('')] raises
    [ValueError], for every timestamp. *)
Theorem time_convert_short_prefix (imgname : string) (timestamp : Q) :
  (String.length (before_first "_" imgname) <= 4)%nat ->
  time_convert imgname timestamp = None.
Proof.
  intros H. unfold time_convert. rewrite (drop_short 4 _ H).
  change (int_of_string "") with (@None Z).
  destruct (int_of_string _); [destruct (int_of_string _)|]; reflexivity.
Qed.

Lemma time_convert_short_prefix_witness : time_convert "1812_1.jpg" 0 = None.
Proof. apply time_convert_short_prefix. vm_compute. lia. Defined.

(** X7.  When [time_convert] returns, the date is the one written in
    the file name (year 20YY, month, day, all valid), the time of day is
    valid, and only tenths of a second are kept. *)
Theorem time_convert_valid (imgname : string) (timestamp : Q) (d : datetime) :
  time_convert imgname timestamp = Some d ->
  int_of_string ("20" ++ slice 0 2 (before_first "_" imgname)) = Some (year d)
  /\ int_of_string (slice 2 4 (before_first "_" imgname)) = Some (month d)
  /\ int_of_string (Text.drop 4 (before_first "_" imgname)) = Some (day d)
  /\ 1 <= month d <= 12 /\ 1 <= day d <= days_in_month (year d) (month d)
  /\ 0 <= hour d <= 23 /\ 0 <= minute d <= 59 /\ 0 <= second d <= 59
  /\ exists tenths, 0 <= tenths <= 9 /\ microsecond d = 100000 * tenths.
Proof.
  unfold time_convert.
  set (namesplit := before_first "_" imgname).
  set (day := float_div timestamp 86400).
  set (hours := decimal_div (decimal_mul (decimal_mod1 (repr_value day)) 86400) 3600).
  set (minutes := decimal_div (decimal_mul (decimal_mod1 hours) 3600) 60).
  set (seconds := decimal_mul (decimal_mod1 minutes) 60).
  set (msecs := decimal_mul (decimal_mod1 seconds) 10).
  destruct (int_of_string ("20" ++ slice 0 2 namesplit)) as [y|]; [|discriminate].
  destruct (int_of_string (slice 2 4 namesplit)) as [m|]; [|discriminate].
  destruct (int_of_string (Text.drop 4 namesplit)) as [dd|]; [|discriminate].
  unfold datetime_new.
  destruct (_ && _)%bool eqn:Hok; [|discriminate].
  intros H. injection H as <-. simpl.
  repeat (apply andb_true_iff in Hok as [Hok ?]).
  repeat match goal with H : (_ <=? _) = true |- _ => apply Z.leb_le in H end.
  repeat split; try assumption; try lia.
  exists (truncate msecs). lia.
Qed.

Lemma time_convert_valid_witness :
  (0 <= hour (Datetime 2018 12 4 12 0 0 0) <= 23)%Z.
Proof.
  refine (proj1 (proj2 (proj2 (proj2 (proj2 (proj2
            (time_convert_valid "181204_182503563.jpg" 43200
               (Datetime 2018 12 4 12 0 0 0) _))))))).
  vm_compute. reflexivity.
Defined.

End TimestampMore.

(** ** Further facts on the two pipeline stages *)

Module PipelineMore.
Import Num NumFacts Text Float FloatFacts Geometry GeometryFacts Py Pipeline PyFacts PipelineFacts.
Import Notions Records TimestampMore.
Local Open Scope string_scope.
Local Open Scope py_scope.

(** *** What a slice inherits from its photosphere *)

Lemma detected_inherited k : detected k -> inherited k.
Proof.
  unfold detected, inherited. rewrite !negb_true_iff. intros H.
  simpl in H. do 5 (apply orb_false_iff in H as [_ H]). exact H.
Qed.

Lemma detected_object_bounds indices : sound detected (object_bounds indices).
Proof.
  induction indices as [|i rest IH]; simpl; [apply sound_ret|].
  unfold object_bound. sound_steps.
Qed.

Lemma detected_get_object_bounds : sound detected get_object_bounds.
Proof. unfold get_object_bounds. sound_steps; apply detected_object_bounds. Qed.

Lemma detected_merge_entry prefix n obj :
  (forall rest, detected (prefix ++ rest)) -> sound detected (merge_entry prefix n obj).
Proof. intros Hp. unfold merge_entry. sound_steps. apply sound_assign, Hp. Qed.

Lemma detected_merge_indexed field count prefix r :
  detected count -> (forall rest, detected (prefix ++ rest)) ->
  sound detected (merge_indexed field count prefix r).
Proof.
  intros Hc Hp. unfold merge_indexed.
  sound_steps; apply sound_assign; first [exact Hc | apply Hp].
Qed.

Lemma detected_merge_parent n k p : sound detected (merge_parent n k p).
Proof. unfold merge_parent. sound_steps. Qed.

Lemma detected_merge_parents n obj : sound detected (merge_parents n obj).
Proof.
  unfold merge_parents.
  repeat first [ apply detected_merge_parent | sound_step ].
Qed.

Lemma detected_merge_object nobj obj : sound detected (merge_object nobj obj).
Proof.
  unfold merge_object. repeat first [ apply detected_merge_parents | sound_step ].
Qed.

Lemma detected_enrich r : sound detected (enrich r).
Proof.
  unfold enrich.
  repeat (apply sound_bind; [|intros _]).
  - unfold merge_caption. sound_steps.
  - unfold merge_metadata. sound_steps.
  - unfold merge_image_type. sound_steps.
  - unfold merge_color. sound_steps.
  - apply detected_merge_indexed; [reflexivity | intros rest; reflexivity].
  - apply detected_merge_indexed; [reflexivity | intros rest; reflexivity].
  - unfold merge_description_tags. sound_steps.
  - unfold merge_objects. repeat first [ apply detected_merge_object | sound_step ].
Qed.

Lemma inherited_cardinal_slice svc cfg imageName containerOut img ncard area :
  sound inherited (cardinal_slice svc cfg imageName containerOut img ncard area).
Proof.
  unfold cardinal_slice.
  repeat first
    [ apply (sound_weaken detected inherited _ detected_inherited (detected_enrich _))
    | apply (sound_weaken detected inherited _ detected_inherited detected_get_object_bounds)
    | sound_step ].
Qed.

(** *** One iteration, in full *)

Lemma check_cardinality_label (value : Q) (label : string) :
  check_cardinality value = Some label -> In label labels.
Proof.
  intros H.
  destruct (Qlt_le_dec (round value 3) 0) as [Hlt|Hge].
  { rewrite check_cardinality_outside in H by (left; exact Hlt). discriminate H. }
  destruct (Qlt_le_dec (round value 3) 360.000001) as [Hin|Hout].
  - destruct (check_cardinality_inside value (conj Hge Hin)) as (bin & _ & Hres & Hlab).
    rewrite Hres in H. injection H as <-. exact Hlab.
  - rewrite check_cardinality_outside in H by (right; exact Hout). discriminate H.
Qed.

Lemma cardinal_slice_named svc cfg imageName containerOut img ncard area d r d' ws :
  cardinal_slice svc cfg imageName containerOut img ncard area d = Ok (r, d', ws) ->
  exists direction base label data,
    d !! "Direction" = Some direction /\ operand direction = Some base
    /\ check_cardinality (check_degrees (check_degrees base 22.5)
                                        (float_mul (inject_Z (Z.of_nat ncard)) 45.0)) = Some label
    /\ r = (area, containerOut,
            before_first ".jpg" imageName ++ "_" ++ pretty (ncard + 1)%nat ++ "_"
                         ++ label ++ ".jpg",
            data, py_str <$> d')
    /\ d' !! "Cardinal_Image_Name"
       = Some (VStr (before_first ".jpg" imageName ++ "_" ++ pretty (ncard + 1)%nat ++ "_"
                                  ++ label ++ ".jpg"))
    /\ d' !! "Cardinal_Image_URL"
       = Some (VStr (blobBaseUrl cfg ++ "/" ++ containerOut ++ "/"
                       ++ before_first ".jpg" imageName ++ "_" ++ pretty (ncard + 1)%nat
                       ++ "_" ++ label ++ ".jpg"))
    /\ d' !! "Cardinal_Number" = Some (VInt (Z.of_nat (ncard + 1)))
    /\ d' !! "Cardinal_Direction_Label" = Some (VStr label).
Proof.
  intros H. unfold cardinal_slice in H.
  peel H Hcrop. apply lift_Ok in Hcrop as (Hcrop & -> & ->).
  peel H Hsave. apply lift_Ok in Hsave as (Hsave & -> & ->).
  peel H Hdir. apply lookup_Ok in Hdir as (Hdir & -> & ->).
  peel H Hbase.
  destruct (operand a1) as [base|] eqn:Hnum; [|discriminate Hbase].
  apply ret_Ok in Hbase as (-> & -> & ->).
  peel H Hlabel.
  destruct (check_cardinality _) as [label|] eqn:Hcard; [|discriminate Hlabel].
  apply ret_Ok in Hlabel as (-> & -> & ->).
  peel H H1. apply assign_Ok in H1 as (-> & ->).
  peel H H2. apply assign_Ok in H2 as (-> & ->).
  peel H H3. apply assign_Ok in H3 as (-> & ->).
  peel H H4. apply assign_Ok in H4 as (-> & ->).
  peel H H5. apply assign_Ok in H5 as (-> & ->).
  peel H Hresp. apply lift_Ok in Hresp as (Hresp & -> & ->).
  peel H Henrich. destruct (detected_enrich _ _ _ _ _ Henrich) as (Pe & Fe & _).
  peel H Hbounds. destruct (detected_get_object_bounds _ _ _ _ Hbounds) as (Pb & Fb & _).
  peel H Hdraw. apply lift_Ok in Hdraw as (Hdraw & -> & ->).
  peel H Htagged. apply lift_Ok in Htagged as (Htagged & -> & ->).
  peel H Hsnap. apply snapshot_Ok in Hsnap as (-> & -> & ->).
  peel H Hput. apply lift_Ok in Hput as (Hput & -> & ->).
  apply ret_Ok in H as (Hr & -> & ->). subst r.
  assert (Hkept : forall k l, Forall detected l -> ~ detected k -> k ∉ l).
  { intros k l Hall Hk Hin. rewrite Forall_forall in Hall. apply Hk, Hall, Hin. }
  exists a1, base, label. eexists.
  split; [exact Hdir|]. split; [exact Hnum|]. split; [exact Hcard|].
  split; [reflexivity|].
  repeat split;
    rewrite Fb, Fe by (eapply Hkept; [eassumption | intros E; discriminate E]);
    rewrite ?lookup_insert_eq; try reflexivity;
    repeat (rewrite lookup_insert_ne by discriminate); rewrite ?lookup_insert_eq; reflexivity.
Qed.

Section SliceRecords.
Context (svc : services) (cfg : config) (imageName containerOut : string) (img : image).

Local Abbreviation body := (cardinal_slice svc cfg imageName containerOut img).

Lemma steps_inherited d todo slices m sm :
  steps body d todo slices -> slices !! m = Some sm -> Forall inherited (slice_assigned sm).
Proof.
  intros Hsteps. revert m.
  induction Hsteps as [|d ncard area todo a c n b mt d' ws rest Hbody Hrest IH];
    intros m Hm; [discriminate Hm|].
  destruct m as [|m]; simpl in Hm; [|eapply IH; eauto].
  injection Hm as <-. simpl.
  apply (inherited_cardinal_slice _ _ _ _ _ _ _ _ _ _ _ Hbody).
Qed.

Lemma steps_named d todo slices i s :
  steps body d todo slices ->
  slices !! i = Some s ->
  exists ncard area direction base label,
    todo !! i = Some (ncard, area)
    /\ d !! "Direction" = Some direction /\ operand direction = Some base
    /\ check_cardinality (check_degrees (check_degrees base 22.5)
                                        (float_mul (inject_Z (Z.of_nat ncard)) 45.0)) = Some label
    /\ slice_container s = containerOut
    /\ slice_name s = before_first ".jpg" imageName ++ "_" ++ pretty (ncard + 1)%nat ++ "_"
                                   ++ label ++ ".jpg"
    /\ slice_metadata s !! "Cardinal_Image_Name" = Some (slice_name s)
    /\ slice_metadata s !! "Cardinal_Image_URL"
       = Some (blobBaseUrl cfg ++ "/" ++ containerOut ++ "/" ++ slice_name s)
    /\ slice_metadata s !! "Cardinal_Number" = Some (pretty (Z.of_nat (ncard + 1)))
    /\ slice_metadata s !! "Cardinal_Direction_Label" = Some label.
Proof.
  intros Hsteps. revert i.
  induction Hsteps as [|d ncard area todo a c n b mt d' ws rest Hbody Hrest IH];
    intros i Hi; [discriminate Hi|].
  pose proof (cardinal_slice_Ok _ _ _ _ _ _ _ _ _ _ _ Hbody)
    as (direction0 & base0 & _ & _ & Hdir0 & Hnum0 & _ & _ & Hdir0' & _).
  destruct i as [|i]; simpl in Hi.
  - injection Hi as <-.
    apply cardinal_slice_named in Hbody
      as (direction & base & label & data & Hdir & Hnum & Hcard & Hr & Hn & Hu & Hnb & Hl).
    injection Hr as -> -> -> -> ->.
    exists ncard, area, direction, base, label. simpl.
    rewrite !lookup_fmap, Hn, Hu, Hnb, Hl. simpl. repeat split; assumption || reflexivity.
  - destruct (IH i Hi)
      as (ncard' & area' & direction & base & label & Htodo & Hd & Hn & Hrestfacts).
    rewrite Hdir0' in Hd. injection Hd as <-.
    exists ncard', area', direction0, base, label.
    split; [exact Htodo|]. split; [exact Hdir0|]. split; [exact Hn|]. exact Hrestfacts.
Qed.

End SliceRecords.

(** *** The conversion of the 19 fields *)

Lemma cast_loop (keys : list string) d d' ws :
  NoDup keys ->
  for_each keys (fun field =>
                   let! v := lookup field in
                   let! q := lift (py_float v) in
                   assign field (VFloat q)) d = Ok (tt, d', ws) ->
  (forall f, f ∈ keys ->
     exists v q, d !! f = Some v /\ py_float v = Ok q /\ d' !! f = Some (VFloat q))
  /\ (forall k, k ∉ keys -> d' !! k = d !! k).
Proof.
  intros Hnd. revert d ws.
  induction Hnd as [|key rest Hnotin Hnd IH]; intros d ws H; simpl in H.
  - apply ret_Ok in H as (_ & -> & ->). split; [|reflexivity].
    intros f Hf. inversion Hf.
  - peel H Hfirst.
    peel Hfirst Hv. apply lookup_Ok in Hv as (Hv & -> & ->).
    peel Hfirst Hq. apply lift_Ok in Hq as (Hq & -> & ->).
    apply assign_Ok in Hfirst as (-> & ->). destruct a.
    apply IH in H as (Hin & Hout). split.
    + intros f Hf. apply elem_of_cons in Hf as [->|Hf].
      * do 2 eexists. split; [exact Hv|]. split; [exact Hq|].
        rewrite (Hout key Hnotin). apply lookup_insert_eq.
      * destruct (Hin f Hf) as (v & q & Hd & Hp & Hd').
        exists v, q. split; [|split; assumption].
        rewrite lookup_insert_ne in Hd; [exact Hd|]. intros ->. contradiction.
    + intros k Hk. apply not_elem_of_cons in Hk as [Hne Hk].
      rewrite (Hout k Hk). apply lookup_insert_ne. congruence.
Qed.

Lemma fields_NoDup : NoDup fields.
Proof. apply (bool_decide_unpack _). vm_compute. exact I. Qed.

Lemma prepare_fields svc containerIn imageName d0 img d ws :
  prepare svc containerIn imageName d0 = Ok (img, d, ws) ->
  (forall f, f ∈ fields ->
     exists v q, d0 !! f = Some v /\ py_float v = Ok q /\ d !! f = Some (VFloat q))
  /\ (forall k, k ∉ fields -> d !! k = d0 !! k).
Proof.
  intros H. unfold prepare in H.
  peel H Hloop. destruct a.
  peel H Hcontent. apply lift_Ok in Hcontent as (Hcontent & -> & ->).
  apply lift_Ok in H as (_ & -> & ->).
  exact (cast_loop fields _ _ _ fields_NoDup Hloop).
Qed.

(** X11.  Every stored slice carries the photosphere's own fields: each
    of the 19 numeric fields is the text of the float read from the
    photosphere's metadata, and [Photosphere_Image_Name] is as stored;
    nothing the vision service answers can overwrite them. *)
Theorem slices_inherit_fields svc cfg b containerIn containerOut (i : nat) (s : slice) :
  let r := process_cardinal_images svc cfg b containerIn containerOut in
  stored r !! i = Some s ->
  exists stored_metadata,
    get_blob_metadata svc containerIn (blob_name b) = Ok stored_metadata
    /\ slice_metadata s !! "Photosphere_Image_Name"
       = stored_metadata !! "Photosphere_Image_Name"
    /\ forall field, field ∈ fields ->
         exists text q,
           stored_metadata !! field = Some text /\ float_of_string text = Some q
           /\ slice_metadata s !! field = Some (float_str q).
Proof.
  intros r Hi.
  pose proof (process_cardinal_images_stored svc cfg b containerIn containerOut) as Hst.
  cbv zeta in Hst. fold r in Hst.
  destruct Hst as [[Hnone _] | (m & img & d & ws & Hm & Hprep & Hsteps & _)].
  { rewrite Hnone in Hi. discriminate Hi. }
  exists m. split; [exact Hm|].
  apply prepare_fields in Hprep as (Hfields & Hother).
  assert (Hkeep : forall k, ~ inherited k -> slice_metadata s !! k = py_str <$> d !! k).
  { intros k Hk. eapply steps_untouched; [exact Hsteps | exact Hi |].
    intros m' sm _ Hsm Hin.
    pose proof (steps_inherited _ _ _ _ _ _ _ _ _ _ Hsteps Hsm) as Hall.
    rewrite Forall_forall in Hall. exact (Hk (Hall _ Hin)). }
  split.
  - rewrite Hkeep by (intros E; discriminate E).
    rewrite Hother by (apply (bool_decide_unpack _); vm_compute; exact I).
    rewrite lookup_fmap. destruct (m !! "Photosphere_Image_Name"); reflexivity.
  - intros field Hf.
    destruct (Hfields field Hf) as (v & q & Hv & Hq & Hd).
    rewrite lookup_fmap in Hv.
    destruct (m !! field) as [text|] eqn:Htext; [|discriminate Hv].
    simpl in Hv. injection Hv as <-. simpl in Hq.
    destruct (float_of_string text) as [q'|] eqn:Hparse; [|discriminate Hq].
    injection Hq as ->.
    exists text, q. split; [reflexivity|]. split; [exact Hparse|].
    rewrite Hkeep, Hd; [reflexivity|].
    unfold inherited. intros E.
    apply negb_true_iff in E.
    assert (Hex : existsb (String.eqb field) ("Photosphere_Image_Name" :: fields) = true).
    { apply existsb_exists. exists field. split; [|apply String.eqb_refl].
      right. apply list_elem_of_In. exact Hf. }
    congruence.
Qed.

Lemma slices_inherit_fields_witness :
  exists stored_metadata,
    get_blob_metadata Sample.healthy "photospheres" (blob_name Sample.photosphere)
    = Ok stored_metadata
    /\ slice_metadata (Sample.stored_slice 7) !! "Photosphere_Image_Name"
       = stored_metadata !! "Photosphere_Image_Name"
    /\ forall field, field ∈ fields ->
         exists text q,
           stored_metadata !! field = Some text /\ float_of_string text = Some q
           /\ slice_metadata (Sample.stored_slice 7) !! field = Some (float_str q).
Proof.
  refine (slices_inherit_fields Sample.healthy Sample.cfg Sample.photosphere
            "photospheres" "cardinal" 7 (Sample.stored_slice 7) _).
  refine (lookup_nth (stored Sample.healthy_run) 7 Sample.no_slice _).
  vm_compute; reflexivity.
Defined.

(** X12.  The slice stored at position [i] goes to the output container
    under the name [{base}_{i+1}_{label}.jpg], where [base] is the image
    name up to its first [.jpg] and [label] is the cardinal label, one of
    the 32, of the slice's direction; its record holds that name, the URL
    built from it, the number [i+1] and the label. *)
Theorem slices_are_named svc cfg b containerIn containerOut (i : nat) (s : slice) :
  let r := process_cardinal_images svc cfg b containerIn containerOut in
  stored r !! i = Some s ->
  exists label,
    In label labels
    /\ slice_container s = containerOut
    /\ slice_name s = before_first ".jpg" (blob_name b) ++ "_" ++ pretty (i + 1)%nat ++ "_"
                                   ++ label ++ ".jpg"
    /\ slice_metadata s !! "Cardinal_Image_Name" = Some (slice_name s)
    /\ slice_metadata s !! "Cardinal_Image_URL"
       = Some (blobBaseUrl cfg ++ "/" ++ containerOut ++ "/" ++ slice_name s)
    /\ slice_metadata s !! "Cardinal_Number" = Some (pretty (Z.of_nat (i + 1)))
    /\ slice_metadata s !! "Cardinal_Direction_Label" = Some label.
Proof.
  intros r Hi.
  pose proof (process_cardinal_images_stored svc cfg b containerIn containerOut) as Hst.
  cbv zeta in Hst. fold r in Hst.
  destruct Hst as [[Hnone _] | (m & img & d & ws & Hm & Hprep & Hsteps & _)].
  { rewrite Hnone in Hi. discriminate Hi. }
  destruct (steps_named _ _ _ _ _ _ _ _ _ _ Hsteps Hi)
    as (ncard & area & direction & base & label & Htodo & _ & _ & Hcard & Hrest).
  apply enumerate_areas in Htodo as (-> & _).
  exists label. split; [exact (check_cardinality_label _ _ Hcard) | exact Hrest].
Qed.

Lemma slices_are_named_witness :
  exists label,
    In label labels
    /\ slice_container (Sample.stored_slice 2) = "cardinal"
    /\ slice_name (Sample.stored_slice 2)
       = before_first ".jpg" (blob_name Sample.photosphere) ++ "_" ++ pretty (2 + 1)%nat ++ "_"
                      ++ label ++ ".jpg"
    /\ slice_metadata (Sample.stored_slice 2) !! "Cardinal_Image_Name"
       = Some (slice_name (Sample.stored_slice 2))
    /\ slice_metadata (Sample.stored_slice 2) !! "Cardinal_Image_URL"
       = Some (blobBaseUrl Sample.cfg ++ "/" ++ "cardinal" ++ "/"
                 ++ slice_name (Sample.stored_slice 2))
    /\ slice_metadata (Sample.stored_slice 2) !! "Cardinal_Number"
       = Some (pretty (Z.of_nat (2 + 1)))
    /\ slice_metadata (Sample.stored_slice 2) !! "Cardinal_Direction_Label" = Some label.
Proof.
  refine (slices_are_named Sample.healthy Sample.cfg Sample.photosphere
            "photospheres" "cardinal" 2 (Sample.stored_slice 2) _).
  refine (lookup_nth (stored Sample.healthy_run) 2 Sample.no_slice _).
  vm_compute; reflexivity.
Defined.

(** *** A field missing from the photosphere's metadata *)

Lemma py_float_Raise (v : pyval) (e : exn) :
  py_float v = Raise e -> exists cls msg, e = Exn cls [VStr msg].
Proof.
  unfold py_float. destruct v; simpl; try discriminate;
    try (intros H; injection H as <-; eexists _, _; reflexivity).
  destruct (float_of_string s); [discriminate|].
  intros H; injection H as <-; eexists _, _; reflexivity.
Qed.

Lemma cast_loop_missing (keys : list string) (f : string) d :
  f ∈ keys -> d !! f = None ->
  exists cls msg,
    for_each keys (fun field =>
                     let! v := lookup field in
                     let! q := lift (py_float v) in
                     assign field (VFloat q)) d = Raise (Exn cls [VStr msg]).
Proof.
  revert d. induction keys as [|key rest IH]; intros d Hf Hd; [inversion Hf|].
  simpl. unfold bind at 1. unfold bind at 1. unfold lookup at 1.
  destruct (d !! key) as [v|] eqn:Hkey; [|eexists _, _; reflexivity].
  unfold bind at 1. unfold lift at 1.
  destruct (py_float v) as [q|e] eqn:Hq.
  - unfold assign at 1. simpl.
    assert (Hne : key <> f) by congruence.
    apply elem_of_cons in Hf as [->|Hf]; [congruence|].
    destruct (IH (<[key := VFloat q]> d) Hf) as (cls & msg & ->).
    { rewrite lookup_insert_ne by exact Hne. exact Hd. }
    eexists _, _. reflexivity.
  - destruct (py_float_Raise _ _ Hq) as (cls & msg & ->). eexists _, _. reflexivity.
Qed.

Lemma prepare_missing svc containerIn imageName (f : string) d :
  f ∈ fields -> d !! f = None ->
  exists cls msg, prepare svc containerIn imageName d = Raise (Exn cls [VStr msg]).
Proof.
  intros Hf Hd. destruct (cast_loop_missing fields f d Hf Hd) as (cls & msg & Hloop).
  exists cls, msg. unfold prepare. unfold bind at 1. rewrite Hloop. reflexivity.
Qed.

Lemma process_cardinal_images_unprepared svc cfg b containerIn containerOut stored_metadata e :
  get_blob_metadata svc containerIn (blob_name b) = Ok stored_metadata ->
  prepare svc containerIn (blob_name b) (VStr <$> stored_metadata) = Raise e ->
  process_cardinal_images svc cfg b containerIn containerOut = handler [] [] e.
Proof.
  intros Hm Hp. unfold process_cardinal_images. cbv zeta. rewrite Hm, Hp. reflexivity.
Qed.

(** X10.  When one of the 19 fields is missing from the photosphere's
    metadata, [process_cardinal_images] stores no slice, prints one
    message and returns. *)
Theorem missing_field_skips_photosphere svc cfg b containerIn containerOut
    (stored_metadata : gmap string string) (field : string) :
  get_blob_metadata svc containerIn (blob_name b) = Ok stored_metadata ->
  field ∈ fields -> stored_metadata !! field = None ->
  let r := process_cardinal_images svc cfg b containerIn containerOut in
  stored r = [] /\ outcome r = Ok None /\ exists msg, printed r = [VStr msg].
Proof.
  intros Hm Hf Hnone r. subst r.
  destruct (prepare_missing svc containerIn (blob_name b) field (VStr <$> stored_metadata) Hf)
    as (cls & msg & Hp).
  { rewrite lookup_fmap, Hnone. reflexivity. }
  rewrite (process_cardinal_images_unprepared _ _ _ _ _ _ _ Hm Hp).
  split; [reflexivity|]. split; [reflexivity|]. exists msg. reflexivity.
Qed.

Lemma missing_field_skips_photosphere_witness :
  stored (process_cardinal_images incomplete Sample.cfg Sample.photosphere
            "photospheres" "cardinal") = []
  /\ outcome (process_cardinal_images incomplete Sample.cfg Sample.photosphere
                "photospheres" "cardinal") = Ok None
  /\ exists msg, printed (process_cardinal_images incomplete Sample.cfg Sample.photosphere
                            "photospheres" "cardinal") = [VStr msg].
Proof.
  refine (missing_field_skips_photosphere incomplete Sample.cfg Sample.photosphere
            "photospheres" "cardinal" (delete "Kappa" Sample.photosphere_metadata) "Kappa"
            _ _ _).
  - reflexivity.
  - apply (bool_decide_unpack _). vm_compute. exact I.
  - vm_compute. reflexivity.
Defined.

(** *** [get_object_bounds] *)

Lemma object_bound_Ok i d b d' ws :
  object_bound i d = Ok (b, d', ws) ->
  d' = d /\ ws = []
  /\ d !! fmt "Object_" (i + 1) "" = Some (bound_object b)
  /\ d !! fmt "x" (i + 1) "" = Some (bound_x b)
  /\ d !! fmt "y" (i + 1) "" = Some (bound_y b)
  /\ d !! fmt "w" (i + 1) "" = Some (bound_w b)
  /\ d !! fmt "h" (i + 1) "" = Some (bound_h b).
Proof.
  unfold object_bound. intros Hb.
  peel Hb Ho. apply lookup_Ok in Ho as (Ho & E1 & E2). subst.
  peel Hb Hx. apply lookup_Ok in Hx as (Hx & E1 & E2). subst.
  peel Hb Hy. apply lookup_Ok in Hy as (Hy & E1 & E2). subst.
  peel Hb Hw. apply lookup_Ok in Hw as (Hw & E1 & E2). subst.
  peel Hb Hh. apply lookup_Ok in Hh as (Hh & E1 & E2). subst.
  apply ret_Ok in Hb as (E0 & E1 & E2). subst. simpl. auto 10.
Qed.

Lemma object_bounds_Ok indices d bs d' ws :
  object_bounds indices d = Ok (bs, d', ws) ->
  d' = d /\ ws = []
  /\ Forall2 (fun i b =>
                d !! fmt "Object_" (i + 1) "" = Some (bound_object b)
                /\ d !! fmt "x" (i + 1) "" = Some (bound_x b)
                /\ d !! fmt "y" (i + 1) "" = Some (bound_y b)
                /\ d !! fmt "w" (i + 1) "" = Some (bound_w b)
                /\ d !! fmt "h" (i + 1) "" = Some (bound_h b)) indices bs.
Proof.
  revert bs d' ws. induction indices as [|i rest IH]; intros bs d' ws H; simpl in H.
  - apply ret_Ok in H as (E0 & E1 & E2). subst. repeat split. constructor.
  - peel H Hb. apply object_bound_Ok in Hb as (E1 & E2 & Hb). subst.
    peel H Hrest. apply IH in Hrest as (E1 & E2 & Hall). subst.
    apply ret_Ok in H as (E0 & E1 & E2). subst.
    split; [reflexivity|]. split; [reflexivity|].
    constructor; [exact Hb|exact Hall].
Qed.

Lemma lookup_nth_Forall2 {A B} (R : A -> B -> Prop) (l : list A) (k : list B) :
  Forall2 R l k -> length l = length k
  /\ forall i a b, nth_error l i = Some a -> nth_error k i = Some b -> R a b.
Proof.
  induction 1 as [|a b l k HR _ [Hlen IH]]; simpl.
  - split; [reflexivity|]. intros [|i]; discriminate.
  - split; [congruence|]. intros [|i] a' b'; simpl.
    + intros [= <-] [= <-]. exact HR.
    + apply IH.
Qed.

(** X8.  [get_object_bounds] only reads.  When it returns, the
    dictionary is the one it was given, [Number_of_Objects] is an integer
    (or a boolean, which Python counts as 0 or 1), there are as many
    bounds as it says, none if it is negative, and bound [i] holds the
    values of [Object_{i+1}], [x{i+1}], [y{i+1}], [w{i+1}] and
    [h{i+1}]. *)
Theorem get_object_bounds_reads (d : gmap string pyval) bs d' ws :
  get_object_bounds d = Ok (bs, d', ws) ->
  d' = d /\ ws = []
  /\ (exists n : Z,
        (d !! "Number_of_Objects" = Some (VInt n)
         \/ exists b : bool, d !! "Number_of_Objects" = Some (VBool b)
                             /\ n = if b then 1%Z else 0%Z)
        /\ length bs = Z.to_nat n)
  /\ forall (i : nat) (b : bound), nth_error bs i = Some b ->
       d !! fmt "Object_" (i + 1) "" = Some (bound_object b)
       /\ d !! fmt "x" (i + 1) "" = Some (bound_x b)
       /\ d !! fmt "y" (i + 1) "" = Some (bound_y b)
       /\ d !! fmt "w" (i + 1) "" = Some (bound_w b)
       /\ d !! fmt "h" (i + 1) "" = Some (bound_h b).
Proof.
  unfold get_object_bounds. intros H.
  peel H Hn. apply lookup_Ok in Hn as (Hn & E1 & E2). subst. simpl.
  assert (Hgen : forall count, object_bounds (seq 0 count) d = Ok (bs, d', w0) ->
             d' = d /\ w0 = [] /\ length bs = count
             /\ forall (i : nat) (b : bound), nth_error bs i = Some b ->
                  d !! fmt "Object_" (i + 1) "" = Some (bound_object b)
                  /\ d !! fmt "x" (i + 1) "" = Some (bound_x b)
                  /\ d !! fmt "y" (i + 1) "" = Some (bound_y b)
                  /\ d !! fmt "w" (i + 1) "" = Some (bound_w b)
                  /\ d !! fmt "h" (i + 1) "" = Some (bound_h b)).
  { intros count Hc. apply object_bounds_Ok in Hc as (E1 & E2 & Hall).
    apply lookup_nth_Forall2 in Hall as [Hlen Hall].
    rewrite length_seq in Hlen.
    split; [exact E1|]. split; [exact E2|]. split; [symmetry; exact Hlen|].
    intros i b Hb.
    assert (Hi : (i < count)%nat).
    { rewrite Hlen. apply nth_error_Some. congruence. }
    apply (Hall i i b); [|exact Hb].
    rewrite nth_error_nth' with (d := 0%nat) by (rewrite length_seq; exact Hi).
    rewrite seq_nth by exact Hi. reflexivity. }
  destruct a as [| b | n | | | |]; try discriminate H.
  - apply Hgen in H as (E1 & E2 & Hlen & Hall).
    split; [exact E1|]. split; [exact E2|]. split; [|exact Hall].
    exists (if b then 1%Z else 0%Z). split.
    + right. exists b. split; [exact Hn|reflexivity].
    + rewrite Hlen. destruct b; reflexivity.
  - apply Hgen in H as (E1 & E2 & Hlen & Hall).
    split; [exact E1|]. split; [exact E2|]. split; [|exact Hall].
    exists n. split; [left; exact Hn|exact Hlen].
Qed.

Lemma object_bound_Raise i d e :
  object_bound i d = Raise e ->
  exists key, e = KeyError key /\ d !! key = None
    /\ In key [ fmt "Object_" (i + 1) ""; fmt "x" (i + 1) ""; fmt "y" (i + 1) "";
                fmt "w" (i + 1) ""; fmt "h" (i + 1) "" ].
Proof.
  unfold object_bound, bind, lookup, ret.
  destruct (d !! fmt "Object_" (i + 1) "") eqn:Ho;
    [|intros [= <-]; eexists; split; [reflexivity|]; split; [exact Ho|simpl; auto]].
  destruct (d !! fmt "x" (i + 1) "") eqn:Hx;
    [|intros [= <-]; eexists; split; [reflexivity|]; split; [exact Hx|simpl; auto]].
  destruct (d !! fmt "y" (i + 1) "") eqn:Hy;
    [|intros [= <-]; eexists; split; [reflexivity|]; split; [exact Hy|simpl; auto]].
  destruct (d !! fmt "w" (i + 1) "") eqn:Hw;
    [|intros [= <-]; eexists; split; [reflexivity|]; split; [exact Hw|simpl; auto]].
  destruct (d !! fmt "h" (i + 1) "") eqn:Hh;
    [|intros [= <-]; eexists; split; [reflexivity|]; split; [exact Hh|simpl; auto 6]].
  discriminate.
Qed.

Lemma object_bounds_Raise indices d e :
  object_bounds indices d = Raise e ->
  exists i key, In i indices /\ e = KeyError key /\ d !! key = None
    /\ In key [ fmt "Object_" (i + 1) ""; fmt "x" (i + 1) ""; fmt "y" (i + 1) "";
                fmt "w" (i + 1) ""; fmt "h" (i + 1) "" ].
Proof.
  induction indices as [|i rest IH]; simpl; [discriminate|].
  intros H. apply bind_Raise in H as [H | (b & d1 & w1 & Hb & H)].
  - apply object_bound_Raise in H as (key & He & Hk & Hin).
    exists i, key. auto.
  - apply object_bound_Ok in Hb as (E1 & E2 & _). subst.
    apply bind_Raise in H as [H | (bs & d2 & w2 & _ & H)]; [|discriminate H].
    apply IH in H as (j & key & Hj & He & Hk & Hin).
    exists j, key. auto.
Qed.

Lemma object_bounds_total indices d :
  (forall i key, In i indices ->
     In key [ fmt "Object_" (i + 1) ""; fmt "x" (i + 1) ""; fmt "y" (i + 1) "";
              fmt "w" (i + 1) ""; fmt "h" (i + 1) "" ] -> is_Some (d !! key)) ->
  exists bs, object_bounds indices d = Ok (bs, d, []).
Proof.
  intros Hall. destruct (object_bounds indices d) as [[[bs d'] ws]|e] eqn:H.
  - destruct (object_bounds_Ok _ _ _ _ _ H) as (E1 & E2 & _). subst. exists bs. reflexivity.
  - apply object_bounds_Raise in H as (i & key & Hi & _ & Hk & Hin).
    destruct (Hall i key Hi Hin) as [v Hv]. congruence.
Qed.

(** X9.  What [get_object_bounds] raises is a [KeyError] that names a
    key the dictionary lacks ([Number_of_Objects], or one of the five
    fields of an object below the count), or a [TypeError] when
    [Number_of_Objects] is not an integer; and when the count and the
    five fields of every object below it are there, it returns. *)
Theorem get_object_bounds_raises (d : gmap string pyval) :
  (forall e, get_object_bounds d = Raise e ->
     (exists key, e = KeyError key /\ d !! key = None)
     \/ (exists v, d !! "Number_of_Objects" = Some v
                   /\ e = TypeError ("'" ++ type_name v
                                       ++ "' object cannot be interpreted as an integer")))
  /\ (forall n : Z,
        d !! "Number_of_Objects" = Some (VInt n) ->
        (forall i key, (i < Z.to_nat n)%nat ->
           In key [ fmt "Object_" (i + 1) ""; fmt "x" (i + 1) ""; fmt "y" (i + 1) "";
                    fmt "w" (i + 1) ""; fmt "h" (i + 1) "" ] -> is_Some (d !! key)) ->
        exists bs, get_object_bounds d = Ok (bs, d, [])).
Proof.
  split.
  - intros e H. unfold get_object_bounds in H.
    apply bind_Raise in H as [H | (v & d1 & w1 & Hv & H)].
    + left. unfold lookup in H. destruct (d !! "Number_of_Objects") eqn:Hn; [discriminate|].
      injection H as <-. exists "Number_of_Objects". auto.
    + apply lookup_Ok in Hv as (Hv & E1 & E2). subst.
      destruct v as [| b | n | | | |];
        try (right; eexists; split; [exact Hv|]; unfold raise in H; congruence).
      * apply object_bounds_Raise in H as (i & key & _ & He & Hk & _).
        left. exists key. auto.
      * apply object_bounds_Raise in H as (i & key & _ & He & Hk & _).
        left. exists key. auto.
  - intros n Hn Hall. unfold get_object_bounds, bind, lookup. rewrite Hn.
    destruct (object_bounds_total (seq 0 (Z.to_nat n)) d) as [bs Hbs].
    { intros i key Hi. apply Hall. apply in_seq in Hi. lia. }
    rewrite Hbs. exists bs. reflexivity.
Qed.

Lemma get_object_bounds_raises_witness :
  (exists bs, get_object_bounds one_object = Ok (bs, one_object, []))
  /\ (exists key, get_object_bounds (delete "w1" one_object) = Raise (KeyError key)
                  /\ delete "w1" one_object !! key = None).
Proof.
  split.
  - refine (proj2 (get_object_bounds_raises one_object) 1%Z _ _).
    + vm_compute. reflexivity.
    + intros i key Hi Hin. assert (i = 0%nat) as -> by (simpl in Hi; lia).
      simpl in Hin.
      destruct Hin as [<-|[<-|[<-|[<-|[<-|[]]]]]]; eexists; vm_compute; reflexivity.
  - assert (Hrun : get_object_bounds (delete "w1" one_object) = Raise (KeyError "w1"))
      by (vm_compute; reflexivity).
    destruct (proj1 (get_object_bounds_raises (delete "w1" one_object)) _ Hrun)
      as [(key & E & Hk) | (v & _ & E)].
    + exists key. split; [rewrite <- E; exact Hrun | exact Hk].
    + discriminate E.
Defined.

Lemma get_object_bounds_reads_witness :
  one_object !! fmt "x" (0 + 1) "" = Some (VInt 10).
Proof.
  refine (proj1 (proj2 (proj2 (proj2 (proj2
            (get_object_bounds_reads one_object
               [Bound (VStr "car") (VInt 10) (VInt 20) (VInt 30) (VInt 40)]
               one_object [] _))) 0%nat
            (Bound (VStr "car") (VInt 10) (VInt 20) (VInt 30) (VInt 40)) _))).
  - vm_compute. reflexivity.
  - reflexivity.
Defined.

(** *** The batch loop *)

(** X14.  The batch loop stops at the first call that lets an exception
    out: the calls made are those of a prefix of the list, in order; every
    call before the last returned; and when photospheres are left over,
    the last call let the [IndexError] of the handler out. *)
Theorem process_batch_stops_at_first_escape svc cfg (blobList : list blob)
    (containerIn containerOut : string) :
  let runs := process_batch svc cfg blobList containerIn containerOut in
  runs = List.map (fun b => process_cardinal_images svc cfg b containerIn containerOut)
                  (firstn (length runs) blobList)
  /\ (length runs <= length blobList)%nat
  /\ (forall i r, nth_error runs i = Some r -> (S i < length runs)%nat ->
        outcome r = Ok None)
  /\ ((length runs < length blobList)%nat ->
      exists r, nth_error runs (Nat.pred (length runs)) = Some r
                /\ outcome r = Raise (IndexError "tuple index out of range")).
Proof.
  induction blobList as [|b rest IH]; simpl.
  - split; [reflexivity|]. split; [lia|]. split.
    + intros [|i] r Hr; discriminate Hr.
    + intros Hlt. inversion Hlt.
  - destruct (process_cardinal_images_outcome svc cfg b containerIn containerOut)
      as [[Hout _] | [Hout _]]; cbv zeta in Hout; rewrite Hout.
    + destruct IH as (Hmap & Hlen & Hall & Hlast). simpl.
      split; [f_equal; exact Hmap|]. split; [lia|]. split.
      * intros [|i] r Hr Hi; simpl in Hr.
        -- injection Hr as <-. exact Hout.
        -- apply (Hall i r Hr). lia.
      * intros Hlt. destruct Hlast as (r & Hr & Hraise); [lia|].
        exists r. split; [|exact Hraise].
        destruct (process_batch svc cfg rest containerIn containerOut) as [|r0 runs];
          [discriminate Hr | exact Hr].
    + simpl. split; [reflexivity|]. split; [lia|]. split.
      * intros i r Hr Hi. lia.
      * intros _. eexists. split; [reflexivity | exact Hout].
Qed.

Lemma process_batch_stops_at_first_escape_witness :
  exists r,
    nth_error (process_batch Sample.out_of_memory Sample.cfg
                 [ Sample.photosphere; Blob "181204_182504563.jpg" ]
                 "photospheres" "cardinal") 0 = Some r
    /\ outcome r = Raise (IndexError "tuple index out of range").
Proof.
  assert (Hlen : length (process_batch Sample.out_of_memory Sample.cfg
                           [ Sample.photosphere; Blob "181204_182504563.jpg" ]
                           "photospheres" "cardinal") = 1%nat) by (vm_compute; reflexivity).
  pose proof (proj2 (proj2 (proj2
                (process_batch_stops_at_first_escape Sample.out_of_memory Sample.cfg
                   [ Sample.photosphere; Blob "181204_182504563.jpg" ]
                   "photospheres" "cardinal")))) as Hlast.
  cbv zeta in Hlast. rewrite Hlen in Hlast. apply Hlast. simpl. lia.
Defined.

(** *** The type restoration (lines 621-648) *)

Lemma among_In keys k : among keys k = true <-> In k keys.
Proof.
  unfold among. rewrite existsb_exists. split.
  - intros (x & Hx & E). apply String.eqb_eq in E. subst x. exact Hx.
  - intros H. exists k. split; [exact H | apply String.eqb_refl].
Qed.

Lemma among_neq keys k x : among keys x = false -> In k keys -> x <> k.
Proof.
  intros Hx Hk ->. apply among_In in Hk. congruence.
Qed.

Section Restore.

Lemma sound_cast_float (P : string -> Prop) key : P key -> sound P (cast_float key).
Proof. intros HP. unfold cast_float. sound_steps. apply sound_assign, HP. Qed.

Lemma sound_cast_int (P : string -> Prop) key : P key -> sound P (cast_int key).
Proof. intros HP. unfold cast_int. sound_steps. apply sound_assign, HP. Qed.

Lemma sound_counted (P : string -> Prop) count : sound P (counted count).
Proof. unfold counted. sound_steps. Qed.

Lemma sound_guarded (P : string -> Prop) (keys : list string) (cast : string -> W unit) :
  (forall key, In key keys -> sound P (cast key)) ->
  sound P (for_each keys (fun key => let! present := has_key key in when present (cast key))).
Proof.
  intros H. apply sound_for_each_Forall. apply List.Forall_forall. intros key Hkey.
  sound_steps; apply H, Hkey.
Qed.

Lemma sound_restore : sound restored restore.
Proof.
  unfold restore.
  assert (Hfam : forall (i : nat) (n : nat) key,
             nth_error [ fmt "Category_Score_" i ""; fmt "Tag_Confidence_" i "";
                         fmt "Object_" i "_Confidence"; fmt "Object_" i "_Direction";
                         fmt "Object_" i "_Longitude"; fmt "Object_" i "_Latitude";
                         fmt "x" i ""; fmt "y" i ""; fmt "w" i ""; fmt "h" i "";
                         fmt "Center_x" i ""; fmt "Center_y" i "" ] n = Some key ->
             restored key).
  { intros i n key Hn. right. right. exists i. eapply nth_error_In, Hn. }
  change (fun k => In k fieldsFloat \/ In k fieldsInt \/ indexed k) with restored.
  apply sound_bind; [|intros _].
  { apply sound_guarded. intros key Hkey. apply sound_cast_float. left. exact Hkey. }
  apply sound_bind; [|intros _].
  { apply sound_guarded. intros key Hkey. apply sound_cast_int. right. left. exact Hkey. }
  apply sound_bind; [apply sound_counted|intros categories].
  apply sound_bind; [|intros _].
  { apply sound_for_each. intros i. apply sound_cast_float. exact (Hfam i 0%nat _ eq_refl). }
  apply sound_bind; [apply sound_counted|intros tags].
  apply sound_bind; [|intros _].
  { apply sound_for_each. intros i. apply sound_cast_float. exact (Hfam i 1%nat _ eq_refl). }
  apply sound_bind; [apply sound_counted|intros objects].
  apply sound_for_each. intros i.
  repeat (apply sound_bind; [|intros _]).
  - apply sound_cast_float. exact (Hfam i 2%nat _ eq_refl).
  - apply sound_cast_float. exact (Hfam i 3%nat _ eq_refl).
  - apply sound_assign. exact (Hfam i 4%nat _ eq_refl).
  - apply sound_assign. exact (Hfam i 5%nat _ eq_refl).
  - apply sound_cast_int. exact (Hfam i 6%nat _ eq_refl).
  - apply sound_cast_int. exact (Hfam i 7%nat _ eq_refl).
  - apply sound_cast_int. exact (Hfam i 8%nat _ eq_refl).
  - apply sound_cast_int. exact (Hfam i 9%nat _ eq_refl).
  - apply sound_cast_float. exact (Hfam i 10%nat _ eq_refl).
  - apply sound_cast_float. exact (Hfam i 11%nat _ eq_refl).
Qed.

End Restore.

(** *** Digits and separators *)

Lemma all_digits_pretty_nat (n : nat) : all_digits (pretty n) = true.
Proof.
  unfold pretty, pretty_nat, pretty, pretty_N.
  destruct (decide (N.of_nat n = 0%N)); [reflexivity|].
  apply all_digits_pretty_N_go. reflexivity.
Qed.

Lemma digits_until_separator (a b s t : string) :
  all_digits a = true -> all_digits b = true ->
  a ++ String "_" s = b ++ String "_" t -> a = b /\ s = t.
Proof.
  revert b. induction a as [|c a IH]; intros [|c' b] Ha Hb E; simpl in *.
  - injection E as ->. auto.
  - injection E as <- _. discriminate Hb.
  - injection E as -> _. discriminate Ha.
  - injection E as -> E.
    apply andb_true_iff in Ha as [_ Ha]. apply andb_true_iff in Hb as [_ Hb].
    destruct (IH b Ha Hb E) as [-> ->]. auto.
Qed.

Lemma parent_key_not_restored (n k : nat) (suffix : string) :
  ~ restored ("Object_" ++ pretty n ++ "_Parent_" ++ pretty k ++ suffix).
Proof.
  intros [H | [H | [i H]]].
  - apply among_In in H. discriminate H.
  - apply among_In in H. discriminate H.
  - unfold fmt in H. simpl in H.
    repeat (destruct H as [H|H]; [try discriminate H|]); try contradiction.
    all: injection H as H;
      apply digits_until_separator in H as [_ H];
        [discriminate H | apply all_digits_pretty_nat | apply all_digits_pretty_nat].
Qed.

Lemma restore_stages :
  restore = (for_each fieldsFloat (guarded cast_float) ;;;
             for_each fieldsInt (guarded cast_int) ;;;
             restore_counted).
Proof. reflexivity. Qed.

(** *** Triples *)

Lemma triple_bind {A B} (Pre Mid Post : gmap string pyval -> Prop) (c : W A) (f : A -> W B) :
  triple Pre c Mid -> (forall a, triple Mid (f a) Post) -> triple Pre (bind c f) Post.
Proof.
  intros Hc Hf d b d2 ws H HPre.
  apply bind_Ok in H as (a & d1 & w1 & w2 & H1 & H2 & _).
  exact (Hf a _ _ _ _ H2 (Hc _ _ _ _ H1 HPre)).
Qed.

Lemma triple_trivial {A} (Pre : gmap string pyval -> Prop) (c : W A) :
  triple Pre c (fun _ => True).
Proof. intros d a d' ws _ _. exact I. Qed.

Lemma triple_for_each {A} (Inv : gmap string pyval -> Prop) (items : list A) (body : A -> W unit) :
  (forall x, triple Inv (body x) Inv) -> triple Inv (for_each items body) Inv.
Proof.
  intros Hb. induction items as [|x rest IH]; simpl.
  - intros d a d' ws H HI. apply ret_Ok in H as (_ & E & _). subst. exact HI.
  - apply triple_bind with (Mid := Inv); [apply Hb | intros _; exact IH].
Qed.

Lemma triple_for_each_at {A} `{EqDecision A} (Pre Post : gmap string pyval -> Prop)
    (items : list A) (body : A -> W unit) (x : A) :
  In x items ->
  (forall y, y <> x -> triple Pre (body y) Pre) ->
  (forall y, triple Post (body y) Post) ->
  triple Pre (body x) Post ->
  triple Pre (for_each items body) Post.
Proof.
  intros Hin Hpre Hpost Hx. induction items as [|y rest IH]; [destruct Hin|]. simpl.
  destruct (decide (y = x)) as [->|Hne].
  - apply triple_bind with (Mid := Post); [exact Hx|].
    intros _. apply triple_for_each, Hpost.
  - apply triple_bind with (Mid := Pre); [apply Hpre, Hne|].
    intros _. apply IH. destruct Hin as [E|Hin]; [contradiction | exact Hin].
Qed.

Lemma triple_frame {A} (k : string) (Inv : option pyval -> Prop) (c : W A) :
  sound (fun key => key <> k) c ->
  triple (fun d => Inv (d !! k)) c (fun d => Inv (d !! k)).
Proof.
  intros Hc d a d' ws H HI. destruct (Hc _ _ _ _ H) as (HP & HF & _ & _).
  rewrite HF; [exact HI|]. intros Hk.
  rewrite Forall_forall in HP. exact (HP k Hk eq_refl).
Qed.

Lemma holds_frame {A} (k : string) (T : pyval -> Prop) (c : W A) :
  sound (fun key => key <> k) c -> triple (holds k T) c (holds k T).
Proof. intros Hc. exact (triple_frame k (fun o => exists v, o = Some v /\ T v) c Hc). Qed.

(** *** The casts *)

Lemma cast_float_Ok key d u d' ws :
  cast_float key d = Ok (u, d', ws) ->
  exists v q, d !! key = Some v /\ py_float v = Ok q /\ d' = <[key := VFloat q]> d.
Proof.
  unfold cast_float. intros H.
  peel H Hv. apply lookup_Ok in Hv as (Hv & E1 & E2). subst.
  peel H Hq. apply lift_Ok in Hq as (Hq & E1 & E2). subst.
  apply assign_Ok in H as (E1 & E2). subst. eauto.
Qed.

Lemma cast_int_Ok key d u d' ws :
  cast_int key d = Ok (u, d', ws) ->
  exists v z, d !! key = Some v /\ py_int v = Ok z /\ d' = <[key := VInt z]> d.
Proof.
  unfold cast_int. intros H.
  peel H Hv. apply lookup_Ok in Hv as (Hv & E1 & E2). subst.
  peel H Hz. apply lift_Ok in Hz as (Hz & E1 & E2). subst.
  apply assign_Ok in H as (E1 & E2). subst. eauto.
Qed.

Lemma closed_float_a_float : closed_float a_float.
Proof. intros v q _ _. exists q. reflexivity. Qed.

Lemma closed_float_eq q0 : closed_float (eq (VFloat q0)).
Proof. intros v q <- H. simpl in H. congruence. Qed.

Lemma closed_int_an_int : closed_int an_int.
Proof. intros v z _ _. exists z. reflexivity. Qed.

Lemma closed_int_eq z0 : closed_int (eq (VInt z0)).
Proof. intros v z <- H. simpl in H. congruence. Qed.

Lemma holds_cast_float k T x :
  x <> k \/ closed_float T -> triple (holds k T) (cast_float x) (holds k T).
Proof.
  intros Hx d u d' ws H (v & Hv & HT).
  apply cast_float_Ok in H as (v' & q & Hv' & Hq & ->).
  destruct (decide (x = k)) as [->|Hne].
  - destruct Hx as [Hx|Hx]; [contradiction|].
    exists (VFloat q). rewrite lookup_insert_eq. split; [reflexivity|].
    apply (Hx v); congruence.
  - exists v. rewrite lookup_insert_ne by exact Hne. auto.
Qed.

Lemma holds_cast_int k T x :
  x <> k \/ closed_int T -> triple (holds k T) (cast_int x) (holds k T).
Proof.
  intros Hx d u d' ws H (v & Hv & HT).
  apply cast_int_Ok in H as (v' & z & Hv' & Hz & ->).
  destruct (decide (x = k)) as [->|Hne].
  - destruct Hx as [Hx|Hx]; [contradiction|].
    exists (VInt z). rewrite lookup_insert_eq. split; [reflexivity|].
    apply (Hx v); congruence.
  - exists v. rewrite lookup_insert_ne by exact Hne. auto.
Qed.

Lemma holds_assign k (T : pyval -> Prop) x v :
  x <> k \/ T v -> triple (holds k T) (assign x v) (holds k T).
Proof.
  intros Hx d u d' ws H (v' & Hv & HT).
  apply assign_Ok in H as (-> & _).
  destruct (decide (x = k)) as [->|Hne].
  - destruct Hx as [Hx|Hx]; [contradiction|].
    exists v. rewrite lookup_insert_eq. auto.
  - exists v'. rewrite lookup_insert_ne by exact Hne. auto.
Qed.

Lemma holds_guarded k T (cast : string -> W unit) x :
  triple (holds k T) (cast x) (holds k T) -> triple (holds k T) (guarded cast x) (holds k T).
Proof.
  intros Hc d u d' ws H HI. unfold guarded in H.
  peel H Hp. unfold has_key in Hp. injection Hp as <- <- <-.
  destruct (d !! x); simpl in H.
  - exact (Hc _ _ _ _ H HI).
  - apply ret_Ok in H as (_ & -> & _). exact HI.
Qed.

Lemma holds_counted k T count : triple (holds k T) (counted count) (holds k T).
Proof. apply holds_frame, sound_counted. Qed.

(** A cast that returns leaves its key with the value of the cast. *)
Lemma cast_float_holds k v :
  triple (fun d => d !! k = Some v) (cast_float k)
         (holds k (fun v' => exists q, py_float v = Ok q /\ v' = VFloat q)).
Proof.
  intros d u d' ws H Hv. apply cast_float_Ok in H as (v' & q & Hv' & Hq & ->).
  exists (VFloat q). rewrite lookup_insert_eq. split; [reflexivity|].
  exists q. split; congruence.
Qed.

Lemma cast_int_holds k v :
  triple (fun d => d !! k = Some v) (cast_int k)
         (holds k (fun v' => exists z, py_int v = Ok z /\ v' = VInt z)).
Proof.
  intros d u d' ws H Hv. apply cast_int_Ok in H as (v' & z & Hv' & Hz & ->).
  exists (VInt z). rewrite lookup_insert_eq. split; [reflexivity|].
  exists z. split; congruence.
Qed.

Lemma cast_float_types k (Pre : gmap string pyval -> Prop) :
  triple Pre (cast_float k) (holds k a_float).
Proof.
  intros d u d' ws H _. apply cast_float_Ok in H as (v' & q & _ & _ & ->).
  exists (VFloat q). rewrite lookup_insert_eq. split; [reflexivity | exists q; reflexivity].
Qed.

Lemma cast_int_types k (Pre : gmap string pyval -> Prop) :
  triple Pre (cast_int k) (holds k an_int).
Proof.
  intros d u d' ws H _. apply cast_int_Ok in H as (v' & z & _ & _ & ->).
  exists (VInt z). rewrite lookup_insert_eq. split; [reflexivity | exists z; reflexivity].
Qed.

Lemma assign_holds k v (T : pyval -> Prop) (Pre : gmap string pyval -> Prop) :
  T v -> triple Pre (assign k v) (holds k T).
Proof.
  intros HT d u d' ws H _. apply assign_Ok in H as (-> & _).
  exists v. rewrite lookup_insert_eq. auto.
Qed.

Lemma guarded_present (cast : string -> W unit) k d :
  is_Some (d !! k) -> guarded cast k d = cast k d.
Proof.
  intros [v Hv]. unfold guarded, bind, has_key. rewrite Hv. simpl.
  destruct (cast k d) as [[[u d'] ws]|e]; [destruct u|]; reflexivity.
Qed.

Lemma guarded_absent (cast : string -> W unit) k :
  triple (fun d => d !! k = None) (guarded cast k) (fun d => d !! k = None).
Proof.
  intros d u d' ws H Hk. unfold guarded, bind, has_key in H. rewrite Hk in H. simpl in H.
  injection H as _ <- _. exact Hk.
Qed.

(** *** The stages of the restoration *)

Lemma triple_for_each_In {A} (Inv : gmap string pyval -> Prop) (items : list A)
    (body : A -> W unit) :
  (forall x, In x items -> triple Inv (body x) Inv) -> triple Inv (for_each items body) Inv.
Proof.
  induction items as [|x rest IH]; intros Hb; simpl.
  - intros d a d' ws H HI. apply ret_Ok in H as (_ & E & _). subst. exact HI.
  - apply triple_bind with (Mid := Inv); [apply Hb; left; reflexivity|].
    intros _. apply IH. intros y Hy. apply Hb. right. exact Hy.
Qed.

Lemma sound_restore_counted : sound indexed restore_counted.
Proof.
  unfold restore_counted.
  assert (Hfam : forall (i : nat) (n : nat) key,
             nth_error [ fmt "Category_Score_" i ""; fmt "Tag_Confidence_" i "";
                         fmt "Object_" i "_Confidence"; fmt "Object_" i "_Direction";
                         fmt "Object_" i "_Longitude"; fmt "Object_" i "_Latitude";
                         fmt "x" i ""; fmt "y" i ""; fmt "w" i ""; fmt "h" i "";
                         fmt "Center_x" i ""; fmt "Center_y" i "" ] n = Some key ->
             indexed key).
  { intros i n key Hn. exists i. eapply nth_error_In, Hn. }
  apply sound_bind; [apply sound_counted|intros categories].
  apply sound_bind; [|intros _].
  { apply sound_for_each. intros i. apply sound_cast_float. exact (Hfam i 0%nat _ eq_refl). }
  apply sound_bind; [apply sound_counted|intros tags].
  apply sound_bind; [|intros _].
  { apply sound_for_each. intros i. apply sound_cast_float. exact (Hfam i 1%nat _ eq_refl). }
  apply sound_bind; [apply sound_counted|intros objects].
  apply sound_for_each. intros i.
  repeat (apply sound_bind; [|intros _]).
  - apply sound_cast_float. exact (Hfam i 2%nat _ eq_refl).
  - apply sound_cast_float. exact (Hfam i 3%nat _ eq_refl).
  - apply sound_assign. exact (Hfam i 4%nat _ eq_refl).
  - apply sound_assign. exact (Hfam i 5%nat _ eq_refl).
  - apply sound_cast_int. exact (Hfam i 6%nat _ eq_refl).
  - apply sound_cast_int. exact (Hfam i 7%nat _ eq_refl).
  - apply sound_cast_int. exact (Hfam i 8%nat _ eq_refl).
  - apply sound_cast_int. exact (Hfam i 9%nat _ eq_refl).
  - apply sound_cast_float. exact (Hfam i 10%nat _ eq_refl).
  - apply sound_cast_float. exact (Hfam i 11%nat _ eq_refl).
Qed.

Lemma indexed_not_fixed key :
  indexed key -> among (fieldsFloat ++ fieldsInt) key = false.
Proof.
  intros [i H]. unfold fmt in H. simpl in H.
  repeat (destruct H as [<-|H]; [reflexivity|]). destruct H.
Qed.

Lemma fields_disjoint x k : In x fieldsInt -> In k fieldsFloat -> x <> k.
Proof.
  intros Hx Hk ->. apply among_In in Hx. apply among_In in Hk.
  assert (H : forallb (fun key => negb (among fieldsInt key)) fieldsFloat = true) by reflexivity.
  rewrite forallb_forall in H. apply among_In in Hk. specialize (H k Hk).
  rewrite Hx in H. discriminate H.
Qed.

Lemma restore_counted_frame k (Inv : option pyval -> Prop) :
  In k (fieldsFloat ++ fieldsInt) ->
  triple (fun d => Inv (d !! k)) restore_counted (fun d => Inv (d !! k)).
Proof.
  intros Hk. apply triple_frame.
  apply (sound_weaken indexed); [|apply sound_restore_counted].
  intros key Hkey ->. apply indexed_not_fixed in Hkey. apply among_In in Hk. congruence.
Qed.

Lemma float_loop_frame k (Inv : option pyval -> Prop) :
  ~ In k fieldsFloat ->
  triple (fun d => Inv (d !! k)) (for_each fieldsFloat (guarded cast_float))
         (fun d => Inv (d !! k)).
Proof.
  intros Hk. apply triple_frame. apply sound_for_each_Forall.
  apply List.Forall_forall. intros key Hkey. unfold guarded.
  apply sound_bind; [apply sound_has_key | intros present; apply sound_when].
  apply sound_cast_float. intros ->. contradiction.
Qed.

Lemma int_loop_frame k (Inv : option pyval -> Prop) :
  ~ In k fieldsInt ->
  triple (fun d => Inv (d !! k)) (for_each fieldsInt (guarded cast_int))
         (fun d => Inv (d !! k)).
Proof.
  intros Hk. apply triple_frame. apply sound_for_each_Forall.
  apply List.Forall_forall. intros key Hkey. unfold guarded.
  apply sound_bind; [apply sound_has_key | intros present; apply sound_when].
  apply sound_cast_int. intros ->. contradiction.
Qed.

Lemma guarded_frame (cast : string -> W unit) k y (Inv : option pyval -> Prop) :
  (forall P : string -> Prop, P y -> sound P (cast y)) -> y <> k ->
  triple (fun d => Inv (d !! k)) (guarded cast y) (fun d => Inv (d !! k)).
Proof.
  intros Hc Hne. apply triple_frame. unfold guarded.
  apply sound_bind; [apply sound_has_key | intros present; apply sound_when].
  apply Hc. exact Hne.
Qed.

Lemma loop_absent (cast : string -> W unit) keys k :
  (forall (P : string -> Prop) y, P y -> sound P (cast y)) ->
  triple (fun d => d !! k = None) (for_each keys (guarded cast)) (fun d => d !! k = None).
Proof.
  intros Hc. apply triple_for_each. intros y.
  destruct (decide (y = k)) as [->|Hne].
  - apply guarded_absent.
  - apply (guarded_frame cast k y (fun o => o = None)); [|exact Hne].
    intros P. apply Hc.
Qed.

Lemma float_loop_casts k v :
  In k fieldsFloat ->
  triple (fun d => d !! k = Some v) (for_each fieldsFloat (guarded cast_float))
         (holds k (fun v' => exists q, py_float v = Ok q /\ v' = VFloat q)).
Proof.
  intros Hk. apply triple_for_each_at with (x := k); [exact Hk|..].
  - intros y Hne.
    apply (guarded_frame cast_float k y (fun o => o = Some v)); [|exact Hne].
    intros P. apply sound_cast_float.
  - intros y. apply holds_guarded, holds_cast_float. right.
    intros v' q' (q & Hq & ->) H. simpl in H. exists q. split; congruence.
  - intros d u d' ws H Hv. rewrite guarded_present in H by (rewrite Hv; eauto).
    exact (cast_float_holds k v _ _ _ _ H Hv).
Qed.

Lemma int_loop_casts k v :
  In k fieldsInt ->
  triple (fun d => d !! k = Some v) (for_each fieldsInt (guarded cast_int))
         (holds k (fun v' => exists z, py_int v = Ok z /\ v' = VInt z)).
Proof.
  intros Hk. apply triple_for_each_at with (x := k); [exact Hk|..].
  - intros y Hne.
    apply (guarded_frame cast_int k y (fun o => o = Some v)); [|exact Hne].
    intros P. apply sound_cast_int.
  - intros y. apply holds_guarded, holds_cast_int. right.
    intros v' z' (z & Hz & ->) H. simpl in H. exists z. split; congruence.
  - intros d u d' ws H Hv. rewrite guarded_present in H by (rewrite Hv; eauto).
    exact (cast_int_holds k v _ _ _ _ H Hv).
Qed.

(** The two loops over the fixed fields (lines 621-629). *)
Lemma fixed_stage d u1 d1 w1 u2 d2 w2 :
  for_each fieldsFloat (guarded cast_float) d = Ok (u1, d1, w1) ->
  for_each fieldsInt (guarded cast_int) d1 = Ok (u2, d2, w2) ->
  (forall k v, In k fieldsFloat -> d !! k = Some v ->
     exists q, py_float v = Ok q /\ d2 !! k = Some (VFloat q))
  /\ (forall k v, In k fieldsInt -> d !! k = Some v ->
        exists z, py_int v = Ok z /\ d2 !! k = Some (VInt z))
  /\ (forall k, d !! k = None -> d2 !! k = None).
Proof.
  intros H1 H. split; [|split].
  - intros k v Hk Hv.
    destruct (float_loop_casts k v Hk _ _ _ _ H1 Hv) as (v' & Hv' & q & Hq & ->).
    exists q. split; [exact Hq|].
    refine (int_loop_frame k (fun o => o = Some (VFloat q)) _ _ _ _ _ H Hv').
    intros Hin. exact (fields_disjoint k k Hin Hk eq_refl).
  - intros k v Hk Hv.
    assert (Hv1 : d1 !! k = Some v).
    { refine (float_loop_frame k (fun o => o = Some v) _ _ _ _ _ H1 Hv).
      intros Hin. exact (fields_disjoint k k Hk Hin eq_refl). }
    destruct (int_loop_casts k v Hk _ _ _ _ H Hv1) as (v' & Hv' & z & Hz & ->).
    exists z. auto.
  - intros k Hk.
    refine (loop_absent cast_int fieldsInt k _ _ _ _ _ H _).
    { intros P y. apply sound_cast_int. }
    refine (loop_absent cast_float fieldsFloat k _ _ _ _ _ H1 Hk).
    intros P y. apply sound_cast_float.
Qed.

(** *** The counted fields (lines 631-648) *)

Lemma counted_Ok count d l d' ws :
  counted count d = Ok (l, d', ws) ->
  d' = d /\ ws = []
  /\ exists v, d !! count = Some v
       /\ forall n, v = VInt n -> l = List.map S (seq 0 (Z.to_nat n)).
Proof.
  unfold counted. intros H.
  peel H Hv. apply lookup_Ok in Hv as (Hv & E1 & E2). subst.
  destruct a as [| b | n | q | | |]; try discriminate H.
  - apply ret_Ok in H as (E0 & E1 & E2). subst.
    split; [reflexivity|]. split; [reflexivity|]. exists (VBool b). split; [exact Hv|].
    intros n E. discriminate E.
  - apply ret_Ok in H as (E0 & E1 & E2). subst.
    split; [reflexivity|]. split; [reflexivity|]. exists (VInt n). split; [exact Hv|].
    intros n' E. injection E as <-. reflexivity.
  - destruct (Qle_bool 1 q); [discriminate H|].
    apply ret_Ok in H as (E0 & E1 & E2). subst.
    split; [reflexivity|]. split; [reflexivity|]. exists (VFloat q). split; [exact Hv|].
    intros n E. discriminate E.
Qed.

Lemma In_counted (i : nat) (n : Z) :
  (1 <= Z.of_nat i <= n)%Z -> In i (List.map S (seq 0 (Z.to_nat n))).
Proof.
  intros Hi. apply in_map_iff. exists (Nat.pred i). split; [lia|].
  apply in_seq. lia.
Qed.

Ltac key_neq :=
  let E := fresh "E" in
  intros E; unfold fmt in E; cbn [String.append] in E; discriminate E.

Ltac holds_step :=
  first
    [ apply holds_cast_float;
      first [ right; solve [apply closed_float_a_float | apply closed_float_eq] | left; key_neq ]
    | apply holds_cast_int;
      first [ right; solve [apply closed_int_an_int | apply closed_int_eq] | left; key_neq ]
    | apply holds_assign;
      first [ right; solve [reflexivity | eexists; reflexivity] | left; key_neq ] ].

Ltac preserve_chain :=
  repeat
    first
      [ holds_step
      | match goal with
        | |- triple ?P (bind _ _) ?P => apply triple_bind with (Mid := P); [|intros _]
        end ].

Ltac establish_step :=
  first
    [ apply cast_float_types
    | apply cast_int_types
    | apply assign_holds; solve [reflexivity | eexists; reflexivity] ].

Ltac establish_chain :=
  lazymatch goal with
  | |- triple ?Pre (bind _ _) ?Post =>
      first
        [ apply triple_bind with (Mid := Post); [solve [establish_step] | intros _; preserve_chain]
        | apply triple_bind with (Mid := Pre); [apply triple_trivial | intros _; establish_chain] ]
  | |- triple _ _ _ => establish_step
  end.

Lemma family_frame (prefix suffix : string) (items : list nat) k (Inv : option pyval -> Prop) :
  (forall i, fmt prefix i suffix <> k) ->
  triple (fun d => Inv (d !! k))
         (for_each items (fun i => cast_float (fmt prefix i suffix)))
         (fun d => Inv (d !! k)).
Proof.
  intros Hne. apply triple_frame, sound_for_each. intros i.
  apply sound_cast_float, Hne.
Qed.

Lemma restore_counted_Ok d u d' ws (nc nt no : Z) :
  d !! "Number_of_Categories" = Some (VInt nc) ->
  d !! "Number_of_Tags" = Some (VInt nt) ->
  d !! "Number_of_Objects" = Some (VInt no) ->
  restore_counted d = Ok (u, d', ws) ->
  (forall i : nat, (1 <= Z.of_nat i <= nc)%Z -> holds (fmt "Category_Score_" i "") a_float d')
  /\ (forall j : nat, (1 <= Z.of_nat j <= nt)%Z -> holds (fmt "Tag_Confidence_" j "") a_float d')
  /\ (forall k : nat, (1 <= Z.of_nat k <= no)%Z ->
        holds (fmt "Object_" k "_Confidence") a_float d'
        /\ holds (fmt "Object_" k "_Direction") a_float d'
        /\ holds (fmt "Object_" k "_Longitude") (eq (VFloat 0.0)) d'
        /\ holds (fmt "Object_" k "_Latitude") (eq (VFloat 0.0)) d'
        /\ holds (fmt "x" k "") an_int d'
        /\ holds (fmt "y" k "") an_int d'
        /\ holds (fmt "w" k "") an_int d'
        /\ holds (fmt "h" k "") an_int d'
        /\ holds (fmt "Center_x" k "") a_float d'
        /\ holds (fmt "Center_y" k "") a_float d').
Proof.
  intros Hnc Hnt Hno H. unfold restore_counted in H.
  peel H Hc1. apply counted_Ok in Hc1 as (E1 & E2 & v1 & Hv1 & Hl1). subst.
  rewrite Hnc in Hv1. injection Hv1 as <-. specialize (Hl1 nc eq_refl). subst.
  peel H H3.
  assert (Hnt3 : d0 !! "Number_of_Tags" = Some (VInt nt)).
  { refine (family_frame "Category_Score_" "" _ "Number_of_Tags"
              (fun o => o = Some (VInt nt)) _ _ _ _ _ H3 Hnt). intros i. key_neq. }
  assert (Hno3 : d0 !! "Number_of_Objects" = Some (VInt no)).
  { refine (family_frame "Category_Score_" "" _ "Number_of_Objects"
              (fun o => o = Some (VInt no)) _ _ _ _ _ H3 Hno). intros i. key_neq. }
  peel H Hc2. apply counted_Ok in Hc2 as (E1 & E2 & v2 & Hv2 & Hl2). subst.
  rewrite Hnt3 in Hv2. injection Hv2 as <-. specialize (Hl2 nt eq_refl). subst.
  peel H H4.
  assert (Hno4 : d1 !! "Number_of_Objects" = Some (VInt no)).
  { refine (family_frame "Tag_Confidence_" "" _ "Number_of_Objects"
              (fun o => o = Some (VInt no)) _ _ _ _ _ H4 Hno3). intros i. key_neq. }
  peel H Hc3. apply counted_Ok in Hc3 as (E1 & E2 & v3 & Hv3 & Hl3). subst.
  rewrite Hno4 in Hv3. injection Hv3 as <-. specialize (Hl3 no eq_refl). subst.
  split; [|split].
  - intros i Hi.
    assert (Hi3 : holds (fmt "Category_Score_" i "") a_float d0).
    { refine (triple_for_each_at (fun _ => True) _ _ _ i (In_counted i nc Hi) _ _ _
                _ _ _ _ H3 I).
      - intros y _. apply triple_trivial.
      - intros y. holds_step.
      - apply cast_float_types. }
    assert (Hi4 : holds (fmt "Category_Score_" i "") a_float d1).
    { refine (triple_for_each _ _ _ _ _ _ _ _ H4 Hi3). intros y. holds_step. }
    refine (triple_for_each _ _ _ _ _ _ _ _ H Hi4). intros y. preserve_chain.
  - intros j Hj.
    assert (Hj4 : holds (fmt "Tag_Confidence_" j "") a_float d1).
    { refine (triple_for_each_at (fun _ => True) _ _ _ j (In_counted j nt Hj) _ _ _
                _ _ _ _ H4 I).
      - intros y _. apply triple_trivial.
      - intros y. holds_step.
      - apply cast_float_types. }
    refine (triple_for_each _ _ _ _ _ _ _ _ H Hj4). intros y. preserve_chain.
  - intros k Hk.
    repeat split.
    all: refine (triple_for_each_at (fun _ => True) _ _ _ k (In_counted k no Hk) _ _ _
                   _ _ _ _ H I);
      [ intros y _; apply triple_trivial
      | intros y; preserve_chain
      | establish_chain ].
Qed.

Lemma restore_counted_reads d u d' ws :
  restore_counted d = Ok (u, d', ws) ->
  is_Some (d !! "Number_of_Categories") /\ is_Some (d !! "Number_of_Tags")
  /\ is_Some (d !! "Number_of_Objects").
Proof.
  intros H. unfold restore_counted in H.
  peel H Hc1. apply counted_Ok in Hc1 as (E1 & E2 & v1 & Hv1 & _). subst.
  peel H H3.
  peel H Hc2. apply counted_Ok in Hc2 as (E1 & E2 & v2 & Hv2 & _). subst.
  peel H H4.
  peel H Hc3. apply counted_Ok in Hc3 as (E1 & E2 & v3 & Hv3 & _). subst.
  split; [eauto|]. split.
  - rewrite <- (family_frame "Category_Score_" "" _ "Number_of_Tags"
                  (fun o => o = d !! "Number_of_Tags") ltac:(intros i; key_neq)
                  _ _ _ _ H3 eq_refl). eauto.
  - rewrite <- (family_frame "Category_Score_" "" _ "Number_of_Objects"
                  (fun o => o = d !! "Number_of_Objects") ltac:(intros i; key_neq)
                  _ _ _ _ H3 eq_refl).
    rewrite <- (family_frame "Tag_Confidence_" "" _ "Number_of_Objects"
                  (fun o => o = d0 !! "Number_of_Objects") ltac:(intros i; key_neq)
                  _ _ _ _ H4 eq_refl). eauto.
Qed.

Lemma restore_Ok d u d' ws :
  restore d = Ok (u, d', ws) ->
  exists u1 d1 w1 u2 d2 w2 w3,
    for_each fieldsFloat (guarded cast_float) d = Ok (u1, d1, w1)
    /\ for_each fieldsInt (guarded cast_int) d1 = Ok (u2, d2, w2)
    /\ restore_counted d2 = Ok (u, d', w3).
Proof.
  rewrite restore_stages. intros H.
  apply bind_Ok in H as (u1 & d1 & w1 & w1' & H1 & H & _).
  apply bind_Ok in H as (u2 & d2 & w2 & w3 & H2 & H & _).
  exists u1, d1, w1, u2, d2, w2, w3. auto.
Qed.

Lemma restore_absent d u d' ws k :
  restore d = Ok (u, d', ws) ->
  In k (fieldsFloat ++ fieldsInt) -> d !! k = None -> d' !! k = None.
Proof.
  intros H Hk Hv.
  apply restore_Ok in H as (u1 & d1 & w1 & u2 & d2 & w2 & w3 & H1 & H2 & H3).
  destruct (fixed_stage _ _ _ _ _ _ _ H1 H2) as (_ & _ & Hn).
  exact (restore_counted_frame k (fun o => o = None) Hk _ _ _ _ H3 (Hn k Hv)).
Qed.

Lemma restore_reads_counts d u d' ws count :
  restore d = Ok (u, d', ws) ->
  In count [ "Number_of_Categories"; "Number_of_Tags"; "Number_of_Objects" ] ->
  is_Some (d !! count).
Proof.
  intros H Hc.
  apply restore_Ok in H as (u1 & d1 & w1 & u2 & d2 & w2 & w3 & H1 & H2 & H3).
  destruct (fixed_stage _ _ _ _ _ _ _ H1 H2) as (_ & _ & Hn).
  destruct (restore_counted_reads _ _ _ _ H3) as (Pc & Pt & Po).
  destruct (d !! count) as [v|] eqn:Hv; [eauto|].
  specialize (Hn count Hv). simpl in Hc.
  destruct Hc as [<-|[<-|[<-|[]]]]; rewrite Hn in *;
    [destruct Pc as [? E] | destruct Pt as [? E] | destruct Po as [? E]]; discriminate E.
Qed.

Lemma restore_casts d u d' ws :
  restore d = Ok (u, d', ws) ->
  (forall k v, In k fieldsFloat -> d !! k = Some v ->
     exists q, py_float v = Ok q /\ d' !! k = Some (VFloat q))
  /\ (forall k v, In k fieldsInt -> d !! k = Some v ->
        exists z, py_int v = Ok z /\ d' !! k = Some (VInt z)).
Proof.
  intros H. apply restore_Ok in H as (u1 & d1 & w1 & u2 & d2 & w2 & w3 & H1 & H2 & H3).
  destruct (fixed_stage _ _ _ _ _ _ _ H1 H2) as (Hf & Hi & Hn).
  split.
  - intros k v Hk Hv. destruct (Hf k v Hk Hv) as (q & Hq & Hd2).
    exists q. split; [exact Hq|].
    refine (restore_counted_frame k (fun o => o = Some (VFloat q)) _ _ _ _ _ H3 Hd2).
    apply in_or_app. left. exact Hk.
  - intros k v Hk Hv. destruct (Hi k v Hk Hv) as (z & Hz & Hd2).
    exists z. split; [exact Hz|].
    refine (restore_counted_frame k (fun o => o = Some (VInt z)) _ _ _ _ _ H3 Hd2).
    apply in_or_app. right. exact Hk.
Qed.

(** What a fixed field holds after the restoration. *)
Lemma restore_typed d u d' ws :
  restore d = Ok (u, d', ws) ->
  (forall k v', In k fieldsFloat -> d' !! k = Some v' ->
     exists v q, d !! k = Some v /\ py_float v = Ok q /\ v' = VFloat q)
  /\ (forall k v', In k fieldsInt -> d' !! k = Some v' ->
        exists v z, d !! k = Some v /\ py_int v = Ok z /\ v' = VInt z).
Proof.
  intros H. destruct (restore_casts _ _ _ _ H) as [Hf Hi]. split.
  - intros k v' Hk Hv'. destruct (d !! k) as [v|] eqn:Hv.
    + destruct (Hf k v Hk Hv) as (q & Hq & Hd). exists v, q. split; [reflexivity|].
      split; [exact Hq | congruence].
    + rewrite (restore_absent _ _ _ _ k H) in Hv'; [discriminate Hv' | | exact Hv].
      apply in_or_app. left. exact Hk.
  - intros k v' Hk Hv'. destruct (d !! k) as [v|] eqn:Hv.
    + destruct (Hi k v Hk Hv) as (z & Hz & Hd). exists v, z. split; [reflexivity|].
      split; [exact Hz | congruence].
    + rewrite (restore_absent _ _ _ _ k H) in Hv'; [discriminate Hv' | | exact Hv].
      apply in_or_app. right. exact Hk.
Qed.

(** X15.  The restoration casts every fixed field the record has: a
    field of [fieldsFloat] comes out as the float of the value it went in
    with, a field of [fieldsInt] as its integer, and a fixed field the
    record lacks is not added. *)
Theorem restore_fixed_fields (d : gmap string pyval) u d' ws :
  restore d = Ok (u, d', ws) ->
  (forall k v, In k fieldsFloat -> d !! k = Some v ->
     exists q, py_float v = Ok q /\ d' !! k = Some (VFloat q))
  /\ (forall k v, In k fieldsInt -> d !! k = Some v ->
        exists z, py_int v = Ok z /\ d' !! k = Some (VInt z))
  /\ (forall k, In k (fieldsFloat ++ fieldsInt) -> d !! k = None -> d' !! k = None).
Proof.
  intros H. destruct (restore_casts _ _ _ _ H) as [Hf Hi].
  split; [exact Hf|]. split; [exact Hi|].
  intros k Hk Hv. exact (restore_absent _ _ _ _ k H Hk Hv).
Qed.

(** X16.  When the restoration returns, the three counts are integers,
    and below each count every field of the family is typed: category
    scores and tag confidences are floats; of object [k] the confidence,
    the direction and the centre are floats, the four vertices are
    integers, and longitude and latitude are the float 0.0. *)
Theorem restore_counted_fields (d : gmap string pyval) u d' ws :
  restore d = Ok (u, d', ws) ->
  exists nc nt no : Z,
    d' !! "Number_of_Categories" = Some (VInt nc)
    /\ d' !! "Number_of_Tags" = Some (VInt nt)
    /\ d' !! "Number_of_Objects" = Some (VInt no)
    /\ (forall i : nat, (1 <= Z.of_nat i <= nc)%Z ->
          holds (fmt "Category_Score_" i "") a_float d')
    /\ (forall j : nat, (1 <= Z.of_nat j <= nt)%Z ->
          holds (fmt "Tag_Confidence_" j "") a_float d')
    /\ (forall k : nat, (1 <= Z.of_nat k <= no)%Z ->
          holds (fmt "Object_" k "_Confidence") a_float d'
          /\ holds (fmt "Object_" k "_Direction") a_float d'
          /\ holds (fmt "Object_" k "_Longitude") (eq (VFloat 0.0)) d'
          /\ holds (fmt "Object_" k "_Latitude") (eq (VFloat 0.0)) d'
          /\ holds (fmt "x" k "") an_int d'
          /\ holds (fmt "y" k "") an_int d'
          /\ holds (fmt "w" k "") an_int d'
          /\ holds (fmt "h" k "") an_int d'
          /\ holds (fmt "Center_x" k "") a_float d'
          /\ holds (fmt "Center_y" k "") a_float d').
Proof.
  intros H. apply restore_Ok in H as (u1 & d1 & w1 & u2 & d2 & w2 & w3 & H1 & H2 & H3).
  destruct (fixed_stage _ _ _ _ _ _ _ H1 H2) as (_ & Hi & Hn).
  destruct (restore_counted_reads _ _ _ _ H3) as (Pc & Pt & Po).
  assert (Hint : forall count, In count fieldsInt -> is_Some (d2 !! count) ->
                   exists n, d2 !! count = Some (VInt n)).
  { intros count Hc Hp. destruct (d !! count) as [v|] eqn:Hv.
    - destruct (Hi count v Hc Hv) as (z & _ & Hz). eauto.
    - rewrite (Hn count Hv) in Hp. destruct Hp as [? Hp]. discriminate Hp. }
  destruct (Hint "Number_of_Categories") as [nc Hnc]; [simpl; auto 10 | exact Pc|].
  destruct (Hint "Number_of_Tags") as [nt Hnt]; [simpl; auto 10 | exact Pt|].
  destruct (Hint "Number_of_Objects") as [no Hno]; [simpl; auto 10 | exact Po|].
  exists nc, nt, no.
  split; [|split; [|split]].
  - refine (restore_counted_frame _ (fun o => o = Some (VInt nc)) _ _ _ _ _ H3 Hnc).
    apply among_In. reflexivity.
  - refine (restore_counted_frame _ (fun o => o = Some (VInt nt)) _ _ _ _ _ H3 Hnt).
    apply among_In. reflexivity.
  - refine (restore_counted_frame _ (fun o => o = Some (VInt no)) _ _ _ _ _ H3 Hno).
    apply among_In. reflexivity.
  - exact (restore_counted_Ok _ _ _ _ nc nt no Hnc Hnt Hno H3).
Qed.

Lemma restore_untouched d u d' ws k :
  restore d = Ok (u, d', ws) -> ~ restored k -> d' !! k = d !! k.
Proof.
  intros H Hk. destruct (sound_restore _ _ _ _ H) as (HP & HF & _ & _).
  apply HF. intros Hin. apply Hk. rewrite Forall_forall in HP. exact (HP k Hin).
Qed.

(** X17.  The restoration assigns only the fixed fields and the counted
    families: every other key of the record comes out as it went in, and
    no key is removed. *)
Theorem restore_frame (d : gmap string pyval) u d' ws :
  restore d = Ok (u, d', ws) ->
  Forall restored ws
  /\ (forall k, ~ restored k -> d' !! k = d !! k)
  /\ (forall k, is_Some (d !! k) -> is_Some (d' !! k)).
Proof.
  intros H. destruct (sound_restore _ _ _ _ H) as (HP & HF & _ & HM).
  split; [exact HP|]. split; [|exact HM].
  intros k Hk. apply HF. intros Hin. apply Hk.
  rewrite Forall_forall in HP. exact (HP k Hin).
Qed.

(** *** One detected object (lines 539-574) *)

Lemma append_inv_head (a s t : string) : a ++ s = a ++ t -> s = t.
Proof.
  induction a as [|c a IH]; simpl; [auto|]. intros E. injection E as E. auto.
Qed.

(** Two keys of the same object differ when what follows the number
    differs. *)
Ltac same_object_neq :=
  let E := fresh "E" in
  intros E; unfold fmt in E; cbn [String.append] in E;
  first
    [ discriminate E
    | repeat (injection E as E); repeat (apply append_inv_head in E);
      lazy beta iota delta [String.append] in E; discriminate E ].

Lemma sound_merge_parent_other (n k : nat) (p : pyval) (key : string) :
  (forall rest, "Object_" ++ pretty n ++ "_Parent_" ++ rest <> key) ->
  sound (fun k' => k' <> key) (merge_parent n k p).
Proof.
  intros Hne. unfold merge_parent.
  apply sound_bind; [apply sound_lift|intros o].
  apply sound_bind; [apply sound_assign, Hne|intros _].
  apply sound_bind; [apply sound_lift|intros c].
  apply sound_assign, Hne.
Qed.

Lemma sound_merge_parents_other (n : nat) (obj : pyval) (key : string) :
  (forall rest, "Object_" ++ pretty n ++ "_Parent_" ++ rest <> key) ->
  sound (fun k' => k' <> key) (merge_parents n obj).
Proof.
  intros Hne. unfold merge_parents.
  repeat first [ apply sound_merge_parent_other; exact Hne | sound_step ].
Qed.

(** The fields that a returning [merge_object] leaves for its object. *)
Lemma merge_object_Ok nobj obj (d : gmap string pyval) u d' ws :
  merge_object nobj obj d = Ok (u, d', ws) ->
  exists rectangle x y w h centerX centerY label,
    subscript obj "rectangle" = Ok rectangle
    /\ subscript rectangle "x" = Ok x /\ subscript rectangle "w" = Ok w
    /\ subscript rectangle "y" = Ok y /\ subscript rectangle "h" = Ok h
    /\ plus_half x w = Ok centerX /\ plus_half y h = Ok centerY
    /\ subscript obj "object" = Ok label
    /\ d' !! fmt "Object_" (nobj + 1) "" = Some label
    /\ d' !! fmt "Object_" (nobj + 1) "_Direction"
       = Some (VFloat (float_add 22.5 (float_mul centerX (float_of_Q 0.045))))
    /\ d' !! fmt "Object_" (nobj + 1) "_Longitude" = Some (VFloat 0.00)
    /\ d' !! fmt "Object_" (nobj + 1) "_Latitude" = Some (VFloat 0.00)
    /\ d' !! fmt "x" (nobj + 1) "" = Some x
    /\ d' !! fmt "y" (nobj + 1) "" = Some y
    /\ d' !! fmt "w" (nobj + 1) "" = Some w
    /\ d' !! fmt "h" (nobj + 1) "" = Some h
    /\ d' !! fmt "Center_x" (nobj + 1) "" = Some (VFloat centerX)
    /\ d' !! fmt "Center_y" (nobj + 1) "" = Some (VFloat centerY).
Proof.
  unfold merge_object. intros H.
  peel H Hr. apply lift_Ok in Hr as (Hr & E1 & E2). subst.
  peel H Hx. apply lift_Ok in Hx as (Hx & E1 & E2). subst.
  peel H Hw. apply lift_Ok in Hw as (Hw & E1 & E2). subst.
  peel H Hcx. apply lift_Ok in Hcx as (Hcx & E1 & E2). subst.
  peel H Hy. apply lift_Ok in Hy as (Hy & E1 & E2). subst.
  peel H Hh. apply lift_Ok in Hh as (Hh & E1 & E2). subst.
  peel H Hcy. apply lift_Ok in Hcy as (Hcy & E1 & E2). subst.
  peel H Hl. apply lift_Ok in Hl as (Hl & E1 & E2). subst.
  peel H Hk0. apply assign_Ok in Hk0 as (E1 & E2). subst.
  peel H Hc. apply lift_Ok in Hc as (Hc & E1 & E2). subst.
  peel H Hk1. apply assign_Ok in Hk1 as (E1 & E2). subst.
  peel H Hk2. apply assign_Ok in Hk2 as (E1 & E2). subst.
  peel H Hk3. apply assign_Ok in Hk3 as (E1 & E2). subst.
  peel H Hk4. apply assign_Ok in Hk4 as (E1 & E2). subst.
  peel H Hk5. apply assign_Ok in Hk5 as (E1 & E2). subst.
  peel H Hk6. apply assign_Ok in Hk6 as (E1 & E2). subst.
  peel H Hk7. apply assign_Ok in Hk7 as (E1 & E2). subst.
  peel H Hk8. apply assign_Ok in Hk8 as (E1 & E2). subst.
  peel H Hk9. apply assign_Ok in Hk9 as (E1 & E2). subst.
  peel H Hk10. apply assign_Ok in Hk10 as (E1 & E2). subst.
  do 8 eexists.
  repeat (split; [eassumption|]).
  assert (Hkeep : forall key v,
             (forall rest, "Object_" ++ pretty (nobj + 1)%nat ++ "_Parent_" ++ rest <> key) ->
             forall (dd : gmap string pyval) ww, dd !! key = Some v ->
             merge_parents (nobj + 1) obj dd = Ok (u, d', ww) -> d' !! key = Some v).
  { intros key v Hne dd ww Hdd Hm.
    exact (triple_frame key (fun o => o = Some v) _ (sound_merge_parents_other _ _ key Hne)
             _ _ _ _ Hm Hdd). }
  repeat (match goal with |- _ /\ _ => split end).
  all: eapply Hkeep; [| |exact H]; [intros rest; same_object_neq|].
  all: repeat first [ apply lookup_insert_eq
                    | rewrite lookup_insert_ne by same_object_neq ].
Qed.

(** The centre of a rectangle inside a slice: [x + w / 2] is a multiple
    of a half below [2 ^ 53], so neither the division nor the addition
    rounds. *)
Lemma plus_half_exact (left width : Z) (centerX : Q) :
  (0 <= left)%Z -> (0 <= width)%Z -> (left + width <= 1000)%Z ->
  plus_half (VInt left) (VInt width) = Ok centerX ->
  (centerX == inject_Z left + inject_Z width / 2)%Q.
Proof.
  intros Hl Hw Hlw H. unfold plus_half in H. cbn [number operand] in H.
  injection H as <-.
  assert (Hgrid : forall k : Z, (0 <= k <= 2000)%Z -> binary64 (inject_Z k * pow2 (-1))).
  { intros k Hk. destruct (Z.eq_dec k 0) as [->|Hk0]; [reflexivity|].
    apply binary64_multiple; lia. }
  assert (E1 : (inject_Z left == inject_Z (2 * left) * pow2 (-1))%Q).
  { rewrite inject_Z_mult. change (pow2 (-1)) with (1 # 2)%Q. change (inject_Z 2) with 2%Q. lra. }
  assert (E2 : (inject_Z width / 2 == inject_Z width * pow2 (-1))%Q) by reflexivity.
  assert (F1 : float_of_Q (inject_Z left) = float_of_Q (inject_Z (2 * left) * pow2 (-1)))
    by (apply float_of_Q_comp, E1).
  assert (F2 : float_div (inject_Z width) 2 = float_of_Q (inject_Z width * pow2 (-1)))
    by (apply float_of_Q_comp, E2).
  assert (G1 : (float_of_Q (inject_Z left) == inject_Z left)%Q).
  { rewrite F1, E1. apply Hgrid. lia. }
  assert (G2 : (float_div (inject_Z width) 2 == inject_Z width / 2)%Q).
  { rewrite F2, E2. apply Hgrid. lia. }
  assert (E3 : (float_of_Q (inject_Z left) + float_div (inject_Z width) 2
                == inject_Z (2 * left + width) * pow2 (-1))%Q).
  { rewrite G1, G2, inject_Z_plus, inject_Z_mult.
    change (pow2 (-1)) with (1 # 2)%Q. change (inject_Z 2) with 2%Q.
    assert (Eh : (inject_Z width / 2 == inject_Z width * (1 # 2))%Q) by reflexivity.
    rewrite Eh. ring. }
  unfold float_add. rewrite (float_of_Q_comp _ _ E3).
  assert (G3 : binary64 (inject_Z (2 * left + width) * pow2 (-1))) by (apply Hgrid; lia).
  unfold binary64 in G3. rewrite G3, inject_Z_plus, inject_Z_mult.
  change (pow2 (-1)) with (1 # 2)%Q. change (inject_Z 2) with 2%Q.
  assert (Eh : (inject_Z width / 2 == inject_Z width * (1 # 2))%Q) by reflexivity.
  rewrite Eh. ring.
Qed.

(** The direction of line 542, a float sum of a float product, for a
    centre inside a slice. *)
Lemma center_direction_range (centerX : Q) :
  (0 <= centerX <= 1000)%Q ->
  (22.5 <= float_add 22.5 (float_mul centerX (float_of_Q 0.045)) <= 67.5)%Q.
Proof.
  intros [H0 H1].
  assert (Hc : (0 < float_of_Q 0.045)%Q) by reflexivity.
  assert (P0 : (0 <= float_mul centerX (float_of_Q 0.045))%Q).
  { apply float_of_Q_nonneg. apply Qmult_le_0_compat; lra. }
  assert (P1 : (float_mul centerX (float_of_Q 0.045) <= 45)%Q).
  { assert (E : float_of_Q (1000 * float_of_Q 0.045) = 45%Q) by (vm_compute; reflexivity).
    rewrite <- E. apply float_of_Q_mono, Qmult_le_compat_r; lra. }
  unfold float_add. split.
  - apply float_of_Q_ge; [reflexivity|lra].
  - apply float_of_Q_le; [reflexivity|lra].
Qed.

(** X13.  What [merge_object] leaves for object [nobj + 1]: the four
    vertices of the rectangle as the service gave them, the centre
    [x + w / 2], [y + h / 2], the direction [22.5 + Center_x * 0.045],
    each operation a float operation, and the coordinates 0.0; the fields
    of its parents never overwrite them.  The direction does not depend
    on the slice: for a rectangle inside a slice of 1000 pixels the
    centre is exactly [x + w / 2] and the direction lies between 22.5 and
    67.5. *)
Theorem merge_object_fields nobj obj (d : gmap string pyval) u d' ws :
  merge_object nobj obj d = Ok (u, d', ws) ->
  exists rectangle x y w h centerX centerY,
    subscript obj "rectangle" = Ok rectangle
    /\ subscript rectangle "x" = Ok x /\ subscript rectangle "w" = Ok w
    /\ subscript rectangle "y" = Ok y /\ subscript rectangle "h" = Ok h
    /\ plus_half x w = Ok centerX /\ plus_half y h = Ok centerY
    /\ d' !! fmt "Object_" (nobj + 1) "_Direction"
       = Some (VFloat (float_add 22.5 (float_mul centerX (float_of_Q 0.045))))
    /\ d' !! fmt "Object_" (nobj + 1) "_Longitude" = Some (VFloat 0.00)
    /\ d' !! fmt "Object_" (nobj + 1) "_Latitude" = Some (VFloat 0.00)
    /\ d' !! fmt "x" (nobj + 1) "" = Some x
    /\ d' !! fmt "y" (nobj + 1) "" = Some y
    /\ d' !! fmt "w" (nobj + 1) "" = Some w
    /\ d' !! fmt "h" (nobj + 1) "" = Some h
    /\ d' !! fmt "Center_x" (nobj + 1) "" = Some (VFloat centerX)
    /\ d' !! fmt "Center_y" (nobj + 1) "" = Some (VFloat centerY)
    /\ forall left width : Z,
         x = VInt left -> w = VInt width ->
         (0 <= left)%Z -> (0 <= width)%Z -> (left + width <= 1000)%Z ->
         (centerX == inject_Z left + inject_Z width / 2
          /\ 22.5 <= float_add 22.5 (float_mul centerX (float_of_Q 0.045)) <= 67.5)%Q.
Proof.
  intros H.
  destruct (merge_object_Ok _ _ _ _ _ _ H)
    as (rectangle & x & y & w & h & cx & cy & label & Hr & Hx & Hw & Hy & Hh & Hcx & Hcy
        & _ & _ & Hdir & Hlon & Hlat & Kx & Ky & Kw & Kh & Kcx & Kcy).
  exists rectangle, x, y, w, h, cx, cy.
  repeat (split; [assumption|]).
  intros left width -> -> Hl0 Hw0 Hlw.
  pose proof (plus_half_exact left width cx Hl0 Hw0 Hlw Hcx) as E.
  split; [exact E|].
  assert (H0 : (0 <= inject_Z left)%Q) by (rewrite <- (Zle_Qle 0); exact Hl0).
  assert (H1 : (0 <= inject_Z width)%Q) by (rewrite <- (Zle_Qle 0); exact Hw0).
  assert (H2 : (inject_Z left + inject_Z width <= 1000)%Q).
  { rewrite <- inject_Z_plus. change 1000%Q with (inject_Z 1000).
    rewrite <- Zle_Qle. exact Hlw. }
  assert (Hhalf : (inject_Z width / 2 == inject_Z width * (1 # 2))%Q) by reflexivity.
  apply center_direction_range. rewrite E, Hhalf. split; lra.
Qed.

Lemma merge_object_fields_witness :
  exists d' : gmap string pyval,
    d' !! fmt "Object_" (0 + 1) "_Direction" = Some (VFloat (189 # 8))
    /\ d' !! fmt "Center_x" (0 + 1) "" = Some (VFloat 25)
    /\ (25 == inject_Z 10 + inject_Z 30 / 2
        /\ 22.5 <= float_add 22.5 (float_mul 25 (float_of_Q 0.045)) <= 67.5)%Q.
Proof.
  assert (Hret : returned (merge_object 0 Sample.car ∅) = true) by (vm_compute; reflexivity).
  destruct (merge_object 0 Sample.car ∅) as [[[u d'] ws]|e] eqn:H; [|discriminate Hret].
  exists d'.
  destruct (merge_object_fields 0 Sample.car ∅ u d' ws H)
    as (rectangle & x & y & w & h & cx & cy & Hr & Hx & Hw & Hy & Hh & Hcx & Hcy & Hdir
        & _ & _ & _ & _ & _ & _ & Kcx & _ & Hin).
  vm_compute in Hr. injection Hr as <-.
  vm_compute in Hx. injection Hx as <-.
  vm_compute in Hw. injection Hw as <-.
  vm_compute in Hcx. injection Hcx as <-.
  split; [rewrite Hdir; vm_compute; reflexivity|]. split; [exact Kcx|].
  apply (Hin 10%Z 30%Z eq_refl eq_refl); lia.
Defined.

(** *** Keys of different objects *)

Lemma digits_split (a b s t : string) :
  all_digits a = true -> all_digits b = true ->
  no_digit_head s = true -> no_digit_head t = true ->
  a ++ s = b ++ t -> a = b /\ s = t.
Proof.
  revert b. induction a as [|c a IH]; intros [|c' b] Ha Hb Hs Ht E; simpl in *.
  - assert (E' : s = t) by exact E. auto.
  - assert (E' : s = String c' (b ++ t)) by exact E. subst s.
    simpl in Hs. apply andb_true_iff in Hb as [Hb _].
    rewrite Hb in Hs. discriminate Hs.
  - assert (E' : t = String c (a ++ s)) by (symmetry; exact E). subst t.
    simpl in Ht. apply andb_true_iff in Ha as [Ha _].
    rewrite Ha in Ht. discriminate Ht.
  - assert (E' : String c (a ++ s) = String c' (b ++ t)) by exact E.
    injection E' as -> E'. clear E. rename E' into E.
    apply andb_true_iff in Ha as [_ Ha]. apply andb_true_iff in Hb as [_ Hb].
    destruct (IH b Ha Hb Hs Ht E) as [-> ->]. auto.
Qed.

Lemma fmt_inj (prefix : string) (i j : nat) (s t : string) :
  no_digit_head s = true -> no_digit_head t = true ->
  fmt prefix i s = fmt prefix j t -> i = j /\ s = t.
Proof.
  intros Hs Ht E. unfold fmt in E. apply append_inv_head in E.
  apply digits_split in E as [E1 E2];
    [|apply all_digits_pretty_nat|apply all_digits_pretty_nat|exact Hs|exact Ht].
  split; [exact (pretty_nat_inj _ _ E1) | exact E2].
Qed.

(** A key of one object is no key of another. *)
Ltac other_object E Hne :=
  first
    [ unfold fmt in E; discriminate E
    | apply fmt_inj in E as [E _]; [exact (Hne E) | reflexivity | reflexivity] ].

Lemma bound_key_other (n m : nat) (k : string) :
  n <> m -> bound_key m k -> ~ object_key n k.
Proof.
  intros Hne Hk [Hin | [rest E]].
  - unfold bound_key in Hk. simpl in Hk, Hin.
    repeat (destruct Hk as [<-|Hk]);
      try contradiction;
      repeat (destruct Hin as [E|Hin]; [other_object E Hne|]); contradiction.
  - unfold bound_key in Hk. simpl in Hk.
    repeat (destruct Hk as [<-|Hk]); try contradiction;
      symmetry in E; other_object E Hne.
Qed.

Lemma count_key_other (n : nat) : ~ object_key n "Number_of_Objects".
Proof.
  intros [Hin | [rest E]].
  - simpl in Hin.
    repeat (destruct Hin as [E|Hin]; [unfold fmt in E; discriminate E|]). contradiction.
  - unfold fmt in E. discriminate E.
Qed.

(** *** What [merge_object] assigns *)

Lemma object_merge_parent (n k : nat) (p : pyval) :
  sound (object_key n) (merge_parent n k p).
Proof.
  unfold merge_parent.
  apply sound_bind; [apply sound_lift|intros o].
  apply sound_bind; [apply sound_assign; right; eexists; reflexivity|intros _].
  apply sound_bind; [apply sound_lift|intros c].
  apply sound_assign. right. exists (pretty k ++ "_Confidence"). reflexivity.
Qed.

Lemma object_merge_parents (n : nat) (obj : pyval) :
  sound (object_key n) (merge_parents n obj).
Proof.
  unfold merge_parents.
  repeat first [ apply object_merge_parent | sound_step ].
Qed.

Lemma object_merge_object (nobj : nat) (obj : pyval) :
  sound (object_key (nobj + 1)) (merge_object nobj obj).
Proof.
  unfold merge_object. cbv zeta.
  do 20 (apply sound_bind;
         [first [ apply sound_lift
                | apply sound_assign; left; simpl; auto 12 ]
         | intros ?]).
  apply object_merge_parents.
Qed.

(** *** The loop over the detected objects (lines 539-574) *)

Lemma objects_loop_frame (start : nat) (items : list pyval) (key : string)
    (Inv : option pyval -> Prop) :
  (forall j, (start <= j)%nat -> ~ object_key (j + 1) key) ->
  triple (fun d => Inv (d !! key))
         (for_each (combine (seq start (length items)) items)
                   (fun '(nobj, obj) => merge_object nobj obj))
         (fun d => Inv (d !! key)).
Proof.
  intros Hkey. apply triple_for_each_In. intros [j obj] Hin.
  apply triple_frame.
  apply (sound_weaken (object_key (j + 1))); [|apply object_merge_object].
  intros k Hk ->. apply (Hkey j); [|exact Hk].
  apply in_combine_l in Hin. apply in_seq in Hin. lia.
Qed.

Lemma objects_loop (start : nat) (items : list pyval) d u d1 ws :
  for_each (combine (seq start (length items)) items)
           (fun '(nobj, obj) => merge_object nobj obj) d = Ok (u, d1, ws) ->
  forall (i : nat) (obj : pyval),
    items !! i = Some obj ->
    exists rectangle label x y w h,
      subscript obj "rectangle" = Ok rectangle
      /\ subscript obj "object" = Ok label
      /\ subscript rectangle "x" = Ok x /\ subscript rectangle "y" = Ok y
      /\ subscript rectangle "w" = Ok w /\ subscript rectangle "h" = Ok h
      /\ d1 !! fmt "Object_" (start + i + 1) "" = Some label
      /\ d1 !! fmt "x" (start + i + 1) "" = Some x
      /\ d1 !! fmt "y" (start + i + 1) "" = Some y
      /\ d1 !! fmt "w" (start + i + 1) "" = Some w
      /\ d1 !! fmt "h" (start + i + 1) "" = Some h.
Proof.
  revert start d u ws. induction items as [|obj0 rest IH]; intros start d u ws H i obj Hi;
    [discriminate Hi|].
  simpl in H. peel H H0.
  destruct i as [|i]; simpl in Hi.
  - injection Hi as <-.
    destruct (merge_object_Ok _ _ _ _ _ _ H0)
      as (rectangle & vx & vy & vw & vh & cx & cy & label & Hr & Hx & Hw & Hy & Hh & _ & _
          & Hl & Kl & _ & _ & _ & Kx & Ky & Kw & Kh & _).
    exists rectangle, label, vx, vy, vw, vh.
    replace (start + 0 + 1)%nat with (start + 1)%nat by lia.
    assert (Hkeep : forall key v, bound_key (start + 1) key -> d0 !! key = Some v ->
                      d1 !! key = Some v).
    { intros key v Hkey Hv.
      refine (objects_loop_frame (S start) rest key (fun o => o = Some v) _ _ _ _ _ H Hv).
      intros j Hj. apply (bound_key_other (j + 1) (start + 1)); [lia | exact Hkey]. }
    repeat (split; [assumption|]).
    repeat split; apply Hkeep; try assumption; unfold bound_key; simpl; auto 6.
  - destruct (IH (S start) _ _ _ H i obj Hi) as (rectangle & label & vx & vy & vw & vh & Hfacts).
    exists rectangle, label, vx, vy, vw, vh.
    replace (start + S i + 1)%nat with (S start + i + 1)%nat by lia. exact Hfacts.
Qed.

Lemma len_iter (v : pyval) (n : nat) (items : list pyval) :
  len v = Ok n -> iter v = Ok items -> length items = n.
Proof.
  destruct v; simpl; try discriminate.
  - intros [= <-] [= <-]. induction s as [|c s IH]; simpl; [reflexivity | f_equal; exact IH].
  - intros [= <-] [= <-]. reflexivity.
  - intros [= <-] [= <-]. apply length_map.
Qed.

(** X22.  The boxes drawn on a slice are those of the objects the
    service detected in that slice: when the answer has an [objects]
    list, [get_object_bounds] run on the dictionary that [merge_objects]
    leaves returns one bound per object of the answer, in order, each
    with the label and the four vertices of the rectangle of that
    object. *)
Theorem bounds_follow_detections (responsejson : pyval) (d : gmap string pyval)
    u d1 ws1 bs d2 ws2 :
  contains "objects" responsejson = Ok true ->
  merge_objects responsejson d = Ok (u, d1, ws1) ->
  get_object_bounds d1 = Ok (bs, d2, ws2) ->
  exists objects items,
    subscript responsejson "objects" = Ok objects /\ iter objects = Ok items
    /\ Forall2 (fun obj b =>
                  exists rectangle,
                    subscript obj "rectangle" = Ok rectangle
                    /\ subscript obj "object" = Ok (bound_object b)
                    /\ subscript rectangle "x" = Ok (bound_x b)
                    /\ subscript rectangle "y" = Ok (bound_y b)
                    /\ subscript rectangle "w" = Ok (bound_w b)
                    /\ subscript rectangle "h" = Ok (bound_h b)) items bs.
Proof.
  intros Hpresent Hmerge Hbounds. unfold merge_objects in Hmerge.
  apply bind_Ok in Hmerge as (present & dp & wp & wp' & Hp & Hmerge & _).
  apply lift_Ok in Hp as (Hp & E1 & E2). subst.
  rewrite Hpresent in Hp. injection Hp as <-. simpl in Hmerge.
  apply bind_Ok in Hmerge as (objects & do & wo & wo' & Hobjects & Hmerge & _).
  apply lift_Ok in Hobjects as (Hobjects & E1 & E2). subst.
  apply bind_Ok in Hmerge as (lobj & dl & wl & wl' & Hlen & Hmerge & _).
  apply lift_Ok in Hlen as (Hlen & E1 & E2). subst.
  apply bind_Ok in Hmerge as (uc & dc & wc & wc' & Hcount & Hmerge & _).
  apply assign_Ok in Hcount as (E1 & E2). subst.
  apply bind_Ok in Hmerge as (items & di & wi & wi' & Hitems & Hmerge & _).
  apply lift_Ok in Hitems as (Hitems & E1 & E2). subst.
  pose proof (len_iter _ _ _ Hlen Hitems) as Hlength.
  exists objects, items. split; [exact Hobjects|]. split; [exact Hitems|].
  unfold enumerate in Hmerge.
  assert (Hn : d1 !! "Number_of_Objects" = Some (VInt (Z.of_nat (length items)))).
  { refine (objects_loop_frame 0 items "Number_of_Objects"
              (fun o => o = Some (VInt (Z.of_nat (length items)))) _ _ _ _ _ Hmerge _).
    - intros j _. apply count_key_other.
    - rewrite Hlength. apply lookup_insert_eq. }
  unfold get_object_bounds in Hbounds.
  apply bind_Ok in Hbounds as (nobj & dn & wn & wn' & Hlook & Hbounds & _).
  apply lookup_Ok in Hlook as (Hlook & E1 & E2). subst.
  rewrite Hn in Hlook. injection Hlook as <-. rewrite Nat2Z.id in Hbounds.
  apply object_bounds_Ok in Hbounds as (_ & _ & Hall).
  pose proof (Forall2_length _ _ _ Hall) as Hbs. rewrite length_seq in Hbs.
  apply Forall2_same_length_lookup_2; [exact Hbs|].
  intros i obj b Hobj Hb.
  destruct (objects_loop 0 items _ _ _ _ Hmerge i obj Hobj)
    as (rectangle & label & vx & vy & vw & vh
        & Hr & Hl & Hx & Hy & Hw & Hh & Kl & Kx & Ky & Kw & Kh).
  assert (Hi : (i < length items)%nat) by (eapply lookup_lt_Some; exact Hobj).
  assert (Hseq : seq 0 (length items) !! i = Some i)
    by (apply lookup_seq; split; [reflexivity|exact Hi]).
  destruct (Forall2_lookup_lr _ _ _ i i b Hall Hseq Hb) as (Bl & Bx & By & Bw & Bh).
  simpl in Kl, Kx, Ky, Kw, Kh.
  exists rectangle. split; [exact Hr|].
  split; [congruence|]. split; [congruence|]. split; [congruence|].
  split; congruence.
Qed.

Lemma bounds_follow_detections_witness :
  exists objects items,
    subscript (Sample.response 2) "objects" = Ok objects /\ iter objects = Ok items
    /\ length items = 2%nat.
Proof.
  assert (Hret : returned (merge_objects (Sample.response 2) ∅) = true)
    by (vm_compute; reflexivity).
  destruct (merge_objects (Sample.response 2) ∅) as [[[u d1] ws1]|e] eqn:Hmerge;
    [|discriminate Hret].
  assert (Hret' : returned (match merge_objects (Sample.response 2) ∅ with
                            | Ok (_, d, _) => get_object_bounds d
                            | Raise e => Raise e
                            end) = true) by (vm_compute; reflexivity).
  rewrite Hmerge in Hret'.
  destruct (get_object_bounds d1) as [[[bs d2] ws2]|e] eqn:Hbounds; [|discriminate Hret'].
  destruct (bounds_follow_detections (Sample.response 2) ∅ u d1 ws1 bs d2 ws2
              eq_refl Hmerge Hbounds) as (objects & items & Hobjects & Hitems & Hall).
  exists objects, items. split; [exact Hobjects|]. split; [exact Hitems|].
  vm_compute in Hobjects. injection Hobjects as <-.
  vm_compute in Hitems. injection Hitems as <-. reflexivity.
Defined.

(** *** The dominant colours (lines 511-519) *)

(** X23.  The branch [elif ... is None] of the dominant colours is never
    taken, because [len] of [None] raises before it: with two colours or
    more [Dominant_Colors] is their join, with one it is that colour, and
    with none the key is not written at all, so it keeps what an earlier
    slice left there. *)
Theorem dominant_colors_by_count (responsejson : pyval) (d : gmap string pyval) u d' ws :
  contains "color" responsejson = Ok true ->
  merge_color responsejson d = Ok (u, d', ws) ->
  exists color dominantColors n,
    subscript responsejson "color" = Ok color
    /\ subscript color "dominantColors" = Ok dominantColors
    /\ len dominantColors = Ok n
    /\ ((1 < n)%nat ->
        exists joined, py_join "," dominantColors = Ok joined
                       /\ d' !! "Dominant_Colors" = Some (VStr joined))
    /\ (n = 1%nat ->
        exists only, first_item dominantColors = Ok only
                     /\ d' !! "Dominant_Colors" = Some only)
    /\ (n = 0%nat -> d' !! "Dominant_Colors" = d !! "Dominant_Colors").
Proof.
  intros Hpresent H. unfold merge_color in H.
  apply bind_Ok in H as (present & dp & wp & wp' & Hp & H & _).
  apply lift_Ok in Hp as (Hp & E1 & E2). subst.
  rewrite Hpresent in Hp. injection Hp as <-. simpl in H.
  apply bind_Ok in H as (color & d0 & w0 & w0' & Hcolor & H & _).
  apply lift_Ok in Hcolor as (Hcolor & E1 & E2). subst.
  apply bind_Ok in H as (fg & d1 & w1 & w1' & Hfg & H & _).
  apply lift_Ok in Hfg as (Hfg & E1 & E2). subst.
  apply bind_Ok in H as (u1 & d2 & w2 & w2' & Kfg & H & _).
  apply assign_Ok in Kfg as (E1 & E2). subst.
  apply bind_Ok in H as (bg & d3 & w3 & w3' & Hbg & H & _).
  apply lift_Ok in Hbg as (Hbg & E1 & E2). subst.
  apply bind_Ok in H as (u2 & d4 & w4 & w4' & Kbg & H & _).
  apply assign_Ok in Kbg as (E1 & E2). subst.
  apply bind_Ok in H as (dominantColors & d5 & w5 & w5' & Hdc & H & _).
  apply lift_Ok in Hdc as (Hdc & E1 & E2). subst.
  apply bind_Ok in H as (n & d6 & w6 & w6' & Hlen & H & _).
  apply lift_Ok in Hlen as (Hlen & E1 & E2). subst.
  exists color, dominantColors, n.
  split; [exact Hcolor|]. split; [exact Hdc|]. split; [exact Hlen|].
  destruct (1 <? n)%nat eqn:Hmany.
  - apply Nat.ltb_lt in Hmany.
    apply bind_Ok in H as (joined & d7 & w7 & w7' & Hjoin & H & _).
    apply lift_Ok in Hjoin as (Hjoin & E1 & E2). subst.
    apply assign_Ok in H as (E1 & E2). subst.
    split; [|split; intros; lia].
    intros _. exists joined. split; [exact Hjoin | apply lookup_insert_eq].
  - apply Nat.ltb_ge in Hmany.
    destruct (n =? 1)%nat eqn:Hone.
    + apply Nat.eqb_eq in Hone.
      apply bind_Ok in H as (only & d7 & w7 & w7' & Hfirst & H & _).
      apply lift_Ok in Hfirst as (Hfirst & E1 & E2). subst d7 w7.
      apply assign_Ok in H as (E1 & E2). subst d' w7'.
      split; [intros; lia|]. split; [|intros; lia].
      intros _. exists only. split; [exact Hfirst | apply lookup_insert_eq].
    + apply Nat.eqb_neq in Hone.
      split; [intros; lia|]. split; [intros; lia|]. intros _.
      destruct dominantColors; simpl in Hlen; try discriminate Hlen;
        apply ret_Ok in H as (_ & E1 & _); subst;
        rewrite !lookup_insert_ne by discriminate; reflexivity.
Qed.

Lemma dominant_colors_by_count_witness :
  exists d' : gmap string pyval,
    d' !! "Dominant_Colors" = (<["Dominant_Colors" := VStr "Grey"]> ∅ : gmap string pyval)
                                !! "Dominant_Colors".
Proof.
  pose (r := VDict [ ("color", VDict [ ("dominantColorForeground", VStr "White");
                                       ("dominantColorBackground", VStr "Black");
                                       ("dominantColors", VList []) ]) ]).
  pose (d := (<["Dominant_Colors" := VStr "Grey"]> ∅ : gmap string pyval)).
  assert (Hret : returned (merge_color r d) = true) by (vm_compute; reflexivity).
  destruct (merge_color r d) as [[[u d'] ws]|e] eqn:H; [|discriminate Hret].
  exists d'.
  destruct (dominant_colors_by_count r d u d' ws eq_refl H)
    as (color & dc & n & Hcolor & Hdc & Hlen & _ & _ & Hnone).
  vm_compute in Hcolor. injection Hcolor as <-.
  vm_compute in Hdc. injection Hdc as <-.
  vm_compute in Hlen. injection Hlen as <-.
  exact (Hnone eq_refl).
Defined.

(** *** The restoration of a small record *)

Lemma returned_Ok {A} (r : result A) : returned r = true -> exists a, r = Ok a.
Proof. destruct r as [a|e]; [eauto | discriminate]. Qed.

Lemma restore_small_record : returned (restore (VStr <$> small_record)) = true.
Proof. vm_compute. reflexivity. Qed.

Lemma restore_fixed_fields_witness :
  exists u (d' : gmap string pyval) ws q,
    restore (VStr <$> small_record) = Ok (u, d', ws)
    /\ py_float (VStr "33.5") = Ok q /\ d' !! "Latitude" = Some (VFloat q).
Proof.
  destruct (returned_Ok _ restore_small_record) as [[[u d'] ws] H].
  destruct (proj1 (restore_fixed_fields (VStr <$> small_record) u d' ws H)
              "Latitude" (VStr "33.5")) as (q & Hq & Hd).
  - simpl. auto.
  - vm_compute. reflexivity.
  - exists u, d', ws, q. auto.
Defined.

Lemma restore_counted_fields_witness :
  exists u (d' : gmap string pyval) ws no,
    restore (VStr <$> small_record) = Ok (u, d', ws)
    /\ d' !! "Number_of_Objects" = Some (VInt no)
    /\ ((1 <= 1 <= no)%Z -> holds "x1" an_int d').
Proof.
  destruct (returned_Ok _ restore_small_record) as [[[u d'] ws] H].
  destruct (restore_counted_fields (VStr <$> small_record) u d' ws H)
    as (nc & nt & no & _ & _ & Hno & _ & _ & Hobj).
  exists u, d', ws, no. split; [exact H|]. split; [exact Hno|].
  intros Hone. apply (Hobj 1%nat Hone).
Defined.

Lemma restore_frame_witness :
  exists u (d' : gmap string pyval) ws,
    restore (VStr <$> small_record) = Ok (u, d', ws)
    /\ d' !! "Object_1_Parent_1_Confidence" = Some (VStr "0.75").
Proof.
  destruct (returned_Ok _ restore_small_record) as [[[u d'] ws] H].
  exists u, d', ws. split; [exact H|].
  rewrite (proj1 (proj2 (restore_frame (VStr <$> small_record) u d' ws H))
             "Object_1_Parent_1_Confidence").
  - vm_compute. reflexivity.
  - exact (parent_key_not_restored 1 1 "_Confidence").
Defined.

(** *** Features *)

Lemma feature_of_restored svc container name gfeature :
  feature_of svc container name = Ok gfeature ->
  exists stored_metadata ws,
    get_blob_metadata svc container name = Ok stored_metadata
    /\ restore (VStr <$> stored_metadata) = Ok (tt, properties gfeature, ws)
    /\ geometry gfeature
       = (default VNone (properties gfeature !! "Longitude"),
          default VNone (properties gfeature !! "Latitude"))
    /\ is_Some (properties gfeature !! "Longitude")
    /\ is_Some (properties gfeature !! "Latitude").
Proof.
  intros H. apply feature_of_Ok in H as (m & ws & lon & lat & Hm & Hr & Hlon & Hlat & Hg).
  exists m, ws. rewrite Hlon, Hlat. simpl. eauto 10.
Qed.

(** X18.  The label and the confidence of every parent of every object
    are in no list and no family of the restoration: in a feature they
    are the text the record holds, whatever the object and the level. *)
Theorem parent_fields_stay_text svc container name gfeature (n k : nat) (suffix : string) :
  feature_of svc container name = Ok gfeature ->
  exists stored_metadata,
    get_blob_metadata svc container name = Ok stored_metadata
    /\ properties gfeature !! ("Object_" ++ pretty n ++ "_Parent_" ++ pretty k ++ suffix)
       = VStr <$> stored_metadata !! ("Object_" ++ pretty n ++ "_Parent_" ++ pretty k ++ suffix).
Proof.
  intros H. apply feature_of_restored in H as (m & ws & Hm & Hr & _).
  exists m. split; [exact Hm|].
  rewrite (restore_untouched _ _ _ _ _ Hr (parent_key_not_restored n k suffix)).
  apply lookup_fmap.
Qed.

Lemma feature_needs_fields svc container name stored_metadata key :
  get_blob_metadata svc container name = Ok stored_metadata ->
  In key [ "Number_of_Categories"; "Number_of_Tags"; "Number_of_Objects";
           "Longitude"; "Latitude" ] ->
  stored_metadata !! key = None ->
  exists e, feature_of svc container name = Raise e.
Proof.
  intros Hm Hkey Hnone.
  destruct (feature_of svc container name) as [gfeature|e] eqn:H; [|eauto].
  exfalso. apply feature_of_restored in H as (m & ws & Hm' & Hr & _ & Hlon & Hlat).
  rewrite Hm in Hm'. injection Hm' as <-.
  assert (Hd : (VStr <$> stored_metadata : gmap string pyval) !! key = None)
    by (rewrite lookup_fmap, Hnone; reflexivity).
  assert (Habsent : properties gfeature !! key = None).
  { refine (restore_absent _ _ _ _ key Hr _ Hd).
    apply among_In. simpl in Hkey.
    repeat (destruct Hkey as [<-|Hkey]; [reflexivity|]). destruct Hkey. }
  simpl in Hkey.
  destruct Hkey as [<-|[<-|[<-|[<-|[<-|[]]]]]].
  - destruct (restore_reads_counts _ _ _ _ "Number_of_Categories" Hr) as [v Hv];
      [simpl; auto | congruence].
  - destruct (restore_reads_counts _ _ _ _ "Number_of_Tags" Hr) as [v Hv];
      [simpl; auto | congruence].
  - destruct (restore_reads_counts _ _ _ _ "Number_of_Objects" Hr) as [v Hv];
      [simpl; auto | congruence].
  - rewrite Habsent in Hlon. destruct Hlon as [? E]. discriminate E.
  - rewrite Habsent in Hlat. destruct Hlat as [? E]. discriminate E.
Qed.

(** X19.  A record that lacks one of the three counts, the longitude or
    the latitude costs the whole collection:
    [create_geojson_from_cardinals] returns no collection, whatever the
    other records are. *)
Theorem incomplete_record_loses_collection svc container names name stored_metadata key :
  list_blobs svc container = Ok names -> name ∈ names ->
  get_blob_metadata svc container name = Ok stored_metadata ->
  In key [ "Number_of_Categories"; "Number_of_Tags"; "Number_of_Objects";
           "Longitude"; "Latitude" ] ->
  stored_metadata !! key = None ->
  forall fc : FeatureCollection,
    outcome (create_geojson_from_cardinals svc container) <> Ok (Some fc).
Proof.
  intros Hnames Hin Hm Hkey Hnone fc.
  destruct (feature_needs_fields svc container name stored_metadata key Hm Hkey Hnone)
    as [e He].
  unfold create_geojson_from_cardinals.
  destruct (check_blob_container svc container) as [out|ex]; [|apply handler_no_collection].
  rewrite Hnames.
  destruct (features_of_Raise svc container names [] name e Hin He) as [e' ->].
  apply handler_no_collection.
Qed.

Lemma incomplete_record_loses_collection_witness :
  outcome (create_geojson_from_cardinals small_store "cardinal")
  <> Ok (Some [ Feature (VFloat 0, VFloat 0) ∅ ]).
Proof.
  refine (incomplete_record_loses_collection small_store "cardinal"
            [ "a_1_N.jpg"; "a_2_NE.jpg" ] "a_2_NE.jpg"
            (delete "Number_of_Tags" small_record) "Number_of_Tags" _ _ _ _ _ _).
  - reflexivity.
  - apply list_elem_of_further, list_elem_of_here.
  - reflexivity.
  - simpl. auto.
  - vm_compute. reflexivity.
Defined.

(** X20.  In a collection that [create_geojson_from_cardinals] returns,
    the point of every feature is a pair of floats, the floats of the
    longitude and latitude of its record, and every fixed field the
    feature has is typed: a float for a field of [fieldsFloat], an integer
    for a field of [fieldsInt]. *)
Theorem features_are_typed svc container (fc : FeatureCollection) :
  outcome (create_geojson_from_cardinals svc container) = Ok (Some fc) ->
  exists names,
    list_blobs svc container = Ok names
    /\ Forall2 (fun name gfeature =>
                  exists stored_metadata lon lat tlon tlat,
                    get_blob_metadata svc container name = Ok stored_metadata
                    /\ stored_metadata !! "Longitude" = Some tlon
                    /\ stored_metadata !! "Latitude" = Some tlat
                    /\ float_of_string tlon = Some lon
                    /\ float_of_string tlat = Some lat
                    /\ geometry gfeature = (VFloat lon, VFloat lat)
                    /\ (forall k v, In k fieldsFloat -> properties gfeature !! k = Some v ->
                          a_float v)
                    /\ (forall k v, In k fieldsInt -> properties gfeature !! k = Some v ->
                          an_int v))
               names fc.
Proof.
  unfold create_geojson_from_cardinals. intros H.
  destruct (check_blob_container svc container) as [out|ex];
    [|exfalso; exact (handler_no_collection _ _ _ H)].
  destruct (list_blobs svc container) as [names|ex];
    [|exfalso; exact (handler_no_collection _ _ _ H)].
  destruct (features_of svc container names []) as [featList|ex] eqn:Hf;
    [|exfalso; exact (handler_no_collection _ _ _ H)].
  simpl in H. injection H as <-.
  apply features_of_Ok in Hf as (news & -> & Hall). simpl.
  exists names. split; [reflexivity|].
  eapply Forall2_impl; [exact Hall|]. intros name gfeature Hg.
  apply feature_of_restored in Hg as (m & ws & Hm & Hr & Hgeo & [vlon Hlon] & [vlat Hlat]).
  destruct (restore_typed _ _ _ _ Hr) as [Hf Hi].
  destruct (Hf "Longitude" vlon) as (v1 & lon & Hv1 & Hq1 & ->); [simpl; auto | exact Hlon|].
  destruct (Hf "Latitude" vlat) as (v2 & lat & Hv2 & Hq2 & ->); [simpl; auto | exact Hlat|].
  rewrite lookup_fmap in Hv1, Hv2.
  destruct (m !! "Longitude") as [tlon|] eqn:Htlon; [|discriminate Hv1].
  destruct (m !! "Latitude") as [tlat|] eqn:Htlat; [|discriminate Hv2].
  simpl in Hv1, Hv2. injection Hv1 as <-. injection Hv2 as <-.
  simpl in Hq1, Hq2.
  destruct (float_of_string tlon) as [q1|] eqn:E1; [|discriminate Hq1].
  destruct (float_of_string tlat) as [q2|] eqn:E2; [|discriminate Hq2].
  injection Hq1 as ->. injection Hq2 as ->.
  exists m, lon, lat, tlon, tlat.
  split; [exact Hm|]. split; [exact Htlon|]. split; [exact Htlat|].
  split; [exact E1|]. split; [exact E2|].
  split; [rewrite Hgeo, Hlon, Hlat; reflexivity|].
  split.
  - intros k v Hk Hv. destruct (Hf k v Hk Hv) as (_ & q & _ & _ & ->). exists q. reflexivity.
  - intros k v Hk Hv. destruct (Hi k v Hk Hv) as (_ & z & _ & _ & ->). exists z. reflexivity.
Qed.

Lemma collection_of_complete_store :
  returned (match outcome (create_geojson_from_cardinals complete_store "cardinal") with
            | Ok (Some fc) => Ok fc
            | Ok None => Raise (Exn "" [])
            | Raise e => Raise e
            end) = true.
Proof. vm_compute. reflexivity. Qed.

Lemma features_are_typed_witness :
  exists (fc : FeatureCollection) names,
    outcome (create_geojson_from_cardinals complete_store "cardinal") = Ok (Some fc)
    /\ list_blobs complete_store "cardinal" = Ok names
    /\ length fc = length names.
Proof.
  pose proof collection_of_complete_store as Hret.
  destruct (outcome (create_geojson_from_cardinals complete_store "cardinal"))
    as [[fc|]|e] eqn:H; [|discriminate Hret|discriminate Hret].
  destruct (features_are_typed complete_store "cardinal" fc H) as (names & Hnames & Hall).
  exists fc, names. split; [reflexivity|]. split; [exact Hnames|].
  symmetry. exact (Forall2_length _ _ _ Hall).
Defined.

Lemma parent_fields_stay_text_witness :
  exists gfeature,
    feature_of complete_store "cardinal" "a_1_N.jpg" = Ok gfeature
    /\ properties gfeature !! "Object_1_Parent_1_Confidence" = Some (VStr "0.75").
Proof.
  assert (Hret : returned (feature_of complete_store "cardinal" "a_1_N.jpg") = true)
    by (vm_compute; reflexivity).
  destruct (feature_of complete_store "cardinal" "a_1_N.jpg") as [gfeature|e] eqn:H;
    [|discriminate Hret].
  exists gfeature. split; [reflexivity|].
  destruct (parent_fields_stay_text complete_store "cardinal" "a_1_N.jpg" gfeature
              1 1 "_Confidence" H) as (m & Hm & Hkey).
  change (Ok small_record = Ok m) in Hm. injection Hm as <-.
  refine (eq_trans Hkey _). vm_compute. reflexivity.
Defined.

(** *** A container that does not exist *)

Lemma features_of_total svc container names featList :
  (forall name, name ∈ names -> exists g, feature_of svc container name = Ok g) ->
  exists news, features_of svc container names featList = Ok (featList ++ news)%list
               /\ length news = length names.
Proof.
  revert featList. induction names as [|name rest IH]; intros featList Hall; simpl.
  - exists []. rewrite app_nil_r. auto.
  - destruct (Hall name) as [g Hg]; [apply list_elem_of_here|]. rewrite Hg.
    destruct (IH (featList ++ [g])%list) as (news & Hnews & Hlen).
    { intros name' Hin. apply Hall. apply list_elem_of_further, Hin. }
    exists (g :: news). rewrite Hnews, <- app_assoc. simpl. auto.
Qed.

(** X21.  [check_blob_container] only reports a container that does not
    exist; [create_geojson_from_cardinals] goes on after the message
    "Program exits": when every record of the listing yields a feature,
    it returns a collection with one feature per record. *)
Theorem missing_container_is_only_reported svc (container : string) (names : list string) :
  exists_container svc container = Ok false ->
  list_blobs svc container = Ok names ->
  (forall name, name ∈ names -> exists g, feature_of svc container name = Ok g) ->
  let r := create_geojson_from_cardinals svc container in
  printed r = [ VStr "Container did not exist. No changes are requested. Program exits." ]
  /\ exists fc : FeatureCollection, outcome r = Ok (Some fc) /\ length fc = length names.
Proof.
  intros He Hl Hall. unfold create_geojson_from_cardinals, check_blob_container.
  rewrite He, Hl.
  destruct (features_of_total svc container names [] Hall) as (news & -> & Hlen).
  simpl. split; [reflexivity|]. exists news. auto.
Qed.

Lemma missing_container_is_only_reported_witness :
  printed (create_geojson_from_cardinals no_container "cardinal")
  = [ VStr "Container did not exist. No changes are requested. Program exits." ]
  /\ exists fc : FeatureCollection,
       outcome (create_geojson_from_cardinals no_container "cardinal") = Ok (Some fc)
       /\ length fc = length [ "a_1_N.jpg" ].
Proof.
  refine (missing_container_is_only_reported no_container "cardinal" [ "a_1_N.jpg" ] _ _ _).
  - reflexivity.
  - reflexivity.
  - intros name _.
    assert (Hret : returned (feature_of no_container "cardinal" name) = true)
      by (vm_compute; reflexivity).
    destruct (feature_of no_container "cardinal" name) as [g|e]; [eauto | discriminate Hret].
Defined.

End PipelineMore.
